(** * share: the blob store and its WebDAV adapter

    A shallow embedding of the Go server of the [share] repository:
    - [storage.Item] and the [Storage] interface (storage.go),
    - the filesystem backend (filesystem.go) and the S3 backend (s3.go),
    - the WebDAV adapter (api/webdav.go) with [generateID] and
      [detectContentType] (api/handlers.go),
    - the token checks of both handlers and the delete endpoint
      (api/handlers.go, api/webdav.go),
    - the escaping for template literals (render/render.go),
    - the configuration and the choice of the backend (config/config.go,
      storage.go).

    Conventions.
    - Go's [int] and [int64] are [Z]; arithmetic that the source performs on
      [int] goes through [Go.int_add] / [Go.int_sub], which wrap at 64 bits.
    - A Go [string] is a [string], the sequence of its bytes, which need not
      be valid UTF-8; a [[]byte] and the content of a file, an object or a
      stream is a [list byte].
    - The directories of the filesystem backend are maps from entry name to
      content.  An id stands for the entry of its name, which is what
      [filepath.Join] makes of an id that has the form of a file name
      ([entry_name]); the ids of the program itself, from [generateID],
      have it.
    - A [time.Time] is the instant it denotes, in nanoseconds since the Unix
      epoch.
    - Every call that reaches the operating system, the object store or a
      reader may fail.  The medium carries a schedule of [outcome]s; each such
      call consumes the next one.  An exhausted schedule means success.
    - Library functions whose code is outside the repository
      ([encoding/json], [sort.Slice], [mime], [net/http] sniffing) are
      interfaces (type classes) stating the contract the proofs use; each has
      an executable instance further down. *)

From Stdlib Require Import ZArith Strings.Byte Strings.Ascii Strings.String Lia.
From stdpp Require Import gmap strings list fin_maps sorting countable.

Local Open Scope string_scope.
Local Open Scope list_scope.

(** ** The Go runtime *)

Module Go.

(** *** Machine integers *)

Definition max_int : Z := 2 ^ 63 - 1.
Definition min_int : Z := - 2 ^ 63.

(** Two's complement wrap-around of a 64-bit signed integer. *)
Definition wrap (z : Z) : Z := ((z + 2 ^ 63) mod 2 ^ 64 - 2 ^ 63)%Z.

Definition int_add (a b : Z) : Z := wrap (a + b).
Definition int_sub (a b : Z) : Z := wrap (a - b).

(** [len(x)] as an [int]. *)
Definition len {A} (l : list A) : Z := Z.of_nat (length l).

(** *** Errors *)

Inductive error : Type :=
| errorString (msg : string)               (* errors.New(msg), fmt.Errorf(msg) *)
| wrapError (msg : string) (cause : error) (* fmt.Errorf(msg + ": %w", cause) *)
| ErrNotExist                              (* os.ErrNotExist, ENOENT *)
| ErrPermission                            (* os.ErrPermission *)
| ErrInvalid                               (* os.ErrInvalid *)
| EOF                                      (* io.EOF *)
| NoSuchKey                                (* the object store's 404 *)
| ErrMarshal                               (* a json.Marshal / Unmarshal error *)
| IOFault.                                 (* any other failure of the medium *)

#[global] Instance error_eq_dec : EqDecision error.
Proof. solve_decision. Defined.

(** [os.IsNotExist]: the functions of the repository only apply it to the
    error of [os.Open] itself. *)
Definition os_IsNotExist (e : error) : bool :=
  match e with ErrNotExist => true | _ => false end.

(** *** Results of fallible calls *)

(** What the medium does with the next call that reaches it: it lets it
    succeed, or it fails it after [progress] bytes went through. *)
Inductive outcome : Type :=
| Succeeds
| Fails (progress : nat).

#[global] Instance outcome_eq_dec : EqDecision outcome.
Proof. solve_decision. Defined.

(** *** Strings *)

(** [s[:n]] and [s[n:]] on strings (total: used only where the source has
    checked the bounds). *)
Fixpoint str_take (n : nat) (s : string) : string :=
  match n, s with
  | S n, String c r => String c (str_take n r)
  | _, _ => ""
  end.

Fixpoint str_drop (n : nat) (s : string) : string :=
  match n, s with
  | S n, String _ r => str_drop n r
  | _, _ => s
  end.

(** [strings.TrimPrefix] and [strings.TrimSuffix]. *)
Definition strings_TrimPrefix (s pre : string) : string :=
  if String.prefix pre s then str_drop (String.length pre) s else s.

Definition strings_HasSuffix (s suf : string) : bool :=
  bool_decide (str_drop (String.length s - String.length suf) s = suf)
  && bool_decide (String.length suf <= String.length s).

Definition strings_TrimSuffix (s suf : string) : string :=
  if strings_HasSuffix s suf
  then str_take (String.length s - String.length suf) s
  else s.

(** [filepath.Ext]: the suffix of the last path element that starts at its
    last dot; empty when that element has no dot.  [ext_scan] reads the
    loop of the source from the end of the string: [Some e] once the dot or
    a separator was met, [None] while neither was. *)
Fixpoint ext_scan (s : string) : option string :=
  match s with
  | "" => None
  | String c r =>
      match ext_scan r with
      | Some e => Some e
      | None =>
          if Ascii.eqb c "/" then Some ""
          else if Ascii.eqb c "." then Some s
          else None
      end
  end.

Definition filepath_Ext (path : string) : string :=
  default "" (ext_scan path).

(** The branch of [strings.ToLower] for a string of ASCII characters:
    [c += 'a' - 'A'] for every [c] from [A] to [Z].  Strings with a byte
    above 0x7F go through [unicode.ToLower], which is not modelled here:
    see the contract of [strings_ToLower] below. *)
Fixpoint isASCII (s : string) : bool :=
  match s with
  | "" => true
  | String c r => (nat_of_ascii c <? 128)%nat && isASCII r
  end.

Definition lower_ascii (c : ascii) : ascii :=
  let n := nat_of_ascii c in
  if (65 <=? n)%nat && (n <=? 90)%nat then ascii_of_nat (n + 32) else c.

Fixpoint ToLower_ASCII (s : string) : string :=
  match s with
  | "" => ""
  | String c r => String (lower_ascii c) (ToLower_ASCII r)
  end.

(** *** UTF-8 *)

Definition byte_at (n : nat) (s : string) : option nat :=
  nat_of_ascii <$> String.get n s.

Definition within (lo hi : nat) (b : option nat) : bool :=
  match b with
  | Some n => (lo <=? n)%nat && (n <=? hi)%nat
  | None => false
  end.

(** [utf8.DecodeRuneInString]: the width of the encoding at the head of
    [s], from 1 to 4; 0 where Go returns [RuneError] with the width 0 or 1,
    that is, when [s] is empty or does not begin with a valid encoding.  The
    ranges are those of the tables [first] and [acceptRanges] of the
    package: no overlong form, no surrogate, nothing above U+10FFFF. *)
Definition utf8_width (s : string) : nat :=
  match byte_at 0 s with
  | None => 0
  | Some b0 =>
      if (b0 <=? 0x7F)%nat then 1
      else if (0xC2 <=? b0)%nat && (b0 <=? 0xDF)%nat then
        if within 0x80 0xBF (byte_at 1 s) then 2 else 0
      else if (0xE0 <=? b0)%nat && (b0 <=? 0xEF)%nat then
        let lo := if (b0 =? 0xE0)%nat then 0xA0 else 0x80 in
        let hi := if (b0 =? 0xED)%nat then 0x9F else 0xBF in
        if within lo hi (byte_at 1 s) && within 0x80 0xBF (byte_at 2 s)
        then 3 else 0
      else if (0xF0 <=? b0)%nat && (b0 <=? 0xF4)%nat then
        let lo := if (b0 =? 0xF0)%nat then 0x90 else 0x80 in
        let hi := if (b0 =? 0xF4)%nat then 0x8F else 0xBF in
        if within lo hi (byte_at 1 s) && within 0x80 0xBF (byte_at 2 s)
           && within 0x80 0xBF (byte_at 3 s)
        then 4 else 0
      else 0
  end.

(** [utf8.ValidString]; [pending] counts the bytes of the current encoding
    still to pass over. *)
Fixpoint valid_from (pending : nat) (s : string) : bool :=
  match s with
  | "" => true
  | String _ r =>
      match pending with
      | S k => valid_from k r
      | O =>
          match utf8_width s with
          | O => false
          | S k => valid_from k r
          end
      end
  end.

Definition utf8_ValidString (s : string) : bool := valid_from 0 s.

(** U+FFFD, the replacement character, in UTF-8. *)
Definition replacement_char : string :=
  String (ascii_of_nat 0xEF) (String (ascii_of_nat 0xBF) (String (ascii_of_nat 0xBD) "")).

(** [hex.EncodeToString]. *)
Definition hex_digit (n : nat) : ascii :=
  match n with
  | 0 => "0" | 1 => "1" | 2 => "2" | 3 => "3" | 4 => "4" | 5 => "5"
  | 6 => "6" | 7 => "7" | 8 => "8" | 9 => "9" | 10 => "a" | 11 => "b"
  | 12 => "c" | 13 => "d" | 14 => "e" | _ => "f"
  end%char.

Fixpoint hex_EncodeToString (bs : list byte) : string :=
  match bs with
  | [] => ""
  | b :: r =>
      let n := Byte.to_nat b in
      String (hex_digit (n / 16)) (String (hex_digit (n mod 16)) (hex_EncodeToString r))
  end.

(** [os] flag bits (Linux). *)
Definition O_RDONLY : Z := 0.
Definition O_WRONLY : Z := 1.
Definition O_RDWR : Z := 2.
Definition O_CREATE : Z := 64.
Definition O_TRUNC : Z := 512.

(** [os.ModeDir]. *)
Definition ModeDir : Z := 2 ^ 31.

End Go.

Import Go.

(** ** storage.go: items and the storage interface *)

(** [type Item struct]. *)
Record Item : Type := mkItem {
  ID : string;
  Filename : string;
  ContentType : string;
  Size : Z;
  RenderMode : string;
  CreatedAt : Z;
  OwnerToken : string
}.

#[export] Instance Item_eq_dec : EqDecision Item.
Proof. solve_decision. Defined.

(** The assignment [item.Size = size]. *)
Definition set_Size (size : Z) (item : Item) : Item :=
  mkItem (ID item) (Filename item) (ContentType item) size
         (RenderMode item) (CreatedAt item) (OwnerToken item).

(** What a call of [Put] leaves behind besides the store: the bytes of
    [content] it has not read, the caller's [item] (whose [Size] it assigns
    through the pointer) and the error. *)
Record PutResult : Type := mkPutResult {
  unread : list byte;
  item_after : Item;
  put_err : option error
}.

(** [type Storage interface].  [S] is the state of the medium behind the
    backend; every method threads it. *)
Class Storage (S : Type) : Type := {
  Put : string -> list byte -> Item -> S -> PutResult * S;
  Get : string -> S -> (error + (list byte * Item)) * S;
  GetMeta : string -> S -> (error + Item) * S;
  Delete : string -> S -> option error * S;
  List : string -> S -> (error + list Item) * S
}.

(** [item.OwnerToken == ownerToken], the filter of [List]. *)
Definition owned_by (ownerToken : string) (item : Item) : Prop :=
  OwnerToken item = ownerToken.

#[export] Instance owned_by_dec ownerToken item : Decision (owned_by ownerToken item).
Proof. unfold owned_by. apply _. Defined.

(** The error of [GetMeta] for an id without metadata. *)
Definition NotFound : error := errorString "item not found".

(** ** Library contracts *)

(** What [encoding/json] makes of a Go string, which need not be valid
    UTF-8: [Marshal] writes every byte that does not begin a valid encoding
    as the escape of U+FFFD and passes over one byte, and [Unmarshal] reads
    the escape as the three bytes of U+FFFD.  Valid encodings, the one of
    U+FFFD among them, are read back as they were.  [pending] counts the
    bytes of the current encoding still to copy. *)
Fixpoint json_string_from (pending : nat) (s : string) : string :=
  match s with
  | "" => ""
  | String c r =>
      match pending with
      | S k => String c (json_string_from k r)
      | O =>
          match utf8_width s with
          | O => replacement_char +:+ json_string_from 0 r
          | S k => String c (json_string_from k r)
          end
      end
  end.

Definition json_string (s : string) : string := json_string_from 0 s.

(** An item as it is read back from its JSON text: the numbers are exact,
    the strings are those [encoding/json] makes of them. *)
Definition json_item (it : Item) : Item :=
  mkItem (json_string (ID it)) (json_string (Filename it))
         (json_string (ContentType it)) (Size it) (json_string (RenderMode it))
         (CreatedAt it) (json_string (OwnerToken it)).

(** Every string of the item is valid UTF-8. *)
Definition utf8_item (it : Item) : bool :=
  utf8_ValidString (ID it) && utf8_ValidString (Filename it)
  && utf8_ValidString (ContentType it) && utf8_ValidString (RenderMode it)
  && utf8_ValidString (OwnerToken it).

(** [encoding/json] on [Item].  [json_Marshal] fails on an item it cannot
    represent ([time.Time] refuses a year outside 0..9999); what it produces,
    [json_Unmarshal] reads back as [json_item] of the item: itself when its
    strings are valid UTF-8.  The time of an item is its instant, which the
    text keeps to the nanosecond. *)
Class JSON : Type := {
  json_Marshal : Item -> option (list byte);
  json_Unmarshal : list byte -> option Item;
  json_roundtrip : forall it b,
      json_Marshal it = Some b -> json_Unmarshal b = Some (json_item it)
}.

(** [sort.Slice]: some permutation of the slice in which no element is
    [less] than one before it.  The sort is not stable, so nothing else is
    promised.  [not_less less a b] reads "[b] is not less than [a]". *)
Definition not_less {A} (less : A -> A -> bool) : relation A :=
  fun a b => less b a = false.

Class SortSlice : Type := {
  sort_Slice : forall {A}, (A -> A -> bool) -> list A -> list A;
  sort_Slice_perm : forall A (less : A -> A -> bool) l, sort_Slice less l ≡ₚ l;
  sort_Slice_sorted : forall A (less : A -> A -> bool) l,
      Transitive (not_less less) -> Total (not_less less) ->
      StronglySorted (not_less less) (sort_Slice less l)
}.

(** The library functions [detectContentType] calls:
    [mime.TypeByExtension] (empty when the extension is unknown),
    [http.DetectContentType] and [strings.ToLower].  Of the last one the
    contract states what it does to a string of ASCII characters; on other
    strings it lowers the letters of Unicode, by tables that are not part
    of this development. *)
Class MimeDB : Type := {
  mime_TypeByExtension : string -> string;
  http_DetectContentType : list byte -> string;
  strings_ToLower : string -> string;
  strings_ToLower_ASCII : forall s,
      isASCII s = true -> strings_ToLower s = ToLower_ASCII s
}.

(** ** filesystem.go: the local backend *)

Module Filesystem.

(** The two directories [NewFilesystem] creates under [basePath], as maps
    from entry name to file content, and the schedule of the operating
    system.  Ids are entry names: [generateID] yields 24 hexadecimal
    digits, so [filepath.Join(basePath, "files", id)] is the entry [id] of
    [files].  The program creates regular files only, so these directories
    have no subdirectory.  An id that does not name an entry (an empty one,
    one with a separator or a dot segment, which the URL of a request can
    carry) has a path that [Join] cleans and that leads elsewhere; the model
    does not follow it there, see [entry_name]. *)
Record disk : Type := mkDisk {
  files : gmap string (list byte);
  meta : gmap string (list byte);
  sched : list outcome
}.

Inductive path : Type :=
| InFiles (name : string)
| InMeta (name : string).

(** [filePath] and [metaPath], for an id that names an entry. *)
Definition filePath (id : string) : path := InFiles id.
Definition metaPath (id : string) : path := InMeta (id +:+ ".json").

(** *** The operating system *)

Definition read_at (p : path) (d : disk) : option (list byte) :=
  match p with
  | InFiles n => files d !! n
  | InMeta n => meta d !! n
  end.

Definition write_at (p : path) (bs : list byte) (d : disk) : disk :=
  match p with
  | InFiles n => mkDisk (<[n := bs]> (files d)) (meta d) (sched d)
  | InMeta n => mkDisk (files d) (<[n := bs]> (meta d)) (sched d)
  end.

Definition remove_at (p : path) (d : disk) : disk :=
  match p with
  | InFiles n => mkDisk (delete n (files d)) (meta d) (sched d)
  | InMeta n => mkDisk (files d) (delete n (meta d)) (sched d)
  end.

(** The outcome of the next system call. *)
Definition next (d : disk) : outcome * disk :=
  match sched d with
  | [] => (Succeeds, d)
  | o :: rest => (o, mkDisk (files d) (meta d) rest)
  end.

(** No fault is scheduled. *)
Definition calm (d : disk) : Prop := Forall (fun o => o = Succeeds) (sched d).

(** The disk after [n] more system calls that left the files alone. *)
Definition later (n : nat) (d : disk) : disk :=
  mkDisk (files d) (meta d) (drop n (sched d)).

(** [os.Create]: creates or truncates; the handle is the path. *)
Definition os_Create (p : path) (d : disk) : (error + path) * disk :=
  let '(o, d) := next d in
  match o with
  | Succeeds => (inr p, write_at p [] d)
  | Fails _ => (inl IOFault, d)
  end.

(** Appending [bs] through a handle whose offset is at the end of its file. *)
Definition append_at (file : path) (bs : list byte) (d : disk) : disk :=
  write_at file (default [] (read_at file d) ++ bs) d.

(** [io.Copy(file, content)]: the number of bytes written and the error. *)
Definition io_Copy (file : path) (content : list byte) (d : disk)
  : (Z * option error) * disk :=
  let '(o, d) := next d in
  match o with
  | Succeeds => ((len content, None), append_at file content d)
  | Fails n => ((len (take n content), Some IOFault), append_at file (take n content) d)
  end.

(** [os.Remove]. *)
Definition os_Remove (p : path) (d : disk) : option error * disk :=
  let '(o, d) := next d in
  match o with
  | Succeeds =>
      match read_at p d with
      | Some _ => (None, remove_at p d)
      | None => (Some ErrNotExist, d)
      end
  | Fails _ => (Some IOFault, d)
  end.

(** [os.Open]. *)
Definition os_Open (p : path) (d : disk) : (error + path) * disk :=
  let '(o, d) := next d in
  match o with
  | Succeeds =>
      match read_at p d with
      | Some _ => (inr p, d)
      | None => (inl ErrNotExist, d)
      end
  | Fails _ => (inl IOFault, d)
  end.

(** Names in byte order, as [os.ReadDir] returns them. *)
Definition name_le (a b : string) : Prop := Is_true (String.leb a b).

#[global] Instance name_le_dec a b : Decision (name_le a b).
Proof. unfold name_le. apply _. Defined.

(** [os.ReadDir(metaDir)]: the names of the entries, sorted. *)
Definition os_ReadDir_meta (d : disk) : (error + list string) * disk :=
  let '(o, d) := next d in
  match o with
  | Succeeds => (inr (merge_sort name_le (map_to_list (meta d)).*1), d)
  | Fails _ => (inl IOFault, d)
  end.

Section Backend.
Context `{JSON} `{SortSlice}.

(** [json.NewEncoder(metaFile).Encode(item)]: marshals, then writes. *)
Definition json_Encode (metaFile : path) (item : Item) (d : disk)
  : option error * disk :=
  match json_Marshal item with
  | None => (Some ErrMarshal, d)
  | Some bs =>
      let '(o, d) := next d in
      match o with
      | Succeeds => (None, append_at metaFile bs d)
      | Fails n => (Some IOFault, append_at metaFile (take n bs) d)
      end
  end.

(** [json.NewDecoder(metaFile).Decode(&item)]: reads, then parses. *)
Definition json_Decode (metaFile : path) (d : disk) : (error + Item) * disk :=
  let '(o, d) := next d in
  match o with
  | Succeeds =>
      match read_at metaFile d with
      | Some bs =>
          match json_Unmarshal bs with
          | Some item => (inr item, d)
          | None => (inl ErrMarshal, d)
          end
      | None => (inl IOFault, d)
      end
  | Fails _ => (inl IOFault, d)
  end.

(** The metadata record of [id]: what [GetMeta] finds when no call fails. *)
Definition lookup_meta (d : disk) (id : string) : error + Item :=
  match meta d !! (id +:+ ".json") with
  | None => inl NotFound
  | Some bs =>
      match json_Unmarshal bs with
      | None => inl (wrapError "failed to read metadata" ErrMarshal)
      | Some item => inr item
      end
  end.

(** [item] is the metadata record stored under [id]. *)
Definition stored (d : disk) (id : string) (item : Item) : Prop :=
  exists bs, meta d !! (id +:+ ".json") = Some bs /\ json_Unmarshal bs = Some item.

(** The record a directory entry of [meta] holds, if it is one. *)
Definition record_at (d : disk) (name : string) : option Item :=
  if String.eqb (filepath_Ext name) ".json"
  then meta d !! name ≫= json_Unmarshal
  else None.

(** The records of an owner among the given entries, in their order. *)
Definition listed (ownerToken : string) (d : disk) (entries : list string)
  : list Item :=
  filter (owned_by ownerToken) (omap (record_at d) entries).

(** [func (f *Filesystem) Put]. *)
Definition Put (id : string) (content : list byte) (item : Item) (d : disk)
  : PutResult * disk :=
  match os_Create (filePath id) d with
  | (inl err, d) =>
      (mkPutResult content item (Some (wrapError "failed to create file" err)), d)
  | (inr file, d) =>
      match io_Copy file content d with
      | ((size, Some err), d) =>
          let '(_, d) := os_Remove (filePath id) d in
          (mkPutResult (drop (Z.to_nat size) content) item
             (Some (wrapError "failed to write file" err)), d)
      | ((size, None), d) =>
          let item := set_Size size item in
          match os_Create (metaPath id) d with
          | (inl err, d) =>
              let '(_, d) := os_Remove (filePath id) d in
              (mkPutResult [] item
                 (Some (wrapError "failed to create metadata file" err)), d)
          | (inr metaFile, d) =>
              match json_Encode metaFile item d with
              | (Some err, d) =>
                  let '(_, d) := os_Remove (filePath id) d in
                  let '(_, d) := os_Remove (metaPath id) d in
                  (mkPutResult [] item
                     (Some (wrapError "failed to write metadata" err)), d)
              | (None, d) => (mkPutResult [] item None, d)
              end
          end
      end
  end.

(** [func (f *Filesystem) GetMeta]. *)
Definition GetMeta (id : string) (d : disk) : (error + Item) * disk :=
  match os_Open (metaPath id) d with
  | (inl err, d) =>
      if os_IsNotExist err
      then (inl NotFound, d)
      else (inl (wrapError "failed to open metadata" err), d)
  | (inr metaFile, d) =>
      match json_Decode metaFile d with
      | (inl err, d) => (inl (wrapError "failed to read metadata" err), d)
      | (inr item, d) => (inr item, d)
      end
  end.

(** [func (f *Filesystem) Get].  The stream it returns is the opened
    file, that is, the bytes of the blob. *)
Definition Get (id : string) (d : disk) : (error + (list byte * Item)) * disk :=
  match GetMeta id d with
  | (inl err, d) => (inl err, d)
  | (inr item, d) =>
      match os_Open (filePath id) d with
      | (inl err, d) =>
          if os_IsNotExist err
          then (inl (errorString "file not found"), d)
          else (inl (wrapError "failed to open file" err), d)
      | (inr file, d) => (inr (default [] (read_at file d), item), d)
      end
  end.

(** [func (f *Filesystem) Delete]. *)
Definition Delete (id : string) (d : disk) : option error * disk :=
  let '(_, d) := os_Remove (filePath id) d in
  let '(_, d) := os_Remove (metaPath id) d in
  (None, d).

(** The loop of [List] over the directory entries; [items] accumulates.
    No entry of [meta] is a directory, so [entry.IsDir()] is false. *)
Fixpoint List_loop (entries : list string) (ownerToken : string)
    (items : list Item) (d : disk) : list Item * disk :=
  match entries with
  | [] => (items, d)
  | name :: entries =>
      if negb (String.eqb (filepath_Ext name) ".json")
      then List_loop entries ownerToken items d
      else
        let id := str_take (String.length name - 5) name in
        match GetMeta id d with
        | (inl _, d) => List_loop entries ownerToken items d
        | (inr item, d) =>
            if String.eqb (OwnerToken item) ownerToken
            then List_loop entries ownerToken (items ++ [item]) d
            else List_loop entries ownerToken items d
        end
  end.

(** [items[i].CreatedAt.After(items[j].CreatedAt)]. *)
Definition newer (a b : Item) : bool := (CreatedAt b <? CreatedAt a)%Z.

(** [func (f *Filesystem) List]. *)
Definition List (ownerToken : string) (d : disk) : (error + list Item) * disk :=
  match os_ReadDir_meta d with
  | (inl err, d) => (inl (wrapError "failed to read metadata directory" err), d)
  | (inr entries, d) =>
      let '(items, d) := List_loop entries ownerToken [] d in
      (inr (sort_Slice newer items), d)
  end.

End Backend.

End Filesystem.

#[export] Instance Filesystem_Storage `{JSON} `{SortSlice} : Storage Filesystem.disk := {
  Put := Filesystem.Put;
  Get := Filesystem.Get;
  GetMeta := Filesystem.GetMeta;
  Delete := Filesystem.Delete;
  List := Filesystem.List
}.

(** ** s3.go: the object-store backend *)

Module S3Storage.

(** The bucket, as a map from key to object body, and the schedule of the
    client's requests. *)
Record store : Type := mkStore {
  bucket : gmap string (list byte);
  sched : list outcome
}.

Definition fileKey (id : string) : string := "files/" +:+ id.
Definition metaKey (id : string) : string := "meta/" +:+ id +:+ ".json".

(** *** The client *)

Definition next (s : store) : outcome * store :=
  match sched s with
  | [] => (Succeeds, s)
  | o :: rest => (o, mkStore (bucket s) rest)
  end.

(** No fault is scheduled. *)
Definition calm (s : store) : Prop := Forall (fun o => o = Succeeds) (sched s).

(** The store after [n] more requests that left the bucket alone. *)
Definition later (n : nat) (s : store) : store :=
  mkStore (bucket s) (drop n (sched s)).

Definition PutObject (key : string) (body : list byte) (s : store)
  : option error * store :=
  let '(o, s) := next s in
  match o with
  | Succeeds => (None, mkStore (<[key := body]> (bucket s)) (sched s))
  | Fails _ => (Some IOFault, s)
  end.

Definition GetObject (key : string) (s : store) : (error + list byte) * store :=
  let '(o, s) := next s in
  match o with
  | Succeeds =>
      match bucket s !! key with
      | Some body => (inr body, s)
      | None => (inl NoSuchKey, s)
      end
  | Fails _ => (inl IOFault, s)
  end.

Definition DeleteObject (key : string) (s : store) : option error * store :=
  let '(o, s) := next s in
  match o with
  | Succeeds => (None, mkStore (delete key (bucket s)) (sched s))
  | Fails _ => (Some IOFault, s)
  end.

(** [io.Copy(&buf, content)]: fails only when the reader does. *)
Definition io_Copy (content : list byte) (s : store)
  : (list byte * Z * option error) * store :=
  let '(o, s) := next s in
  match o with
  | Succeeds => ((content, len content, None), s)
  | Fails n => ((take n content, len (take n content), Some IOFault), s)
  end.

Definition key_le (a b : string) : Prop := Is_true (String.leb a b).

#[global] Instance key_le_dec a b : Decision (key_le a b).
Proof. unfold key_le. apply _. Defined.

(** The keys [ListObjectsV2] reports for a prefix, in byte order. *)
Definition keys_with_prefix (pre : string) (s : store) : list string :=
  filter (fun k => Is_true (String.prefix pre k))
         (merge_sort key_le (map_to_list (bucket s)).*1).

(** The pages of the paginator: at most [max_keys] keys each, and one
    (possibly empty) page at least. *)
Definition max_keys : nat := 1000.

Fixpoint pages_of (fuel : nat) (keys : list string) : list (list string) :=
  match fuel with
  | O => [keys]
  | S fuel =>
      if (length keys <=? max_keys)%nat then [keys]
      else take max_keys keys :: pages_of fuel (drop max_keys keys)
  end.

Definition paginate (keys : list string) : list (list string) :=
  pages_of (length keys) keys.

Section Backend.
Context `{JSON}.

(** The metadata record of [id]: what [GetMeta] finds when no call fails. *)
Definition lookup_meta (s : store) (id : string) : error + Item :=
  match bucket s !! metaKey id with
  | None => inl NotFound
  | Some body =>
      match json_Unmarshal body with
      | None => inl (wrapError "failed to decode metadata" ErrMarshal)
      | Some item => inr item
      end
  end.

(** [item] is the metadata record stored under [id]. *)
Definition stored (s : store) (id : string) (item : Item) : Prop :=
  exists body, bucket s !! metaKey id = Some body /\ json_Unmarshal body = Some item.

(** The record [List] reads for a key of the listing, if any. *)
Definition record_at (s : store) (key : string) : option Item :=
  if (String.length key <=? 10)%nat then None
  else
    bucket s !! metaKey (str_take (String.length key - 5 - 5) (str_drop 5 key))
      ≫= json_Unmarshal.

(** The records of an owner among the given keys, in their order. *)
Definition listed (ownerToken : string) (s : store) (keys : list string)
  : list Item :=
  filter (owned_by ownerToken) (omap (record_at s) keys).

(** [func (s *S3Storage) Put]. *)
Definition Put (id : string) (content : list byte) (item : Item) (s : store)
  : PutResult * store :=
  match io_Copy content s with
  | ((buf, size, Some err), s) =>
      (mkPutResult (drop (Z.to_nat size) content) item
         (Some (wrapError "failed to read content" err)), s)
  | ((buf, size, None), s) =>
      let item := set_Size size item in
      match PutObject (fileKey id) buf s with
      | (Some err, s) =>
          (mkPutResult [] item (Some (wrapError "failed to upload file" err)), s)
      | (None, s) =>
          match json_Marshal item with
          | None =>
              (mkPutResult [] item
                 (Some (wrapError "failed to marshal metadata" ErrMarshal)), s)
          | Some metaBytes =>
              match PutObject (metaKey id) metaBytes s with
              | (Some err, s) =>
                  let '(_, s) := DeleteObject (fileKey id) s in
                  (mkPutResult [] item
                     (Some (wrapError "failed to upload metadata" err)), s)
              | (None, s) => (mkPutResult [] item None, s)
              end
          end
      end
  end.

(** [func (s *S3Storage) GetMeta]. *)
Definition GetMeta (id : string) (s : store) : (error + Item) * store :=
  match GetObject (metaKey id) s with
  | (inl _, s) => (inl NotFound, s)
  | (inr body, s) =>
      match json_Unmarshal body with
      | None => (inl (wrapError "failed to decode metadata" ErrMarshal), s)
      | Some item => (inr item, s)
      end
  end.

(** [func (s *S3Storage) Get]. *)
Definition Get (id : string) (s : store) : (error + (list byte * Item)) * store :=
  match GetMeta id s with
  | (inl err, s) => (inl err, s)
  | (inr item, s) =>
      match GetObject (fileKey id) s with
      | (inl err, s) => (inl (wrapError "failed to get file" err), s)
      | (inr body, s) => (inr (body, item), s)
      end
  end.

(** [func (s *S3Storage) Delete]. *)
Definition Delete (id : string) (s : store) : option error * store :=
  let '(_, s) := DeleteObject (fileKey id) s in
  let '(_, s) := DeleteObject (metaKey id) s in
  (None, s).

(** The inner loop of [List], over the objects of one page. *)
Fixpoint List_page (contents : list string) (ownerToken : string)
    (items : list Item) (s : store) : list Item * store :=
  match contents with
  | [] => (items, s)
  | key :: contents =>
      if (String.length key <=? 10)%nat
      then List_page contents ownerToken items s
      else
        let id := str_take (String.length key - 5 - 5) (str_drop 5 key) in
        match GetMeta id s with
        | (inl _, s) => List_page contents ownerToken items s
        | (inr item, s) =>
            if String.eqb (OwnerToken item) ownerToken
            then List_page contents ownerToken (items ++ [item]) s
            else List_page contents ownerToken items s
        end
  end.

(** The outer loop of [List], over the pages. *)
Fixpoint List_pages (pages : list (list string)) (ownerToken : string)
    (items : list Item) (s : store) : (error + list Item) * store :=
  match pages with
  | [] => (inr items, s)
  | page :: pages =>
      let '(o, s) := next s in
      match o with
      | Fails _ => (inl (wrapError "failed to list objects" IOFault), s)
      | Succeeds =>
          let '(items, s) := List_page page ownerToken items s in
          List_pages pages ownerToken items s
      end
  end.

(** [func (s *S3Storage) List]. *)
Definition List (ownerToken : string) (s : store) : (error + list Item) * store :=
  List_pages (paginate (keys_with_prefix "meta/" s)) ownerToken [] s.

End Backend.

End S3Storage.

#[export] Instance S3Storage_Storage `{JSON} : Storage S3Storage.store := {
  Put := S3Storage.Put;
  Get := S3Storage.Get;
  GetMeta := S3Storage.GetMeta;
  Delete := S3Storage.Delete;
  List := S3Storage.List
}.

(** ** api/handlers.go: identifiers and content types *)

(** What the adapter runs in: the storage backend's medium, the bytes the
    system's random source will deliver, and the clock. *)
Record world (S : Type) : Type := mkWorld {
  store : S;
  entropy : list byte;
  now : Z
}.
Arguments mkWorld {S} _ _ _.
Arguments store {S} _.
Arguments entropy {S} _.
Arguments now {S} _.

Definition set_store {S} (st : S) (w : world S) : world S :=
  mkWorld st (entropy w) (now w).

(** [rand.Read(bytes)] on a zeroed slice of [n] bytes; the source ignores its
    error, which leaves the bytes not delivered at zero. *)
Definition rand_Read {S} (n : nat) (w : world S) : list byte * world S :=
  let got := take n (entropy w) in
  (got ++ replicate (n - length got) x00,
   mkWorld (store w) (drop n (entropy w)) (now w)).

(** [func generateID]. *)
Definition generateID {S} (w : world S) : string * world S :=
  let '(bytes, w) := rand_Read 12 w in
  (hex_EncodeToString bytes, w).

(** The [switch] of [detectContentType] on the lower-cased extension. *)
Definition extension_table : list (string * string) :=
  [ (".md", "text/markdown"); (".markdown", "text/markdown");
    (".ts", "text/typescript"); (".tsx", "text/tsx"); (".jsx", "text/jsx");
    (".yaml", "text/yaml"); (".yml", "text/yaml"); (".toml", "text/toml");
    (".go", "text/x-go"); (".rs", "text/x-rust"); (".py", "text/x-python");
    (".rb", "text/x-ruby"); (".sh", "text/x-shellscript");
    (".bash", "text/x-shellscript"); (".sql", "text/x-sql");
    (".dockerfile", "text/x-dockerfile") ].

Fixpoint assoc (k : string) (table : list (string * string)) : option string :=
  match table with
  | [] => None
  | (k', v) :: table => if String.eqb k k' then Some v else assoc k table
  end.

(** The first half of [detectContentType]: the type the file name gives,
    if any. *)
Definition type_by_name `{MimeDB} (filename : string) : option string :=
  if String.eqb filename "" then None
  else
    let ext := filepath_Ext filename in
    let mimeType := mime_TypeByExtension ext in
    if negb (String.eqb mimeType "") then Some mimeType
    else assoc (strings_ToLower ext) extension_table.

(** [func detectContentType]. *)
Definition detectContentType `{MimeDB} (filename : string) (content : list byte)
  : string :=
  match type_by_name filename with
  | Some t => t
  | None =>
      if (0 <? len content)%Z then http_DetectContentType content
      else "text/plain"
  end.

(** ** api/webdav.go: the directory adapter *)

(** [type davFileInfo struct]. *)
Module davFileInfo.
Record t : Type := mk {
  name : string;
  size : Z;
  mode : Z;
  modTime : Z;
  isDir : bool
}.
End davFileInfo.

(** [x[lo:hi]]; [None] is the run-time panic of an out-of-range slice. *)
Definition slice {A} (x : list A) (lo hi : Z) : option (list A) :=
  if ((0 <=? lo) && (lo <=? hi) && (hi <=? len x))%Z
  then Some (take (Z.to_nat (hi - lo)) (drop (Z.to_nat lo) x))
  else None.

(** [type davDir struct] and its [Readdir]. *)
Module davDir.
Record t : Type := mk {
  info : davFileInfo.t;
  children : list davFileInfo.t;
  pos : Z
}.

(** [func (d *davDir) Readdir]; [None] is a panic. *)
Definition Readdir (d : t) (count : Z)
  : option ((list davFileInfo.t * option error) * t) :=
  if (len (children d) <=? pos d)%Z then
    if (count <=? 0)%Z then Some (([], None), d)
    else Some (([], Some EOF), d)
  else
    let count :=
      if ((count <=? 0) || (int_sub (len (children d)) (pos d) <? count))%Z
      then int_sub (len (children d)) (pos d)
      else count in
    match slice (children d) (pos d) (int_add (pos d) count) with
    | None => None
    | Some result =>
        Some ((result, None), mk (info d) (children d) (int_add (pos d) count))
    end.
End davDir.

(** [type davFile struct]: the read handle, a [bytes.Reader] over the blob. *)
Module davFile.
Record t : Type := mk {
  info : davFileInfo.t;
  data : list byte;
  offset : Z
}.
End davFile.

(** [type davWriteFile struct] and its methods.  The [storage] field is the
    [store] of the world the methods run in. *)
Module davWriteFile.
Record t : Type := mk {
  name : string;
  token : string;
  buffer : list byte;
  maxFileSize : Z;
  closed : bool
}.

Section Methods.
Context {S : Type} `{Storage S} `{MimeDB}.

(** [func (f *davWriteFile) Write]: the count, the error, the handle. *)
Definition Write (f : t) (p : list byte) (w : world S)
  : (Z * option error) * t * world S :=
  if ((0 <? maxFileSize f) && (maxFileSize f <? int_add (len (buffer f)) (len p)))%Z
  then ((0%Z, Some (errorString "file too large")), f, w)
  else ((len p, None),
        mk (name f) (token f) (buffer f ++ p) (maxFileSize f) (closed f), w).

(** [func (f *davWriteFile) Close].  [Put] reads from [f.buffer] itself,
    so what it leaves unread is what the buffer holds afterwards. *)
Definition Close (f : t) (w : world S) : option error * t * world S :=
  if closed f then (None, f, w)
  else
    let '(id, w) := generateID w in
    let item :=
      mkItem id (name f) (detectContentType (name f) (buffer f)) 0%Z
             "auto" (now w) (token f) in
    let '(r, st) := Put id (buffer f) item (store w) in
    (put_err r,
     mk (name f) (token f) (unread r) (maxFileSize f) true,
     set_store st w).

(** [func (f *davWriteFile) Stat]. *)
Definition Stat (f : t) (w : world S) : davFileInfo.t :=
  davFileInfo.mk (name f) (len (buffer f)) 420 (now w) false.
End Methods.
End davWriteFile.

(** [webdav.File], as the three implementations of the adapter. *)
Inductive File : Type :=
| DirFile (d : davDir.t)
| ReadFile (f : davFile.t)
| WriteFile (f : davWriteFile.t).

(** [type WebDAVHandler struct] and the [webdav.FileSystem] methods.  Its
    [storage] is the [store] of the world; the owner token the request
    context carries is the argument [token]. *)
Module WebDAVHandler.
Record t : Type := mk {
  maxFileSize : Z
}.

(** [func cleanPath]. *)
Definition cleanPath (name : string) : string :=
  strings_TrimSuffix (strings_TrimPrefix name "/") "/".

Definition is_root (name : string) : bool :=
  String.eqb name "" || String.eqb name "/".

(** The name an item is listed under. *)
Definition display_name (item : Item) : string :=
  if String.eqb (Filename item) "" then ID item else Filename item.

(** The loop of [findByFilename]. *)
Fixpoint first_named (name : string) (items : list Item) : option Item :=
  match items with
  | [] => None
  | item :: items =>
      if String.eqb (display_name item) name then Some item
      else first_named name items
  end.

Section Methods.
Context {S : Type} `{Storage S} `{MimeDB}.

(** [func (w *WebDAVHandler) findByFilename]. *)
Definition findByFilename (token name : string) (w : world S)
  : (error + Item) * world S :=
  match List token (store w) with
  | (inl err, st) => (inl err, set_store st w)
  | (inr items, st) =>
      match first_named name items with
      | Some item => (inr item, set_store st w)
      | None => (inl ErrNotExist, set_store st w)
      end
  end.

(** [func (w *WebDAVHandler) Mkdir] and [Rename]. *)
Definition Mkdir (token name : string) (perm : Z) (w : world S)
  : option error * world S := (Some ErrPermission, w).

Definition Rename (token oldName newName : string) (w : world S)
  : option error * world S := (Some ErrPermission, w).

(** [func (w *WebDAVHandler) RemoveAll]. *)
Definition RemoveAll (token name : string) (w : world S)
  : option error * world S :=
  let name := cleanPath name in
  if is_root name then (Some ErrPermission, w)
  else
    match findByFilename token name w with
    | (inl err, w) => (Some err, w)
    | (inr item, w) =>
        if negb (String.eqb (OwnerToken item) token) then (Some ErrPermission, w)
        else
          let '(err, st) := Delete (ID item) (store w) in
          (err, set_store st w)
    end.

(** [func (w *WebDAVHandler) Stat]. *)
Definition Stat (token name : string) (w : world S)
  : (error + davFileInfo.t) * world S :=
  let name := cleanPath name in
  if is_root name
  then (inr (davFileInfo.mk "/" 0 (Z.lor ModeDir 493) (now w) true), w)
  else
    match findByFilename token name w with
    | (inl err, w) => (inl err, w)
    | (inr item, w) =>
        (inr (davFileInfo.mk (Filename item) (Size item) 420 (CreatedAt item) false), w)
    end.

(** [func (w *WebDAVHandler) openRootDir]. *)
Definition child_of (item : Item) : davFileInfo.t :=
  davFileInfo.mk (display_name item) (Size item) 420 (CreatedAt item) false.

Definition openRootDir (token : string) (w : world S) : (error + File) * world S :=
  match List token (store w) with
  | (inl err, st) => (inl err, set_store st w)
  | (inr items, st) =>
      (inr (DirFile (davDir.mk
              (davFileInfo.mk "/" 0 (Z.lor ModeDir 493) (now w) true)
              (map child_of items) 0)),
       set_store st w)
  end.

(** [func (w *WebDAVHandler) openFile].  The stream [Get] returns is read
    whole. *)
Definition openFile (token name : string) (w : world S) : (error + File) * world S :=
  match findByFilename token name w with
  | (inl err, w) => (inl err, w)
  | (inr item, w) =>
      match Get (ID item) (store w) with
      | (inl _, st) => (inl ErrNotExist, set_store st w)
      | (inr (data, _), st) =>
          (inr (ReadFile (davFile.mk
                  (davFileInfo.mk (Filename item) (Size item) 420 (CreatedAt item) false)
                  data 0)),
           set_store st w)
      end
  end.

(** [func (w *WebDAVHandler) createFile]. *)
Definition createFile (h : t) (token name : string) (w : world S)
  : (error + File) * world S :=
  (inr (WriteFile (davWriteFile.mk name token [] (maxFileSize h) false)), w).

(** [flag&os.O_CREATE != 0 || flag&os.O_WRONLY != 0 || flag&os.O_RDWR != 0]. *)
Definition write_intent (flag : Z) : bool :=
  negb (Z.land flag O_CREATE =? 0)%Z
  || negb (Z.land flag O_WRONLY =? 0)%Z
  || negb (Z.land flag O_RDWR =? 0)%Z.

(** [func (w *WebDAVHandler) OpenFile]. *)
Definition OpenFile (h : t) (token name : string) (flag perm : Z) (w : world S)
  : (error + File) * world S :=
  let name := cleanPath name in
  if is_root name then openRootDir token w
  else if write_intent flag then createFile h token name w
  else openFile token name w.
End Methods.
End WebDAVHandler.

(** ** A storage that records its calls

    [traced S] wraps a backend and logs every method call before passing it
    on; claims about which backend methods an adapter operation invokes are
    stated on the log. *)

Inductive call : Type :=
| CallPut (id : string) (content : list byte) (item : Item)
| CallGet (id : string)
| CallGetMeta (id : string)
| CallDelete (id : string)
| CallList (ownerToken : string).

Record traced (S : Type) : Type := mkTraced {
  inner : S;
  calls : list call
}.
Arguments mkTraced {S} _ _.
Arguments inner {S} _.
Arguments calls {S} _.

Definition log {S A} (c : call) (run : S -> A * S) (t : traced S) : A * traced S :=
  let '(r, st) := run (inner t) in
  (r, mkTraced st (calls t ++ [c])).

#[export] Instance traced_Storage {S} `{Storage S} : Storage (traced S) := {
  Put id content item := log (CallPut id content item) (Put id content item);
  Get id := log (CallGet id) (Get id);
  GetMeta id := log (CallGetMeta id) (GetMeta id);
  Delete id := log (CallDelete id) (Delete id);
  List ownerToken := log (CallList ownerToken) (List ownerToken)
}.

(** ** crypto/subtle *)

(** [subtle.ConstantTimeByteEq] on two [uint8]:
    [int((uint32(x^y) - 1) >> 31)]. *)
Definition subtle_ConstantTimeByteEq (x y : Z) : Z :=
  Z.shiftr ((Z.lxor x y - 1) mod 2 ^ 32) 31.

(** The loop of [subtle.ConstantTimeCompare]: [v |= x[i] ^ y[i]]. *)
Fixpoint or_of_xors (v : Z) (x y : list byte) : Z :=
  match x, y with
  | a :: x, b :: y =>
      or_of_xors (Z.lor v (Z.lxor (Z.of_N (Byte.to_N a)) (Z.of_N (Byte.to_N b)))) x y
  | _, _ => v
  end.

(** Equality of bytes is decidable. *)
#[global] Instance byte_eq_dec : EqDecision byte := Byte.byte_eq_dec.

(** [subtle.ConstantTimeCompare]. *)
Definition subtle_ConstantTimeCompare (x y : list byte) : Z :=
  if negb (len x =? len y)%Z then 0%Z
  else subtle_ConstantTimeByteEq (or_of_xors 0 x y) 0.

(** ** api: authentication and the delete endpoint *)

(** What the handlers read of a request, and what they answer: a status
    and the message given to [http.Error]; the headers of the answer are
    left out.  [Authorization] and [X_Share_Token] are [r.Header.Get] of
    those headers, empty when the header is absent; [BasicAuth] is
    [r.BasicAuth()], [None] when its [ok] is false. *)
Record Request : Type := mkRequest {
  Method : string;
  URL_Path : string;
  Authorization : string;
  X_Share_Token : string;
  BasicAuth : option (string * string)
}.

Record Response : Type := mkResponse {
  status : Z;
  message : string
}.

(** [http.Error] and [http.NotFound]. *)
Definition http_Error (msg : string) (code : Z) : Response := mkResponse code msg.
Definition http_NotFound : Response := http_Error "404 page not found" 404.

(** The loop of both [isValidToken] methods over the configured tokens. *)
Fixpoint token_in (tokens : list string) (token : string) : bool :=
  match tokens with
  | [] => false
  | t :: tokens =>
      if (subtle_ConstantTimeCompare (list_byte_of_string t) (list_byte_of_string token)
          =? 1)%Z
      then true
      else token_in tokens token
  end.

(** The [tokens] of a [WebDAVHandler], its [isValidToken] and the gate of
    its [ServeHTTP]: the request is answered with 401, or passed on to the
    WebDAV handler with the token in its context. *)
Module WebDAVAuth.
Definition isValidToken (tokens : list string) (token : string) : bool :=
  token_in tokens token.

Inductive served : Type :=
| Unauthorized (r : Response)
| Forwarded (token : string).

Definition ServeHTTP (tokens : list string) (r : Request) : served :=
  match BasicAuth r with
  | Some (_, token) =>
      if isValidToken tokens token then Forwarded token
      else Unauthorized (http_Error "Unauthorized" 401)
  | None => Unauthorized (http_Error "Unauthorized" 401)
  end.
End WebDAVAuth.

(** [type Handler struct] with the [Auth.Tokens] of its configuration. *)
Module Handler.
Record t : Type := mk {
  Auth_Tokens : list string;
  maxFileSize : Z
}.

(** [func (h *Handler) isValidToken]. *)
Definition isValidToken (h : t) (token : string) : bool :=
  if String.eqb token "" then false else token_in (Auth_Tokens h) token.

(** The token of a request, as the API handlers read it. *)
Definition request_token (r : Request) : string :=
  let token := Authorization r in
  let token := if String.eqb token "" then X_Share_Token r else token in
  strings_TrimPrefix token "Bearer ".

Section Methods.
Context {S : Type} `{Storage S}.

(** [func (h *Handler) handleDelete]; what it logs is left out. *)
Definition handleDelete (h : t) (r : Request) (st : S) : Response * S :=
  if negb (String.eqb (Method r) "DELETE")
  then (http_Error "Method not allowed" 405, st)
  else
    let token := request_token r in
    if negb (isValidToken h token) then (http_Error "Unauthorized" 401, st)
    else
      let id := strings_TrimPrefix (URL_Path r) "/api/delete/" in
      if String.eqb id "" then (http_Error "No ID provided" 400, st)
      else
        match GetMeta id st with
        | (inl _, st) => (http_NotFound, st)
        | (inr item, st) =>
            if negb (String.eqb (OwnerToken item) token)
            then (http_Error "Forbidden" 403, st)
            else
              match Delete id st with
              | (Some _, st) => (http_Error "Failed to delete" 500, st)
              | (None, st) => (mkResponse 204 "", st)
              end
        end.
End Methods.
End Handler.

(** ** render/render.go: escaping for a template literal *)

(** [strings.ReplaceAll(s, old, new)] for an [old] that is not empty, which
    is how the source calls it: the instances of [old] are replaced from the
    left, none overlapping another.  [skip] counts the characters of an
    instance still to pass over. *)
Fixpoint replace_skipping (skip : nat) (s old new : string) : string :=
  match s with
  | "" => ""
  | String c r =>
      match skip with
      | S k => replace_skipping k r old new
      | O =>
          if String.prefix old s
          then new +:+ replace_skipping (String.length old - 1) r old new
          else String c (replace_skipping 0 r old new)
      end
  end.

Definition strings_ReplaceAll (s old new : string) : string :=
  replace_skipping 0 s old new.

(** [func escapeForJSTemplateLiteral]. *)
Definition escapeForJSTemplateLiteral (s : string) : string :=
  let s := strings_ReplaceAll s "\" "\\" in
  let s := strings_ReplaceAll s "`" "\`" in
  strings_ReplaceAll s "${" "\${".

(** ** config/config.go and the choice of the backend *)

Module config.

(** [type StorageConfig struct]; [Type_] is its field [Type]. *)
Record StorageConfig : Type := mkStorageConfig {
  Type_ : string;
  Endpoint : string;
  Bucket : string;
  Region : string;
  AccessKeyID : string;
  SecretAccessKey : string;
  Path : string
}.

(** [type LimitsConfig struct]. *)
Record LimitsConfig : Type := mkLimitsConfig {
  MaxFileSize : string;
  RateLimit : string;
  StorageQuota : string
}.

(** [type AuthConfig struct]. *)
Record AuthConfig : Type := mkAuthConfig {
  Tokens : list string
}.

(** [type Config struct]. *)
Record Config : Type := mkConfig {
  Domain : string;
  BaseURL : string;
  ListenAddr : string;
  Storage : StorageConfig;
  Limits : LimitsConfig;
  Auth : AuthConfig
}.

(** [yaml.Unmarshal(data, &cfg)] into a zero [Config]; [None] is its
    error. *)
Class YAML : Type := {
  yaml_Unmarshal : list byte -> option Config
}.

(** [func defaultConfig]. *)
Definition defaultConfig : Config :=
  mkConfig "localhost" "http://localhost:8080" ":8080"
           (mkStorageConfig "filesystem" "" "" "" "" "" "./data")
           (mkLimitsConfig "0" "0" "0")
           (mkAuthConfig []).

(** [func (c *Config) applyDefaults], one assignment after the other. *)
Definition applyDefaults (c : Config) : Config :=
  let ListenAddr := if String.eqb (ListenAddr c) "" then ":8080" else ListenAddr c in
  let s := Storage c in
  let Type_ := if String.eqb (Type_ s) "" then "filesystem" else Type_ s in
  let Path :=
    if String.eqb Type_ "filesystem" && String.eqb (Path s) "" then "./data"
    else Path s in
  let l := Limits c in
  let MaxFileSize := if String.eqb (MaxFileSize l) "" then "0" else MaxFileSize l in
  mkConfig (Domain c) (BaseURL c) ListenAddr
           (mkStorageConfig Type_ (Endpoint s) (Bucket s) (Region s)
                            (AccessKeyID s) (SecretAccessKey s) Path)
           (mkLimitsConfig MaxFileSize (RateLimit l) (StorageQuota l))
           (Auth c).

(** [func Load], given what [os.ReadFile] of the configuration file returns:
    its bytes, or [None] for an error. *)
Definition Load `{YAML} (file : option (list byte)) : error + Config :=
  match file with
  | None => inr defaultConfig
  | Some data =>
      match yaml_Unmarshal data with
      | None => inl (wrapError "failed to parse config" ErrMarshal)
      | Some cfg => inr (applyDefaults cfg)
      end
  end.

End config.

(** [func New] of storage.go: the constructor it calls, or its error. *)
Inductive backend_choice : Type :=
| CallNewFilesystem (basePath : string)
| CallNewS3 (cfg : config.StorageConfig).

Definition storage_New (cfg : config.StorageConfig) : error + backend_choice :=
  if String.eqb (config.Type_ cfg) "filesystem" || String.eqb (config.Type_ cfg) ""
  then inr (CallNewFilesystem (config.Path cfg))
  else if String.eqb (config.Type_ cfg) "s3" then inr (CallNewS3 cfg)
  else inl (errorString ("unknown storage type: " +:+ config.Type_ cfg)).

(** ** Executable instances of the library contracts *)

Module Reference.

(** *** A codec for items

    Not JSON text: the fields of the item, numbered by [encode] and written
    bit by bit.  It refuses the times [time.Time.MarshalJSON] refuses. *)

Definition fields (it : Item) : string * string * string * Z * string * Z * string :=
  (ID it, Filename it, ContentType it, Size it, RenderMode it, CreatedAt it,
   OwnerToken it).

Definition of_fields (t : string * string * string * Z * string * Z * string) : Item :=
  let '(a, b, c, d, e, f, g) := t in mkItem a b c d e f g.

Lemma of_fields_fields it : of_fields (fields it) = it.
Proof. by destruct it. Qed.

Fixpoint pos_bytes (p : positive) : list byte :=
  match p with
  | xH => []
  | xO q => x00 :: pos_bytes q
  | xI q => x01 :: pos_bytes q
  end.

Fixpoint bytes_pos (bs : list byte) : option positive :=
  match bs with
  | [] => Some xH
  | b :: bs =>
      match bytes_pos bs with
      | None => None
      | Some q =>
          match b with
          | x00 => Some (xO q)
          | x01 => Some (xI q)
          | _ => None
          end
      end
  end.

Lemma bytes_pos_bytes p : bytes_pos (pos_bytes p) = Some p.
Proof. induction p as [q IH | q IH |]; simpl; by rewrite ?IH. Qed.

(** 0000-01-01T00:00:00Z and 10000-01-01T00:00:00Z in Unix nanoseconds. *)
Definition year_0 : Z := (-62167219200 * 10 ^ 9)%Z.
Definition year_10000 : Z := (253402300800 * 10 ^ 9)%Z.

Definition marshal (it : Item) : option (list byte) :=
  if ((year_0 <=? CreatedAt it) && (CreatedAt it <? year_10000))%Z
  then Some (pos_bytes (encode (fields (json_item it))))
  else None.

Definition unmarshal (bs : list byte) : option Item :=
  match bytes_pos bs with
  | None => None
  | Some p => of_fields <$> decode p
  end.

Lemma unmarshal_marshal it b :
  marshal it = Some b -> unmarshal b = Some (json_item it).
Proof.
  unfold marshal, unmarshal. case_match; [|done]. intros [= <-].
  rewrite bytes_pos_bytes, decode_encode. done.
Qed.

#[export] Instance json : JSON := {
  json_Marshal := marshal;
  json_Unmarshal := unmarshal;
  json_roundtrip := unmarshal_marshal
}.

(** *** A sort *)

#[export] Instance not_less_dec {A} (less : A -> A -> bool) a b :
  Decision (not_less less a b).
Proof. unfold not_less. apply _. Defined.

#[export] Instance sort : SortSlice := {
  sort_Slice A less l := merge_sort (not_less less) l;
  sort_Slice_perm A less l := merge_sort_Permutation (not_less less) l;
  sort_Slice_sorted A less l HT Htot := StronglySorted_merge_sort (not_less less) l
}.

(** *** A MIME table, a sniffer that knows one type, and a [ToLower] that
    lowers the letters [A] to [Z] and no other *)

#[export] Instance mimedb : MimeDB := {
  mime_TypeByExtension ext :=
    default "" (assoc ext [ (".txt", "text/plain; charset=utf-8");
                            (".html", "text/html; charset=utf-8");
                            (".json", "application/json");
                            (".png", "image/png") ]);
  http_DetectContentType _ := "application/octet-stream";
  strings_ToLower := ToLower_ASCII;
  strings_ToLower_ASCII s _ := eq_refl
}.

End Reference.

(** ** Vocabulary of the statements *)

(** The outcome the schedule holds for the next call. *)
Definition upcoming (sc : list outcome) : outcome := hd Succeeds sc.

(** A directory or bucket after a removal of [k] with outcome [o]. *)
Definition removed_if (o : outcome) (k : string) (m : gmap string (list byte))
  : gmap string (list byte) :=
  match o with
  | Succeeds => delete k m
  | Fails _ => m
  end.

(** The item [Close] builds for a handle in a world. *)
Definition item_of (f : davWriteFile.t) `{MimeDB} {S} (w : world S) : Item :=
  mkItem (fst (generateID w)) (davWriteFile.name f)
         (detectContentType (davWriteFile.name f) (davWriteFile.buffer f))
         0 "auto" (now w) (davWriteFile.token f).

(** A handle as [createFile] returns it. *)
Definition fresh_handle (h : WebDAVHandler.t) (token name : string) : davWriteFile.t :=
  davWriteFile.mk name token [] (WebDAVHandler.maxFileSize h) false.

(** The same directory contents. *)
Definition same_files (d d' : Filesystem.disk) : Prop :=
  Filesystem.files d' = Filesystem.files d /\ Filesystem.meta d' = Filesystem.meta d.

(** A disk and a bucket that hold the same blobs and the same records. *)
Definition same_content (d : Filesystem.disk) (s : S3Storage.store) : Prop :=
  forall id,
    Filesystem.files d !! id = S3Storage.bucket s !! S3Storage.fileKey id
    /\ Filesystem.meta d !! (id +:+ ".json") = S3Storage.bucket s !! S3Storage.metaKey id.

(** Every record is stored under its own [ID], as the handlers store it. *)
Definition fs_keyed_by_ID `{JSON} (d : Filesystem.disk) : Prop :=
  forall id item, Filesystem.stored d id item -> ID item = id.

Definition s3_keyed_by_ID `{JSON} (s : S3Storage.store) : Prop :=
  forall id item, S3Storage.stored s id item -> ID item = id.

(** Every record has its blob. *)
Definition fs_blobs_present `{JSON} (d : Filesystem.disk) : Prop :=
  forall id item, Filesystem.stored d id item -> is_Some (Filesystem.files d !! id).

Definition s3_blobs_present `{JSON} (s : S3Storage.store) : Prop :=
  forall id item,
    S3Storage.stored s id item -> is_Some (S3Storage.bucket s !! S3Storage.fileKey id).

(** A digit of lower-case hexadecimal. *)
Definition is_lower_hex (c : ascii) : bool :=
  let n := nat_of_ascii c in
  ((48 <=? n) && (n <=? 57) || (97 <=? n) && (n <=? 102))%nat.

(** The characters of a string. *)
Fixpoint chars (s : string) : list ascii :=
  match s with
  | "" => []
  | String c r => c :: chars r
  end.

(** An id that names a directory entry: it is not empty, not [.] and not
    [..], holds neither a separator nor a NUL and, with [.json] after it,
    is no longer than the 255 bytes a file name may have.  For such an id
    [filepath.Join(dir, id)] is the entry [id] of [dir].  For any other id
    [Join] cleans the path, which then leads to another entry, to a
    directory or out of the base directory, or the system refuses the name:
    the filesystem backend is modelled for the ids that name an entry, and
    what is stated of the paths of an arbitrary id carries this
    condition. *)
Definition entry_name (id : string) : bool :=
  negb (String.eqb id "") && negb (String.eqb id ".") && negb (String.eqb id "..")
  && forallb (fun c => negb (Ascii.eqb c "/") && negb (Ascii.eqb c Ascii.zero))
             (chars id)
  && (String.length id <=? 250)%nat.

(** Reading a directory handle page by page until [EOF], as a client of
    [Readdir] does; [None] is a panic, or more pages than [fuel]. *)
Fixpoint Readdir_until_EOF (fuel : nat) (d : davDir.t) (count : Z)
  : option (list davFileInfo.t * davDir.t) :=
  match fuel with
  | O => None
  | S fuel =>
      match davDir.Readdir d count with
      | None => None
      | Some ((page, Some _), d) => Some (page, d)
      | Some ((page, None), d) =>
          match Readdir_until_EOF fuel d count with
          | None => None
          | Some (rest, d) => Some (page ++ rest, d)
          end
      end
  end.

(** What JavaScript reads between the backticks of a template literal,
    its template value: the text, with [\\], [\`] and [\$] standing for
    the character after the backslash, and with the line ends CR LF and CR
    read as LF.  [None] when the literal ends or a substitution begins
    before the end of [s], or on an escape other than these three.  The
    characters are those of the source text as JavaScript receives it; how
    the page that holds the literal is decoded is not part of it. *)
Fixpoint template_text (s : string) : option string :=
  match s with
  | "" => Some ""
  | String c r =>
      if Ascii.eqb c "\" then
        match r with
        | String e r' =>
            if Ascii.eqb e "\" || Ascii.eqb e "`" || Ascii.eqb e "$"
            then String e <$> template_text r'
            else None
        | "" => None
        end
      else if Ascii.eqb c "`" then None
      else if Ascii.eqb c "$" then
        match r with
        | String e _ =>
            if Ascii.eqb e "{" then None else String c <$> template_text r
        | "" => Some (String c "")
        end
      else if Ascii.eqb c "013" then
        match r with
        | String e r' =>
            if Ascii.eqb e "010" then String "010" <$> template_text r'
            else String "010" <$> template_text r
        | "" => Some (String "010" "")
        end
      else String c <$> template_text r
  end.

(** A text with its line ends read the same way: CR LF and CR as LF. *)
Fixpoint line_ends_as_LF (s : string) : string :=
  match s with
  | "" => ""
  | String c r =>
      if Ascii.eqb c "013" then
        match r with
        | String e r' =>
            if Ascii.eqb e "010" then String "010" (line_ends_as_LF r')
            else String "010" (line_ends_as_LF r)
        | "" => String "010" ""
        end
      else String c (line_ends_as_LF r)
  end.

(** The same escaping in one pass over the string. *)
Fixpoint escape_in_one_pass (s : string) : string :=
  match s with
  | "" => ""
  | String c r =>
      if Ascii.eqb c "\" then String "\" (String "\" (escape_in_one_pass r))
      else if Ascii.eqb c "`" then String "\" (String "`" (escape_in_one_pass r))
      else if Ascii.eqb c "$" then
        match r with
        | String e _ =>
            if Ascii.eqb e "{"
            then String "\" (String "$" (escape_in_one_pass r))
            else String "$" (escape_in_one_pass r)
        | "" => String "$" ""
        end
      else String c (escape_in_one_pass r)
  end.

(** [io.Copy(f, body)] into a write handle, as the WebDAV handler does for
    a PUT: [Write] is called with one chunk of the body after the other,
    however the body is cut, until one is refused; the count is the number
    of bytes written. *)
Fixpoint io_Copy_to_handle {S} (f : davWriteFile.t) (chunks : list (list byte))
    (w : world S) : (Z * option error) * davWriteFile.t * world S :=
  match chunks with
  | [] => ((0%Z, None), f, w)
  | p :: chunks =>
      match davWriteFile.Write f p w with
      | ((n, Some err), f, w) => ((n, Some err), f, w)
      | ((n, None), f, w) =>
          let '((m, err), f, w) := io_Copy_to_handle f chunks w in
          ((n + m)%Z, err, f, w)
      end
  end.

(** ** Concrete inputs *)

(** The scenario of the specification: [Put] of [b"hello"] as [a.txt] under
    the id [ab12], on an empty medium without faults. *)
Module Scenario.
Definition hello : list byte := [x68; x65; x6c; x6c; x6f].
Definition a_txt : Item :=
  mkItem "ab12" "a.txt" "text/plain" 0 "auto" 1700000000000000000 "alice".
Definition disk0 : Filesystem.disk := Filesystem.mkDisk ∅ ∅ [].
Definition bucket0 : S3Storage.store := S3Storage.mkStore ∅ [].
Definition disk1 : Filesystem.disk :=
  snd (Filesystem.Put (H := Reference.json) "ab12" hello a_txt disk0).
Definition bucket1 : S3Storage.store :=
  snd (S3Storage.Put (H := Reference.json) "ab12" hello a_txt bucket0).

(** Twelve bytes for the random source to deliver. *)
Definition twelve_bytes : list byte :=
  [xab; x12; xcd; x34; xef; x56; x01; x78; x23; x9a; x45; xbc].

(** The two backends, and each with its calls recorded, over the reference
    codec and sort. *)
Definition fs_backend : Storage Filesystem.disk :=
  @Filesystem_Storage Reference.json Reference.sort.
Definition s3_backend : Storage S3Storage.store :=
  @S3Storage_Storage Reference.json.
Definition traced_fs : Storage (traced Filesystem.disk) :=
  @traced_Storage _ fs_backend.
Definition traced_s3 : Storage (traced S3Storage.store) :=
  @traced_Storage _ s3_backend.
End Scenario.



(** A directory handle over three children. *)
Definition three_children : list davFileInfo.t :=
  [ davFileInfo.mk "a.txt" 5 420 3 false;
    davFileInfo.mk "b.txt" 7 420 2 false;
    davFileInfo.mk "c.txt" 9 420 1 false ].

Definition dir_at (p : Z) : davDir.t :=
  davDir.mk (davFileInfo.mk "/" 0 (Z.lor ModeDir 493) 0 true) three_children p.

(** A write handle capped at four bytes that holds three, in a world whose
    store records its calls. *)
Definition capped_handle : davWriteFile.t :=
  davWriteFile.mk "a.txt" "alice" [x68; x65; x6c] 4 false.

Definition traced_world : world (traced Filesystem.disk) :=
  mkWorld (mkTraced Scenario.disk0 []) [] 1700000000000000000.

(** Two uploads of one owner under the same file name, the older one under
    the smaller id, on each backend. *)
Module TwoUploads.
Definition older : Item :=
  mkItem "0a0a0a0a0a0a0a0a0a0a0a0a" "notes.txt" "text/plain" 0 "auto" 1700000000000000000 "alice".
Definition newer : Item :=
  mkItem "ffffffffffffffffffffffff" "notes.txt" "text/plain" 0 "auto" 1700000600000000000 "alice".
Definition v1 : list byte := [x76; x31].
Definition v2 : list byte := [x76; x32; x21].

Definition bucket : S3Storage.store :=
  snd (S3Storage.Put (H := Reference.json) (ID newer) v2 newer
         (snd (S3Storage.Put (H := Reference.json) (ID older) v1 older Scenario.bucket0))).

Definition disk : Filesystem.disk :=
  snd (Filesystem.Put (H := Reference.json) (ID newer) v2 newer
         (snd (Filesystem.Put (H := Reference.json) (ID older) v1 older Scenario.disk0))).

Definition s3_world : world S3Storage.store :=
  mkWorld bucket Scenario.twelve_bytes 1700001000000000000.
Definition fs_world : world Filesystem.disk :=
  mkWorld disk Scenario.twelve_bytes 1700001000000000000.

(** A third upload of the same name, through a write handle. *)
Definition v3 : list byte := [x76; x33].
Definition third : davWriteFile.t := davWriteFile.mk "notes.txt" "alice" v3 0 false.
End TwoUploads.

(** Worlds for an upload: empty stores, twelve random bytes, a clock. *)
Definition fs_upload_world : world Filesystem.disk :=
  mkWorld Scenario.disk0 Scenario.twelve_bytes 1700000000000000000.

Definition s3_upload_world : world S3Storage.store :=
  mkWorld Scenario.bucket0 Scenario.twelve_bytes 1700000000000000000.

Definition traced_upload_world : world (traced Filesystem.disk) :=
  mkWorld (mkTraced Scenario.disk0 []) Scenario.twelve_bytes 1700000000000000000.

Definition empty_txt : davWriteFile.t :=
  fresh_handle (WebDAVHandler.mk 0) "alice" "empty.txt".

(** Bob's upload, stored under the id the random source will yield again. *)
Module Collision.
Definition id : string := "ab12cd34ef560178239a45bc".
Definition bobs : Item :=
  mkItem id "report.txt" "text/plain" 0 "auto" 1700000000000000000 "bob".
Definition disk : Filesystem.disk :=
  snd (Filesystem.Put (H := Reference.json) id TwoUploads.v1 bobs Scenario.disk0).
Definition w : world Filesystem.disk :=
  mkWorld disk Scenario.twelve_bytes 1700001000000000000.
Definition after : world Filesystem.disk :=
  snd (davWriteFile.Close (H := Scenario.fs_backend) (H0 := Reference.mimedb)
         TwoUploads.third w).
End Collision.

(** A world whose store records its calls and whose next call fails. *)
Definition failing_traced_world : world (traced Filesystem.disk) :=
  mkWorld (mkTraced (Filesystem.mkDisk ∅ ∅ [Fails 0]) [])
          Scenario.twelve_bytes 1700001000000000000.

(** The two uploads on a disk whose second system call fails. *)
Definition flaky_disk : Filesystem.disk :=
  Filesystem.mkDisk (Filesystem.files TwoUploads.disk) (Filesystem.meta TwoUploads.disk)
                    [Succeeds; Fails 0].

(** A disk and a bucket that hold a record which does not decode. *)
Definition garbled_disk : Filesystem.disk :=
  Filesystem.mkDisk ∅ {[ "zz.json" := [x7b] ]} [].

Definition garbled_bucket : S3Storage.store :=
  S3Storage.mkStore {[ "meta/zz.json" := [x7b] ]} [].

(** The API handler with two tokens, and Alice's request to delete an id. *)
Definition api_handler : Handler.t := Handler.mk ["alice"; "bob"] 0.

Definition alice_deletes (id : string) : Request :=
  mkRequest "DELETE" ("/api/delete/" +:+ id) "Bearer alice" "" None.

(** A configuration file that is an empty document, which leaves the
    [Config] at its zero value; this reader knows no other document. *)
Definition zero_config : config.Config :=
  config.mkConfig "" "" "" (config.mkStorageConfig "" "" "" "" "" "" "")
                  (config.mkLimitsConfig "" "" "") (config.mkAuthConfig []).

Definition empty_document_yaml : config.YAML :=
  {| config.yaml_Unmarshal data :=
       match data with [] => Some zero_config | _ => None end |}.

(** A file name that is not valid UTF-8: a lone byte 0xFF before [.txt]. *)
Definition latin_name : string := String (ascii_of_nat 0xFF) ".txt".

(** * Facts about the model *)

(** ** Integers, slices, strings, sorted lists *)

(** Valid UTF-8 is read back from JSON as it is. *)
Lemma json_string_from_valid k s :
  valid_from k s = true -> json_string_from k s = s.
Proof.
  revert k. induction s as [|c r IH]; intros k; [done|].
  cbn [valid_from json_string_from]. destruct k as [|k].
  - destruct (utf8_width (String c r)) as [|w]; [done|].
    intros Hv. f_equal. by apply IH.
  - intros Hv. f_equal. by apply IH.
Qed.

Lemma json_string_valid s : utf8_ValidString s = true -> json_string s = s.
Proof. apply json_string_from_valid. Qed.

Lemma json_item_valid it : utf8_item it = true -> json_item it = it.
Proof.
  unfold utf8_item, json_item. destruct it as [a b c d e f g]; simpl.
  rewrite !andb_true_iff. intros [[[[Ha Hb] Hc] He] Hg].
  by rewrite !json_string_valid.
Qed.

(** A string of ASCII characters is valid UTF-8. *)
Lemma valid_from_ASCII s : isASCII s = true -> valid_from 0 s = true.
Proof.
  induction s as [|c r IH]; [done|].
  cbn [isASCII valid_from]. rewrite andb_true_iff. intros [Hc Hr].
  unfold utf8_width, byte_at. cbn [String.get fmap option_fmap option_map].
  apply Nat.ltb_lt in Hc.
  destruct (Nat.leb_spec (nat_of_ascii c) 127); [by apply IH | lia].
Qed.

Lemma json_string_ASCII s : isASCII s = true -> json_string s = s.
Proof. intros Ha. by apply json_string_valid, valid_from_ASCII. Qed.

Lemma wrap_id z : (min_int <= z <= max_int)%Z -> wrap z = z.
Proof.
  unfold min_int, max_int, wrap. intros Hz.
  rewrite Z.mod_small; lia.
Qed.

Lemma len_nonneg {A} (l : list A) : (0 <= len l)%Z.
Proof. unfold len. lia. Qed.

Lemma slice_take_drop {A} (x : list A) (lo k : Z) :
  (0 <= lo)%Z -> (0 <= k)%Z -> (lo + k <= len x)%Z ->
  slice x lo (lo + k) = Some (take (Z.to_nat k) (drop (Z.to_nat lo) x)).
Proof.
  intros Hlo Hk Hhi. unfold slice.
  replace (lo + k - lo)%Z with k by lia.
  destruct (Z.leb_spec 0 lo); [|lia].
  destruct (Z.leb_spec lo (lo + k)); [|lia].
  destruct (Z.leb_spec (lo + k) (len x)); [done|lia].
Qed.

Lemma str_length_app (a b : string) :
  String.length (a +:+ b) = String.length a + String.length b.
Proof. induction a as [|c a IH]; simpl; [done | by rewrite IH]. Qed.

Lemma str_take_app (a b : string) : str_take (String.length a) (a +:+ b) = a.
Proof. induction a as [|c a IH]; simpl; [by destruct b | by rewrite IH]. Qed.

Lemma app_inj_l (a b c : string) : a +:+ c = b +:+ c -> a = b.
Proof.
  intros Hc.
  assert (Hlen : String.length a = String.length b).
  { apply (f_equal String.length) in Hc. rewrite !str_length_app in Hc. lia. }
  rewrite <- (str_take_app a c), <- (str_take_app b c). by rewrite Hc, Hlen.
Qed.

(** What [filepath.Ext] returns is a suffix of its argument. *)
Lemma ext_scan_suffix s e :
  ext_scan s = Some e -> e <> "" -> exists pre, s = pre +:+ e.
Proof.
  revert e. induction s as [|c s IH]; intros e; simpl; [done|].
  destruct (ext_scan s) as [e'|] eqn:Hs.
  - intros [= <-] Hne. destruct (IH e' eq_refl Hne) as [pre ->].
    by exists (String c pre).
  - destruct (Ascii.eqb c "/"%char); [by intros [= <-]|].
    destruct (Ascii.eqb c "."%char); [|done].
    intros [= <-] _. by exists "".
Qed.

(** An entry with extension [.json] is the metadata path of the id that
    [List] cuts out of it. *)
Lemma Ext_json_name name :
  filepath_Ext name = ".json" ->
  name = str_take (String.length name - 5) name +:+ ".json".
Proof.
  unfold filepath_Ext. destruct (ext_scan name) as [e|] eqn:Hs; simpl; [|done].
  intros ->. destruct (ext_scan_suffix _ _ Hs) as [pre ->]; [done|].
  rewrite str_length_app. simpl.
  replace (String.length pre + 5 - 5) with (String.length pre) by lia.
  by rewrite str_take_app.
Qed.

Lemma Ext_of_json id : filepath_Ext (id +:+ ".json") = ".json".
Proof.
  unfold filepath_Ext.
  assert (ext_scan (id +:+ ".json") = Some ".json") as ->; [|done].
  induction id as [|c id IH]; simpl; [done | by rewrite IH].
Qed.

Lemma length_str_drop n s : String.length (str_drop n s) = String.length s - n.
Proof.
  revert s. induction n as [|n IH]; intros [|c s]; simpl; auto with lia.
Qed.

Lemma length_str_take n s : String.length (str_take n s) = min n (String.length s).
Proof.
  revert s. induction n as [|n IH]; intros [|c s]; simpl; auto.
Qed.

Lemma length_hex bs : String.length (hex_EncodeToString bs) = 2 * length bs.
Proof. induction bs as [|b bs IH]; simpl; [done | rewrite IH; lia]. Qed.

(** [generateID] yields 24 characters, whatever the random source does. *)
Lemma generateID_length {S} (w : world S) : String.length (fst (generateID w)) = 24.
Proof.
  unfold generateID, rand_Read. simpl. rewrite length_hex.
  rewrite length_app, length_take, length_replicate. lia.
Qed.

(** An id of hexadecimal digits is ASCII, so JSON reads it back as it is. *)
Lemma hex_digit_ASCII n : (nat_of_ascii (hex_digit n) <? 128)%nat = true.
Proof. do 16 (destruct n as [|n]; [done|]). done. Qed.

Lemma hex_EncodeToString_ASCII bs : isASCII (hex_EncodeToString bs) = true.
Proof.
  induction bs as [|b bs IH]; [done|].
  cbn [hex_EncodeToString isASCII]. by rewrite !hex_digit_ASCII, IH.
Qed.

Lemma generateID_json {S} (w : world S) :
  json_string (fst (generateID w)) = fst (generateID w).
Proof. apply json_string_ASCII, hex_EncodeToString_ASCII. Qed.

Lemma StronglySorted_weaken {A} (R1 R2 : relation A) (l : list A) :
  (forall x y, R1 x y -> R2 x y) -> StronglySorted R1 l -> StronglySorted R2 l.
Proof.
  intros HR. induction 1 as [|a l Hs IH Ha]; constructor.
  - exact IH.
  - revert Ha. apply Forall_impl. intros x. apply HR.
Qed.

Lemma elem_of_keys (m : gmap string (list byte)) k :
  k ∈ (map_to_list m).*1 <-> is_Some (m !! k).
Proof.
  rewrite list_elem_of_fmap. split.
  - intros [[k' v] [-> Hkv]]. apply elem_of_map_to_list in Hkv. by exists v.
  - intros [v Hv]. exists (k, v). split; [done|]. by apply elem_of_map_to_list.
Qed.

(** [CreatedAt.After] orders items newest first. *)
Lemma newer_transitive : Transitive (not_less Filesystem.newer).
Proof. intros a b c. unfold not_less, Filesystem.newer. rewrite !Z.ltb_ge. lia. Qed.

Lemma newer_total : Total (not_less Filesystem.newer).
Proof. intros a b. unfold not_less, Filesystem.newer. rewrite !Z.ltb_ge. lia. Qed.

Lemma not_less_newer a b :
  not_less Filesystem.newer a b <-> (CreatedAt b <= CreatedAt a)%Z.
Proof. unfold not_less, Filesystem.newer. by rewrite Z.ltb_ge. Qed.

(** Symbolic execution of the calls of one operation: split on the next
    scheduled outcome, on the codec and on the lookups met. *)
Ltac run_medium :=
  repeat match goal with
    | |- context [match ?sc with [] => _ | _ :: _ => _ end] =>
        is_var sc; destruct sc as [|[|?] ?]; simpl
    | |- context [json_Marshal ?x] => destruct (json_Marshal x) eqn:?; simpl
    | |- context [json_Unmarshal ?x] => destruct (json_Unmarshal x) eqn:?; simpl
    | |- context [match ?m !! ?k with _ => _ end] => destruct (m !! k) eqn:?; simpl
    end.

Ltac use_lookups :=
  repeat match goal with
    | Hf : ?m !! ?k = Some _ |- context [?m !! ?k] => rewrite Hf
    end.

(** ** The filesystem backend *)

Section FilesystemFacts.
Context `{JSON}.
Import Filesystem.

Lemma calm_later n d : calm d -> calm (later n d).
Proof. unfold calm, later; simpl. apply Forall_drop. Qed.

Lemma later_later n m d : later n (later m d) = later (m + n) d.
Proof. unfold later; simpl. by rewrite drop_drop. Qed.

Lemma next_calm d : calm d -> next d = (Succeeds, later 1 d).
Proof.
  destruct d as [fs ms [|o sc]]; unfold calm, next, later; simpl; [done|].
  inversion 1; by subst.
Qed.

Lemma os_Open_calm p d :
  calm d ->
  os_Open p d
  = (match read_at p d with Some _ => inr p | None => inl ErrNotExist end,
     later 1 d).
Proof.
  intros Hc. unfold os_Open. rewrite (next_calm d Hc).
  by destruct p; simpl; case_match.
Qed.

Lemma os_Remove_calm p d :
  calm d ->
  os_Remove p d
  = (match read_at p d with Some _ => None | None => Some ErrNotExist end,
     later 1 (remove_at p d)).
Proof.
  intros Hc. unfold os_Remove. rewrite (next_calm d Hc).
  destruct p as [n|n]; unfold later; simpl; case_match; simpl.
  all: first [done | by rewrite delete_id].
Qed.

Lemma calm_remove_at p d : calm d -> calm (remove_at p d).
Proof. by destruct p. Qed.

Lemma GetMeta_calm id d :
  calm d -> exists n, GetMeta id d = (lookup_meta d id, later n d).
Proof.
  intros Hc. unfold GetMeta, lookup_meta.
  rewrite (os_Open_calm _ _ Hc). simpl.
  destruct (meta d !! (id +:+ ".json")) as [bs|] eqn:Hm; simpl; [|by exists 1].
  unfold json_Decode.
  rewrite (next_calm _ (calm_later 1 d Hc)). simpl. rewrite Hm.
  exists 2. rewrite later_later. by destruct (json_Unmarshal bs).
Qed.

(** [Get] on a disk without faults. *)
Lemma Get_calm id d :
  calm d ->
  exists n, Get id d
    = (match lookup_meta d id with
       | inl err => inl err
       | inr item =>
           match files d !! id with
           | Some content => inr (content, item)
           | None => inl (errorString "file not found")
           end
       end, later n d).
Proof.
  intros Hc. unfold Get.
  destruct (GetMeta_calm id d Hc) as [n ->].
  destruct (lookup_meta d id) as [err|item]; [by exists n|].
  rewrite (os_Open_calm _ _ (calm_later n d Hc)). simpl.
  exists (n + 1). rewrite later_later.
  destruct (files d !! id) as [content|] eqn:Hf; simpl; [|done].
  by rewrite Hf.
Qed.

(** Whatever the schedule, what [Get] returns is what the disk holds. *)
Lemma Get_ok id d content item d' :
  Get id d = (inr (content, item), d') ->
  files d !! id = Some content /\ stored d id item.
Proof.
  destruct d as [fs ms sc].
  unfold Get, GetMeta, os_Open, json_Decode, next, stored.
  simpl. run_medium; intros Heq; simplify_eq.
  all: use_lookups; simpl; eauto.
Qed.

(** A [Put] that reports no error has made four calls and left the blob
    and the marshalled item, with its size set, on the disk. *)
Lemma Put_ok id content item d r d1 :
  Put id content item d = (r, d1) -> put_err r = None ->
  exists bs,
    json_Marshal (set_Size (len content) item) = Some bs
    /\ d1 = mkDisk (<[id := content]> (files d))
                   (<[id +:+ ".json" := bs]> (meta d))
                   (drop 4 (sched d))
    /\ r = mkPutResult [] (set_Size (len content) item) None.
Proof.
  destruct d as [fs ms sc].
  unfold Put, os_Create, io_Copy, json_Encode, os_Remove, next.
  simpl. run_medium; intros [= <- <-]; simpl; try discriminate; intros _.
  all: rewrite ?lookup_insert_eq; simpl; rewrite ?insert_insert_eq; eauto.
Qed.

(** Without faults, [Put] of an item the codec accepts succeeds. *)
Lemma Put_calm id content item d bs :
  calm d -> json_Marshal (set_Size (len content) item) = Some bs ->
  Put id content item d
  = (mkPutResult [] (set_Size (len content) item) None,
     mkDisk (<[id := content]> (files d))
            (<[id +:+ ".json" := bs]> (meta d))
            (drop 4 (sched d))).
Proof.
  destruct d as [fs ms sc]. unfold calm; simpl. intros Hc Hbs.
  unfold Put, os_Create, io_Copy, json_Encode, os_Remove, next.
  simpl. run_medium.
  all: repeat match goal with
         | Hf : Forall _ (_ :: _) |- _ => apply list.Forall_cons in Hf as [? Hf]
         end; simplify_eq.
  all: rewrite ?lookup_insert_eq; simpl; rewrite ?insert_insert_eq; done.
Qed.

(** Whatever happens, [Put] touches no entry but those of its id. *)
Lemma Put_frame id content item d r d1 :
  Put id content item d = (r, d1) ->
  (forall k, k <> id -> files d1 !! k = files d !! k)
  /\ (forall k, k <> id +:+ ".json" -> meta d1 !! k = meta d !! k).
Proof.
  destruct d as [fs ms sc].
  unfold Put, os_Create, io_Copy, json_Encode, os_Remove, next.
  simpl. run_medium; intros [= <- <-]; simpl.
  all: split; intros k Hk.
  all: rewrite ?lookup_delete_ne, ?lookup_insert_ne by done; done.
Qed.

Lemma Put_calm_after id content item d r d1 :
  Put id content item d = (r, d1) -> calm d -> calm d1.
Proof.
  destruct d as [fs ms sc]. unfold calm; simpl.
  unfold Put, os_Create, io_Copy, json_Encode, os_Remove, next.
  simpl. run_medium; intros [= <- <-]; simpl; intros Hc.
  all: repeat match goal with
         | Hf : Forall _ (_ :: _) |- _ => apply list.Forall_cons in Hf as [? Hf]
         end; done.
Qed.

(** What [Get] returns after a [Put] that succeeded, when nothing fails. *)
Lemma Put_Get_calm id content item d r d1 :
  Put id content item d = (r, d1) -> put_err r = None -> calm d1 ->
  fst (Get id d1) = inr (content, json_item (set_Size (len content) item)).
Proof.
  intros HPut Hok Hc.
  destruct (Put_ok _ _ _ _ _ _ HPut Hok) as (bs & Hbs & -> & _).
  apply json_roundtrip in Hbs.
  destruct (Get_calm id _ Hc) as [n ->]. simpl.
  unfold lookup_meta. simpl. by rewrite !lookup_insert_eq, Hbs.
Qed.

(** The records after a [Put] that succeeded: the one put, and those of
    the other ids as they were. *)
Lemma stored_after_Put id content item d r d1 :
  Put id content item d = (r, d1) -> put_err r = None ->
  forall k it,
    stored d1 k it
    <-> (k = id /\ it = json_item (set_Size (len content) item))
        \/ (k <> id /\ stored d k it).
Proof.
  intros HPut Hok k it.
  destruct (Put_ok _ _ _ _ _ _ HPut Hok) as (bs & Hbs & -> & _).
  apply json_roundtrip in Hbs. unfold stored. simpl.
  destruct (decide (k = id)) as [->|Hk].
  - rewrite lookup_insert_eq. split.
    + intros (bs' & [= <-] & Hu). left. split; [done | congruence].
    + intros [[_ ->]|[Hne _]]; [eauto | done].
  - rewrite lookup_insert_ne by (intros Heq; by apply app_inj_l in Heq).
    split; [by right | by intros [[-> _]|[_ Hst]]].
Qed.

Lemma Delete_nil id d : fst (Delete id d) = None.
Proof.
  unfold Delete.
  destruct (os_Remove (filePath id) d) as [? d1].
  by destruct (os_Remove (metaPath id) d1).
Qed.

Lemma Delete_calm id d :
  calm d ->
  Delete id d
  = (None, mkDisk (delete id (files d))
                  (delete (id +:+ ".json") (meta d))
                  (drop 2 (sched d))).
Proof.
  intros Hc. unfold Delete.
  rewrite (os_Remove_calm _ _ Hc).
  rewrite os_Remove_calm by by apply calm_later, calm_remove_at.
  unfold later; simpl. by rewrite drop_drop.
Qed.

Lemma List_loop_calm entries owner items d :
  calm d ->
  exists n, List_loop entries owner items d
            = (items ++ listed owner d entries, later n d).
Proof.
  revert items d. induction entries as [|name entries IH]; intros items d Hc.
  - exists 0. unfold listed, later; simpl. rewrite app_nil_r. by destruct d.
  - simpl. unfold listed; simpl. unfold record_at at 1.
    destruct (String.eqb_spec (filepath_Ext name) ".json") as [He|He]; simpl.
    + destruct (GetMeta_calm (str_take (String.length name - 5) name) d Hc)
        as [n ->].
      unfold lookup_meta. rewrite <- (Ext_json_name name He).
      destruct (IH items (later n d) (calm_later n d Hc)) as [m IHskip].
      destruct (meta d !! name) as [bs|]; simpl;
        [|exists (n + m); by rewrite IHskip, later_later].
      destruct (json_Unmarshal bs) as [item|]; simpl;
        [|exists (n + m); by rewrite IHskip, later_later].
      destruct (String.eqb_spec (OwnerToken item) owner) as [Ho|Ho].
      * destruct (IH (items ++ [item]) (later n d) (calm_later n d Hc))
          as [m' ->].
        exists (n + m'). rewrite later_later, filter_cons_True by done.
        by rewrite <- app_assoc.
      * exists (n + m). rewrite IHskip, later_later.
        by rewrite filter_cons_False.
    + apply IH, Hc.
Qed.

Context `{SortSlice}.

(** On a disk without faults [List] succeeds; what it returns is exactly
    the stored items of the owner, newest first. *)
Lemma List_calm owner d :
  calm d ->
  exists items n,
    List owner d = (inr items, later n d)
    /\ (forall item, item ∈ items <->
          exists id, stored d id item /\ OwnerToken item = owner)
    /\ StronglySorted (fun a b => (CreatedAt b <= CreatedAt a)%Z) items.
Proof.
  intros Hc. unfold List, os_ReadDir_meta.
  rewrite (next_calm d Hc). simpl.
  match goal with
  | |- context [List_loop ?entries _ _ _] =>
      destruct (List_loop_calm entries owner [] (later 1 d) (calm_later 1 d Hc))
        as [n Hloop]
  end.
  eexists _, (1 + n). rewrite Hloop, later_later. split_and!; [done| |].
  - intros item. rewrite sort_Slice_perm. simpl. unfold listed.
    rewrite list_elem_of_filter, list_elem_of_omap. unfold owned_by, stored, record_at.
    split.
    + intros [Ho (name & Hin & Hrec)].
      destruct (String.eqb_spec (filepath_Ext name) ".json") as [He|]; [|done].
      exists (str_take (String.length name - 5) name).
      rewrite <- (Ext_json_name name He).
      simpl in Hrec. destruct (meta d !! name) as [bs|]; [|done]. eauto.
    + intros (id & (bs & Hm & Hu) & Ho). split; [done|].
      exists (id +:+ ".json"). split.
      * rewrite merge_sort_Permutation. apply elem_of_keys. by exists bs.
      * rewrite Ext_of_json. simpl. by rewrite Hm.
  - eapply StronglySorted_weaken;
      [|apply sort_Slice_sorted; [apply newer_transitive | apply newer_total]].
    intros a b. by rewrite not_less_newer.
Qed.

End FilesystemFacts.

(** ** The object-store backend *)

Section S3Facts.
Context `{JSON}.
Import S3Storage.

(** The blob key of one id is never the metadata key of another. *)
Lemma fileKey_metaKey id id' : fileKey id <> metaKey id'.
Proof. done. Qed.

Lemma metaKey_inj id id' : metaKey id = metaKey id' -> id = id'.
Proof. unfold metaKey. intros [= Heq]. by apply (app_inj_l id id' ".json"). Qed.

Lemma prefix_metaKey id : Is_true (String.prefix "meta/" (metaKey id)).
Proof. by destruct id. Qed.

Lemma length_metaKey id : String.length (metaKey id) = 10 + String.length id.
Proof. unfold metaKey. rewrite !str_length_app. simpl. lia. Qed.

(** [List] recovers the id from a metadata key. *)
Lemma id_of_metaKey id :
  str_take (String.length (metaKey id) - 5 - 5) (str_drop 5 (metaKey id)) = id.
Proof.
  rewrite length_metaKey.
  replace (10 + String.length id - 5 - 5) with (String.length id) by lia.
  change (str_drop 5 (metaKey id)) with (id +:+ ".json").
  apply str_take_app.
Qed.

Lemma s3_calm_later n s : calm s -> calm (later n s).
Proof. unfold calm, later; simpl. apply Forall_drop. Qed.

Lemma s3_later_later n m s : later n (later m s) = later (m + n) s.
Proof. unfold later; simpl. by rewrite drop_drop. Qed.

Lemma s3_next_calm s : calm s -> next s = (Succeeds, later 1 s).
Proof.
  destruct s as [b [|o sc]]; unfold calm, next, later; simpl; [done|].
  inversion 1; by subst.
Qed.

Lemma GetObject_calm key s :
  calm s ->
  GetObject key s
  = (match bucket s !! key with Some body => inr body | None => inl NoSuchKey end,
     later 1 s).
Proof.
  intros Hc. unfold GetObject. rewrite (s3_next_calm s Hc). simpl.
  by case_match.
Qed.

Lemma s3_GetMeta_calm id s :
  calm s -> GetMeta id s = (lookup_meta s id, later 1 s).
Proof.
  intros Hc. unfold GetMeta, lookup_meta. rewrite (GetObject_calm _ _ Hc).
  destruct (bucket s !! metaKey id) as [body|]; [|done].
  by destruct (json_Unmarshal body).
Qed.


(** [Get] on a store without faults. *)
Lemma s3_Get_calm id s :
  calm s ->
  exists n, Get id s
    = (match lookup_meta s id with
       | inl err => inl err
       | inr item =>
           match bucket s !! fileKey id with
           | Some content => inr (content, item)
           | None => inl (wrapError "failed to get file" NoSuchKey)
           end
       end, later n s).
Proof.
  intros Hc. unfold Get. rewrite (s3_GetMeta_calm id s Hc).
  destruct (lookup_meta s id) as [err|item]; [by exists 1|].
  rewrite (GetObject_calm _ _ (s3_calm_later 1 s Hc)). simpl.
  exists 2. rewrite s3_later_later.
  by destruct (bucket s !! fileKey id).
Qed.

(** Whatever the schedule, what [Get] returns is what the bucket holds. *)
Lemma s3_Get_ok id s content item s' :
  Get id s = (inr (content, item), s') ->
  bucket s !! fileKey id = Some content /\ stored s id item.
Proof.
  destruct s as [b sc].
  unfold Get, GetMeta, GetObject, next, stored.
  simpl. run_medium; intros Heq; simplify_eq.
  all: use_lookups; simpl; eauto.
Qed.

(** A [Put] that reports no error has made three calls and left the blob
    and the marshalled item, with its size set, in the bucket. *)
Lemma s3_Put_ok id content item s r s1 :
  Put id content item s = (r, s1) -> put_err r = None ->
  exists bs,
    json_Marshal (set_Size (len content) item) = Some bs
    /\ s1 = mkStore (<[metaKey id := bs]> (<[fileKey id := content]> (bucket s)))
                    (drop 3 (sched s))
    /\ r = mkPutResult [] (set_Size (len content) item) None.
Proof.
  destruct s as [b sc].
  unfold Put, io_Copy, PutObject, DeleteObject, next.
  simpl. run_medium; intros [= <- <-]; simpl; try discriminate; intros _.
  all: eauto.
Qed.

(** Without faults, [Put] of an item the codec accepts succeeds. *)
Lemma s3_Put_calm id content item s bs :
  calm s -> json_Marshal (set_Size (len content) item) = Some bs ->
  Put id content item s
  = (mkPutResult [] (set_Size (len content) item) None,
     mkStore (<[metaKey id := bs]> (<[fileKey id := content]> (bucket s)))
             (drop 3 (sched s))).
Proof.
  destruct s as [b sc]. unfold calm; simpl. intros Hc Hbs.
  unfold Put, io_Copy, PutObject, DeleteObject, next.
  simpl. run_medium.
  all: repeat match goal with
         | Hf : Forall _ (_ :: _) |- _ => apply list.Forall_cons in Hf as [? Hf]
         end; simplify_eq.
  all: done.
Qed.

(** Whatever happens, [Put] touches no key but the two of its id. *)
Lemma s3_Put_frame id content item s r s1 :
  Put id content item s = (r, s1) ->
  forall k, k <> fileKey id -> k <> metaKey id -> bucket s1 !! k = bucket s !! k.
Proof.
  destruct s as [b sc].
  unfold Put, io_Copy, PutObject, DeleteObject, next.
  simpl. run_medium; intros [= <- <-]; simpl.
  all: intros k Hf Hm.
  all: rewrite ?lookup_delete_ne, ?lookup_insert_ne by done; done.
Qed.

Lemma s3_Put_calm_after id content item s r s1 :
  Put id content item s = (r, s1) -> calm s -> calm s1.
Proof.
  destruct s as [b sc]. unfold calm; simpl.
  unfold Put, io_Copy, PutObject, DeleteObject, next.
  simpl. run_medium; intros [= <- <-]; simpl; intros Hc.
  all: repeat match goal with
         | Hf : Forall _ (_ :: _) |- _ => apply list.Forall_cons in Hf as [? Hf]
         end; repeat constructor; done.
Qed.

(** What [Get] returns after a [Put] that succeeded, when nothing fails. *)
Lemma s3_Put_Get_calm id content item s r s1 :
  Put id content item s = (r, s1) -> put_err r = None -> calm s1 ->
  fst (Get id s1) = inr (content, json_item (set_Size (len content) item)).
Proof.
  intros HPut Hok Hc.
  destruct (s3_Put_ok _ _ _ _ _ _ HPut Hok) as (bs & Hbs & -> & _).
  apply json_roundtrip in Hbs.
  destruct (s3_Get_calm id _ Hc) as [n ->]. simpl.
  unfold lookup_meta. simpl.
  rewrite lookup_insert_eq, Hbs.
  rewrite lookup_insert_ne by (symmetry; apply fileKey_metaKey).
  by rewrite lookup_insert_eq.
Qed.

(** The records after a [Put] that succeeded: the one put, and those of
    the other ids as they were. *)
Lemma s3_stored_after_Put id content item s r s1 :
  Put id content item s = (r, s1) -> put_err r = None ->
  forall k it,
    stored s1 k it
    <-> (k = id /\ it = json_item (set_Size (len content) item))
        \/ (k <> id /\ stored s k it).
Proof.
  intros HPut Hok k it.
  destruct (s3_Put_ok _ _ _ _ _ _ HPut Hok) as (bs & Hbs & -> & _).
  apply json_roundtrip in Hbs. unfold stored. simpl.
  destruct (decide (k = id)) as [->|Hk].
  - rewrite lookup_insert_eq. split.
    + intros (bs' & [= <-] & Hu). left. split; [done | congruence].
    + intros [[_ ->]|[Hne _]]; [eauto | done].
  - rewrite lookup_insert_ne by (intros Heq; by apply metaKey_inj in Heq).
    rewrite lookup_insert_ne by apply fileKey_metaKey.
    split; [by right | by intros [[-> _]|[_ Hst]]].
Qed.

Lemma s3_Delete_nil id s : fst (Delete id s) = None.
Proof.
  unfold Delete.
  destruct (DeleteObject (fileKey id) s) as [? s1].
  by destruct (DeleteObject (metaKey id) s1).
Qed.

Lemma s3_Delete_calm id s :
  calm s ->
  Delete id s
  = (None, mkStore (delete (metaKey id) (delete (fileKey id) (bucket s)))
                   (drop 2 (sched s))).
Proof.
  intros Hc. unfold Delete, DeleteObject.
  rewrite (s3_next_calm s Hc). simpl.
  rewrite (s3_next_calm (mkStore _ _)); [|by apply (s3_calm_later 1 s)].
  unfold later; simpl. by rewrite drop_drop.
Qed.

(** The pages of the paginator are the listing, cut up. *)
Lemma concat_pages_of fuel keys : concat (pages_of fuel keys) = keys.
Proof.
  revert keys. induction fuel as [|fuel IH]; intros keys; simpl.
  - apply app_nil_r.
  - case_match; simpl; [apply app_nil_r|].
    by rewrite IH, take_drop.
Qed.

Lemma listed_app owner s keys1 keys2 :
  listed owner s (keys1 ++ keys2) = listed owner s keys1 ++ listed owner s keys2.
Proof. unfold listed. by rewrite omap_app, list.filter_app. Qed.

Lemma List_page_calm contents owner items s :
  calm s ->
  exists n, List_page contents owner items s
            = (items ++ listed owner s contents, later n s).
Proof.
  revert items s. induction contents as [|key contents IH]; intros items s Hc.
  - exists 0. unfold listed, later; simpl. rewrite app_nil_r. by destruct s.
  - simpl. unfold listed; simpl. unfold record_at at 1.
    destruct (String.length key <=? 10)%nat; [apply IH, Hc|].
    rewrite (s3_GetMeta_calm _ s Hc). unfold lookup_meta.
    destruct (IH items (later 1 s) (s3_calm_later 1 s Hc)) as [m IHskip].
    destruct (bucket s !! metaKey _) as [body|]; simpl;
      [|exists (1 + m); by rewrite IHskip, s3_later_later].
    destruct (json_Unmarshal body) as [item|]; simpl;
      [|exists (1 + m); by rewrite IHskip, s3_later_later].
    destruct (String.eqb_spec (OwnerToken item) owner) as [Ho|Ho].
    + destruct (IH (items ++ [item]) (later 1 s) (s3_calm_later 1 s Hc))
        as [m' ->].
      exists (1 + m'). rewrite s3_later_later, filter_cons_True by done.
      by rewrite <- app_assoc.
    + exists (1 + m). rewrite IHskip, s3_later_later.
      by rewrite filter_cons_False.
Qed.

Lemma List_pages_calm pages owner items s :
  calm s ->
  exists n, List_pages pages owner items s
            = (inr (items ++ listed owner s (concat pages)), later n s).
Proof.
  revert items s. induction pages as [|page pages IH]; intros items s Hc.
  - exists 0. unfold listed, later; simpl. rewrite app_nil_r. by destruct s.
  - simpl. rewrite (s3_next_calm s Hc).
    destruct (List_page_calm page owner items (later 1 s) (s3_calm_later 1 s Hc))
      as [n ->].
    rewrite s3_later_later.
    destruct (IH (items ++ listed owner (later 1 s) page) (later (1 + n) s)
                (s3_calm_later _ s Hc)) as [m ->].
    exists (1 + n + m). rewrite s3_later_later, listed_app.
    by rewrite <- app_assoc.
Qed.

(** On a store without faults [List] succeeds and returns the records of
    the owner in the order of their keys. *)
Lemma s3_List_calm owner s :
  calm s ->
  exists n, List owner s
            = (inr (listed owner s (keys_with_prefix "meta/" s)), later n s).
Proof.
  intros Hc. unfold List, paginate.
  destruct (List_pages_calm (pages_of (length (keys_with_prefix "meta/" s))
                                      (keys_with_prefix "meta/" s))
              owner [] s Hc) as [n ->].
  exists n. by rewrite concat_pages_of.
Qed.

(** The records it returns are the stored items of the owner, those stored
    under the empty id apart. *)
Lemma s3_List_stored owner s item id :
  id <> "" -> stored s id item -> OwnerToken item = owner ->
  item ∈ listed owner s (keys_with_prefix "meta/" s).
Proof.
  intros Hid (body & Hm & Hu) Ho. unfold listed.
  rewrite list_elem_of_filter, list_elem_of_omap. split; [done|].
  exists (metaKey id). split.
  - unfold keys_with_prefix. rewrite list_elem_of_filter.
    split; [apply prefix_metaKey|].
    rewrite merge_sort_Permutation. apply elem_of_keys. by exists body.
  - unfold record_at. rewrite id_of_metaKey, length_metaKey.
    destruct id; [done|]. simpl. by rewrite Hm.
Qed.

Lemma s3_List_mem owner s item :
  item ∈ listed owner s (keys_with_prefix "meta/" s)
  <-> OwnerToken item = owner /\ exists id, id <> "" /\ stored s id item.
Proof.
  split.
  - unfold listed. rewrite list_elem_of_filter, list_elem_of_omap.
    intros [Ho (key & _ & Hrec)]. split; [done|].
    unfold record_at in Hrec.
    destruct (Nat.leb_spec (String.length key) 10) as [|Hlen]; [done|].
    destruct (bucket s !! metaKey _) as [body|] eqn:Hb; [|done].
    eexists. split; [|by exists body].
    intros Hempty. apply (f_equal String.length) in Hempty.
    rewrite length_str_take, length_str_drop in Hempty. simpl in Hempty. lia.
  - intros [Ho (id & Hid & Hst)]. by apply (s3_List_stored owner s item id).
Qed.

End S3Facts.

(** * The properties of the specification *)

(** ** Storage: round trip, deletion, errors, rollback *)

(** C1.  On either backend, after a [Put] of [content] under [id] that
    reported no error, a [Get] of [id] can only return [content] itself,
    byte for byte, together with an item whose [Size] is the length of
    [content], whatever size the item put carried; its other fields are
    those of the item put, as [encoding/json] reads them back, which is
    unchanged when its strings are valid UTF-8.  [Get] does return them
    when no call fails, and [Put] has assigned the same size to the item
    of its caller. *)
Theorem Put_then_Get_roundtrip `{JSON} :
  (forall id content item d r d1,
      Filesystem.Put id content item d = (r, d1) -> put_err r = None ->
      let put :=
        mkItem (ID item) (Filename item) (ContentType item) (len content)
               (RenderMode item) (CreatedAt item) (OwnerToken item) in
      (forall bytes got d2,
          Filesystem.Get id d1 = (inr (bytes, got), d2) ->
          bytes = content /\ Size got = len content /\ got = json_item put)
      /\ (Filesystem.calm d1 ->
          fst (Filesystem.Get id d1) = inr (content, json_item put))
      /\ item_after r = put
      /\ (utf8_item item = true -> json_item put = put))
  /\ (forall id content item s r s1,
      S3Storage.Put id content item s = (r, s1) -> put_err r = None ->
      let put :=
        mkItem (ID item) (Filename item) (ContentType item) (len content)
               (RenderMode item) (CreatedAt item) (OwnerToken item) in
      (forall bytes got s2,
          S3Storage.Get id s1 = (inr (bytes, got), s2) ->
          bytes = content /\ Size got = len content /\ got = json_item put)
      /\ (S3Storage.calm s1 ->
          fst (S3Storage.Get id s1) = inr (content, json_item put))
      /\ item_after r = put
      /\ (utf8_item item = true -> json_item put = put)).
Proof.
  split.
  - intros id content item d r d1 HPut Hok put.
    destruct (Put_ok _ _ _ _ _ _ HPut Hok) as (bs & Hbs & -> & ->).
    apply json_roundtrip in Hbs. split_and!.
    + intros content' item' d2 HGet.
      apply Get_ok in HGet as [Hf (bs' & Hm & Hu)]. simpl in Hf, Hm.
      rewrite lookup_insert_eq in Hf, Hm.
      assert (item' = json_item put) as ->
        by (subst put; unfold set_Size in Hbs; congruence).
      split_and!; [congruence | done | done].
    + intros Hc. destruct (Get_calm id _ Hc) as [n ->]. simpl.
      unfold Filesystem.lookup_meta. simpl.
      by rewrite !lookup_insert_eq, Hbs.
    + done.
    + intros Hv. apply json_item_valid. exact Hv.
  - intros id content item s r s1 HPut Hok put.
    destruct (s3_Put_ok _ _ _ _ _ _ HPut Hok) as (bs & Hbs & -> & ->).
    apply json_roundtrip in Hbs.
    assert (Hfile : forall m : gmap string (list byte),
               <[S3Storage.metaKey id := bs]> (<[S3Storage.fileKey id := content]> m)
                 !! S3Storage.fileKey id = Some content).
    { intros m. rewrite lookup_insert_ne by (symmetry; apply fileKey_metaKey).
      apply lookup_insert_eq. }
    split_and!.
    + intros content' item' s2 HGet.
      apply s3_Get_ok in HGet as [Hf (bs' & Hm & Hu)]. simpl in Hf, Hm.
      rewrite Hfile in Hf. rewrite lookup_insert_eq in Hm.
      assert (item' = json_item put) as ->
        by (subst put; unfold set_Size in Hbs; congruence).
      split_and!; [congruence | done | done].
    + intros Hc. destruct (s3_Get_calm id _ Hc) as [n ->]. simpl.
      unfold S3Storage.lookup_meta. simpl.
      by rewrite Hfile, lookup_insert_eq, Hbs.
    + done.
    + intros Hv. apply json_item_valid. exact Hv.
Qed.

Lemma Put_then_Get_roundtrip_witness :
  fst (Filesystem.Get (H := Reference.json) "ab12" Scenario.disk1)
  = inr (Scenario.hello,
         json_item (mkItem "ab12" "a.txt" "text/plain" (len Scenario.hello) "auto"
                           1700000000000000000 "alice"))
  /\ fst (S3Storage.Get (H := Reference.json) "ab12" Scenario.bucket1)
     = inr (Scenario.hello,
            json_item (mkItem "ab12" "a.txt" "text/plain" (len Scenario.hello) "auto"
                              1700000000000000000 "alice")).
Proof.
  split.
  - apply (proj1 (proj2 (proj1 (Put_then_Get_roundtrip (H := Reference.json))
             "ab12" Scenario.hello Scenario.a_txt Scenario.disk0
             (fst (Filesystem.Put (H := Reference.json)
                     "ab12" Scenario.hello Scenario.a_txt Scenario.disk0))
             Scenario.disk1 eq_refl eq_refl))).
    vm_compute. constructor.
  - apply (proj1 (proj2 (proj2 (Put_then_Get_roundtrip (H := Reference.json))
             "ab12" Scenario.hello Scenario.a_txt Scenario.bucket0
             (fst (S3Storage.Put (H := Reference.json)
                     "ab12" Scenario.hello Scenario.a_txt Scenario.bucket0))
             Scenario.bucket1 eq_refl eq_refl))).
    vm_compute. constructor.
Defined.





(** C4.  A [Put] whose blob write succeeds and whose metadata write fails
    returns the error of the metadata write and has tried to remove the blob:
    the blob is gone when that removal succeeds, and the error returned is
    the same when it does not.  On the filesystem the metadata write is the
    creation of the metadata file and the encoding of the item into it; on
    the object store it is the upload of the metadata object. *)
Theorem Put_rolls_back_blob `{JSON} :
  (forall id content item fs ms k rest,
      Filesystem.Put id content item
        (Filesystem.mkDisk fs ms (Succeeds :: Succeeds :: Fails k :: rest))
      = (mkPutResult [] (set_Size (len content) item)
           (Some (wrapError "failed to create metadata file" IOFault)),
         Filesystem.mkDisk
           (removed_if (upcoming rest) id (<[id := content]> fs)) ms (tail rest)))
  /\ (forall id content item fs ms k rest bs,
      json_Marshal (set_Size (len content) item) = Some bs ->
      Filesystem.Put id content item
        (Filesystem.mkDisk fs ms (Succeeds :: Succeeds :: Succeeds :: Fails k :: rest))
      = (mkPutResult [] (set_Size (len content) item)
           (Some (wrapError "failed to write metadata" IOFault)),
         Filesystem.mkDisk
           (removed_if (upcoming rest) id (<[id := content]> fs))
           (removed_if (upcoming (tail rest)) (id +:+ ".json")
              (<[id +:+ ".json" := take k bs]> ms))
           (tail (tail rest))))
  /\ (forall id content item fs ms rest,
      json_Marshal (set_Size (len content) item) = None ->
      Filesystem.Put id content item
        (Filesystem.mkDisk fs ms (Succeeds :: Succeeds :: Succeeds :: rest))
      = (mkPutResult [] (set_Size (len content) item)
           (Some (wrapError "failed to write metadata" ErrMarshal)),
         Filesystem.mkDisk
           (removed_if (upcoming rest) id (<[id := content]> fs))
           (removed_if (upcoming (tail rest)) (id +:+ ".json")
              (<[id +:+ ".json" := []]> ms))
           (tail (tail rest))))
  /\ (forall id content item b k rest bs,
      json_Marshal (set_Size (len content) item) = Some bs ->
      S3Storage.Put id content item
        (S3Storage.mkStore b (Succeeds :: Succeeds :: Fails k :: rest))
      = (mkPutResult [] (set_Size (len content) item)
           (Some (wrapError "failed to upload metadata" IOFault)),
         S3Storage.mkStore
           (removed_if (upcoming rest) (S3Storage.fileKey id)
              (<[S3Storage.fileKey id := content]> b))
           (tail rest))).
Proof.
  split_and!.
  - intros id content item fs ms k rest.
    unfold Filesystem.Put, Filesystem.os_Create, Filesystem.io_Copy,
      Filesystem.os_Remove, Filesystem.append_at, Filesystem.next. simpl.
    rewrite lookup_insert_eq. simpl. rewrite insert_insert_eq.
    destruct rest as [|[|j] rest]; simpl; rewrite ?lookup_insert_eq.
    all: reflexivity.
  - intros id content item fs ms k rest bs Hbs.
    unfold Filesystem.Put, Filesystem.os_Create, Filesystem.io_Copy,
      Filesystem.json_Encode, Filesystem.os_Remove, Filesystem.append_at,
      Filesystem.next. simpl.
    rewrite Hbs. simpl. rewrite !lookup_insert_eq. simpl. rewrite !insert_insert_eq.
    destruct rest as [|[|j] [|[|j'] rest]];
      repeat (progress (simpl; rewrite ?lookup_insert_eq)).
    all: reflexivity.
  - intros id content item fs ms rest Hbs.
    unfold Filesystem.Put, Filesystem.os_Create, Filesystem.io_Copy,
      Filesystem.json_Encode, Filesystem.os_Remove, Filesystem.append_at,
      Filesystem.next. simpl.
    rewrite Hbs. simpl. rewrite !lookup_insert_eq. simpl. rewrite !insert_insert_eq.
    destruct rest as [|[|j] [|[|j'] rest]];
      repeat (progress (simpl; rewrite ?lookup_insert_eq)).
    all: reflexivity.
  - intros id content item b k rest bs Hbs.
    unfold S3Storage.Put, S3Storage.io_Copy, S3Storage.PutObject,
      S3Storage.DeleteObject, S3Storage.next. simpl.
    rewrite Hbs. simpl.
    by destruct rest as [|[|j] rest].
Qed.

Lemma Put_rolls_back_blob_witness :
  (fst (Filesystem.Put (H := Reference.json) "ab12" Scenario.hello Scenario.a_txt
          (Filesystem.mkDisk ∅ ∅ [Succeeds; Succeeds; Succeeds; Fails 3; Fails 0])))
  = mkPutResult [] (set_Size 5 Scenario.a_txt)
      (Some (wrapError "failed to write metadata" IOFault))
  /\ (fst (S3Storage.Put (H := Reference.json) "ab12" Scenario.hello Scenario.a_txt
             (S3Storage.mkStore ∅ [Succeeds; Succeeds; Fails 0])))
     = mkPutResult [] (set_Size 5 Scenario.a_txt)
         (Some (wrapError "failed to upload metadata" IOFault)).
Proof.
  split.
  - refine (f_equal fst
      (proj1 (proj2 (Put_rolls_back_blob (H := Reference.json)))
         "ab12" Scenario.hello Scenario.a_txt ∅ ∅ 3 [Fails 0]
         (default [] (Reference.marshal (set_Size 5 Scenario.a_txt))) _)).
    vm_compute. reflexivity.
  - refine (f_equal fst
      (proj2 (proj2 (proj2 (Put_rolls_back_blob (H := Reference.json))))
         "ab12" Scenario.hello Scenario.a_txt ∅ 0 []
         (default [] (Reference.marshal (set_Size 5 Scenario.a_txt))) _)).
    vm_compute. reflexivity.
Defined.

(** The marshalling step of the object store's [Put] is not part of that
    rollback: when [json.Marshal] refuses the item, [Put] returns at once and
    the blob just uploaded stays. *)
Remark S3_marshal_failure_keeps_blob `{JSON} id content item b rest :
  json_Marshal (set_Size (len content) item) = None ->
  S3Storage.Put id content item (S3Storage.mkStore b (Succeeds :: Succeeds :: rest))
  = (mkPutResult [] (set_Size (len content) item)
       (Some (wrapError "failed to marshal metadata" ErrMarshal)),
     S3Storage.mkStore (<[S3Storage.fileKey id := content]> b) rest).
Proof.
  intros Hm.
  unfold S3Storage.Put, S3Storage.io_Copy, S3Storage.PutObject, S3Storage.next.
  simpl. by rewrite Hm.
Qed.

(** ** Directory and write handles *)

(** The position of a directory handle stays within its children: it
    starts at 0 and [Readdir] keeps it there, without a panic. *)
Lemma openRootDir_position {S} `{Storage S} token (w w' : world S) d :
  WebDAVHandler.openRootDir token w = (inr (DirFile d), w') -> davDir.pos d = 0%Z.
Proof.
  unfold WebDAVHandler.openRootDir.
  destruct (List token (store w)) as [[err|items] st]; [done|].
  by intros [= <- _].
Qed.

Lemma Readdir_position_in_range (d : davDir.t) (count : Z) :
  (0 <= davDir.pos d <= len (davDir.children d))%Z ->
  (len (davDir.children d) <= max_int)%Z ->
  exists r d',
    davDir.Readdir d count = Some (r, d')
    /\ davDir.children d' = davDir.children d
    /\ (davDir.pos d <= davDir.pos d' <= len (davDir.children d'))%Z.
Proof.
  intros Hpos Hlen. destruct d as [info c p]; simpl in *.
  unfold davDir.Readdir; simpl.
  assert (Hsub : int_sub (len c) p = (len c - p)%Z).
  { apply wrap_id. unfold min_int, max_int in *. lia. }
  rewrite Hsub.
  destruct (Z.leb_spec (len c) p).
  - destruct (count <=? 0)%Z; eexists _, _; (split; [done|]); simpl;
      (split; [done | lia]).
  - set (k := if ((count <=? 0) || (len c - p <? count))%Z then (len c - p)%Z else count).
    assert (Hk : (0 < k <= len c - p)%Z).
    { subst k. destruct (Z.leb_spec count 0); simpl; [lia|].
      destruct (Z.ltb_spec (len c - p) count); lia. }
    assert (Hadd : int_add p k = (p + k)%Z).
    { apply wrap_id. unfold min_int, max_int in *. lia. }
    rewrite Hadd, slice_take_drop by lia.
    eexists _, _. split; [done|]. simpl. split; [done | lia].
Qed.

(** C9.  For a directory handle with children [c] and position [p], where
    [0 <= p <= len c]: [Readdir] with [count <= 0] returns all of [c] from
    [p] on and moves to the end, and returns nothing, without error, when
    nothing remains; with [count > 0] it returns the next
    [min count (len c - p)] children and advances by as many, and reports
    [EOF] when nothing remains. *)
Theorem Readdir_paginates (d : davDir.t) (count : Z) :
  (0 <= davDir.pos d <= len (davDir.children d))%Z ->
  (len (davDir.children d) <= max_int)%Z ->
  let c := davDir.children d in
  let p := davDir.pos d in
  let remaining := (len c - p)%Z in
  ((count <= 0)%Z -> (0 < remaining)%Z ->
     davDir.Readdir d count
     = Some ((drop (Z.to_nat p) c, None), davDir.mk (davDir.info d) c (len c)))
  /\ ((count <= 0)%Z -> (remaining <= 0)%Z ->
     davDir.Readdir d count = Some (([], None), d))
  /\ ((0 < count)%Z -> (0 < remaining)%Z ->
     davDir.Readdir d count
     = Some ((take (Z.to_nat (Z.min count remaining)) (drop (Z.to_nat p) c), None),
             davDir.mk (davDir.info d) c (p + Z.min count remaining)))
  /\ ((0 < count)%Z -> (remaining <= 0)%Z ->
     davDir.Readdir d count = Some (([], Some EOF), d)).
Proof.
  intros Hpos Hlen c p remaining. subst c p remaining.
  destruct d as [info c p]; simpl in *.
  pose proof (len_nonneg c) as Hc.
  unfold davDir.Readdir; simpl.
  assert (Hsub : int_sub (len c) p = (len c - p)%Z).
  { apply wrap_id. unfold min_int, max_int in *. lia. }
  rewrite Hsub.
  split_and!; intros Hcount Hrem.
  - destruct (Z.leb_spec (len c) p); [lia|].
    destruct (Z.leb_spec count 0); [|lia]. simpl.
    assert (Hadd : int_add p (len c - p) = len c).
    { unfold int_add. replace (p + (len c - p))%Z with (len c) by lia.
      apply wrap_id. unfold min_int, max_int in *. lia. }
    rewrite Hadd.
    replace (len c) with (p + (len c - p))%Z at 1 by lia.
    rewrite slice_take_drop by lia.
    rewrite take_ge; [done|].
    rewrite length_drop. unfold len in *. lia.
  - destruct (Z.leb_spec (len c) p); [|lia].
    destruct (Z.leb_spec count 0); [done|lia].
  - destruct (Z.leb_spec (len c) p); [lia|].
    destruct (Z.leb_spec count 0); [lia|]. simpl.
    destruct (Z.ltb_spec (len c - p) count).
    + rewrite Z.min_r by lia.
      assert (Hadd : int_add p (len c - p) = (p + (len c - p))%Z).
      { apply wrap_id. unfold min_int, max_int in *. lia. }
      rewrite Hadd. by rewrite slice_take_drop by lia.
    + rewrite Z.min_l by lia.
      assert (Hadd : int_add p count = (p + count)%Z).
      { apply wrap_id. unfold min_int, max_int in *. lia. }
      rewrite Hadd. by rewrite slice_take_drop by lia.
  - destruct (Z.leb_spec (len c) p); [|lia].
    destruct (Z.leb_spec count 0); [lia|done].
Qed.

Lemma Readdir_paginates_witness :
  davDir.Readdir (dir_at 1) 5
  = Some ((take 2 (drop 1 three_children), None), dir_at 3)
  /\ davDir.Readdir (dir_at 3) 5 = Some (([], Some EOF), dir_at 3)
  /\ davDir.Readdir (dir_at 1) 0
     = Some ((drop 1 three_children, None), dir_at 3).
Proof.
  split_and!.
  - apply (proj1 (proj2 (proj2
      (Readdir_paginates (dir_at 1) 5 ltac:(vm_compute; split; discriminate)
                         ltac:(vm_compute; discriminate)))));
      vm_compute; reflexivity.
  - apply (proj2 (proj2 (proj2
      (Readdir_paginates (dir_at 3) 5 ltac:(vm_compute; split; discriminate)
                         ltac:(vm_compute; discriminate)))));
      [vm_compute; reflexivity | vm_compute; discriminate].
  - apply (proj1
      (Readdir_paginates (dir_at 1) 0 ltac:(vm_compute; split; discriminate)
                         ltac:(vm_compute; discriminate)));
      [vm_compute; discriminate | vm_compute; reflexivity].
Defined.

(** A [Write] on a handle with a cap above zero whose bytes would take
    the buffer past the cap returns the error and the count 0, and leaves
    the handle and the world as they were: the buffer keeps its bytes, none
    of the rejected ones, and no method of the storage is called, whatever
    the storage is.  The handle is left open. *)
Lemma Write_rejects_oversize {S}
    (f : davWriteFile.t) (p : list byte) (w : world S) :
  (0 < davWriteFile.maxFileSize f)%Z ->
  (len (davWriteFile.buffer f) + len p <= max_int)%Z ->
  (davWriteFile.maxFileSize f < len (davWriteFile.buffer f) + len p)%Z ->
  davWriteFile.Write f p w = ((0%Z, Some (errorString "file too large")), f, w).
Proof.
  intros Hcap Hfit Hover. unfold davWriteFile.Write, int_add.
  rewrite wrap_id.
  2:{ pose proof (len_nonneg (davWriteFile.buffer f)). pose proof (len_nonneg p).
      unfold min_int, max_int in *. lia. }
  destruct (Z.ltb_spec 0 (davWriteFile.maxFileSize f)); [|lia].
  destruct (Z.ltb_spec (davWriteFile.maxFileSize f)
              (len (davWriteFile.buffer f) + len p)); [done|lia].
Qed.

(** C3, on the failing input.  An upload of [hello] through a handler
    capped at four bytes, the body arriving as [hell] and [o].  The first
    [Write] is accepted; the second is refused with the count 0, puts
    nothing and leaves the buffer and the open handle as they were.  The
    [Close] that ends the upload then puts the four bytes buffered before:
    on either backend the store afterwards holds [hell] under the new id,
    as an item of size 4, and the [Close] reports no error.  When the body
    arrives in one piece, the one [Write] is refused and the [Close] puts
    the empty blob. *)
Theorem oversize_upload_commits_prefix :
  let h := WebDAVHandler.mk 4 in
  let flags := Z.lor O_RDWR (Z.lor O_CREATE O_TRUNC) in
  let f0 := davWriteFile.mk "a.txt" "alice" [] 4 false in
  let f1 := davWriteFile.mk "a.txt" "alice" [x68; x65; x6c; x6c] 4 false in
  let id := "ab12cd34ef560178239a45bc" in
  let item (size : Z) :=
    mkItem id "a.txt" "text/plain; charset=utf-8" size "auto" 1700000000000000000
           "alice" in
  WebDAVHandler.OpenFile (H := Scenario.traced_fs) h "alice" "/a.txt" flags 0
    traced_upload_world
  = (inr (WriteFile f0), traced_upload_world)
  /\ davWriteFile.Write f0 [x68; x65; x6c; x6c] traced_upload_world
     = ((4%Z, None), f1, traced_upload_world)
  /\ davWriteFile.Write f1 [x6f] traced_upload_world
     = ((0%Z, Some (errorString "file too large")), f1, traced_upload_world)
  /\ io_Copy_to_handle f0 [[x68; x65; x6c; x6c]; [x6f]] traced_upload_world
     = ((4%Z, Some (errorString "file too large")), f1, traced_upload_world)
  /\ (let after := davWriteFile.Close (H := Scenario.traced_fs) (H0 := Reference.mimedb)
                     f1 traced_upload_world in
      fst (fst after) = None
      /\ calls (store (snd after)) = [CallPut id [x68; x65; x6c; x6c] (item 0%Z)]
      /\ fst (Filesystem.Get (H := Reference.json) id (inner (store (snd after))))
         = inr ([x68; x65; x6c; x6c], item 4%Z))
  /\ (let after := davWriteFile.Close (H := Scenario.s3_backend) (H0 := Reference.mimedb)
                     f1 s3_upload_world in
      fst (fst after) = None
      /\ fst (S3Storage.Get (H := Reference.json) id (store (snd after)))
         = inr ([x68; x65; x6c; x6c], item 4%Z))
  /\ io_Copy_to_handle f0 [[x68; x65; x6c; x6c; x6f]] traced_upload_world
     = ((0%Z, Some (errorString "file too large")), f0, traced_upload_world)
  /\ (let after := davWriteFile.Close (H := Scenario.traced_fs) (H0 := Reference.mimedb)
                     f0 traced_upload_world in
      fst (fst after) = None
      /\ calls (store (snd after)) = [CallPut id [] (item 0%Z)]).
Proof. cbv zeta. split_and!; vm_compute; reflexivity. Qed.

(** ** Listing order and name resolution *)

(** C2, on the failing input.  The object-store [List] returns the two
    uploads in the order of their keys, the older one first, where the
    filesystem [List] returns the newer one first. *)
Theorem S3_List_returns_key_order :
  fst (S3Storage.List (H := Reference.json) "alice" TwoUploads.bucket)
  = inr [set_Size 2 TwoUploads.older; set_Size 3 TwoUploads.newer]
  /\ (CreatedAt TwoUploads.older < CreatedAt TwoUploads.newer)%Z
  /\ fst (Filesystem.List (H := Reference.json) (H0 := Reference.sort)
            "alice" TwoUploads.disk)
     = inr [set_Size 3 TwoUploads.newer; set_Size 2 TwoUploads.older].
Proof. split_and!; vm_compute; reflexivity. Qed.

(** The first item of the given name is the newest of that name when the
    list is newest first. *)
Lemma first_named_newest name items item :
  StronglySorted (fun a b => (CreatedAt b <= CreatedAt a)%Z) items ->
  WebDAVHandler.first_named name items = Some item ->
  item ∈ items
  /\ WebDAVHandler.display_name item = name
  /\ forall other, other ∈ items -> WebDAVHandler.display_name other = name ->
                   (CreatedAt other <= CreatedAt item)%Z.
Proof.
  induction 1 as [|a items Hs IH Ha]; simpl; [done|].
  destruct (String.eqb_spec (WebDAVHandler.display_name a) name) as [Hn|Hn].
  - intros [= <-]. split_and!; [apply elem_of_cons; by left | done |].
    intros other Hin _. apply elem_of_cons in Hin as [->|Hin]; [lia|].
    rewrite list.Forall_forall in Ha. by apply Ha.
  - intros Hfirst. destruct (IH Hfirst) as (Hin & Hname & Hnewest).
    split_and!; [apply elem_of_cons; by right | done |].
    intros other Hother Hnamed.
    apply elem_of_cons in Hother as [->|Hother]; [done | by apply Hnewest].
Qed.

Lemma first_named_None name items :
  WebDAVHandler.first_named name items = None ->
  forall other, other ∈ items -> WebDAVHandler.display_name other <> name.
Proof.
  induction items as [|a items IH]; simpl; intros Hnone other Hin.
  - by apply elem_of_nil in Hin.
  - destruct (String.eqb_spec (WebDAVHandler.display_name a) name) as [Hn|Hn]; [done|].
    apply elem_of_cons in Hin as [->|Hin]; [done | by apply IH].
Qed.

(** On the filesystem backend, without faults, [findByFilename] resolves a
    name to a stored item of the owner with that name than which no other
    such item is newer, and to [ErrNotExist] when there is none. *)
Lemma Filesystem_findByFilename_newest `{JSON} `{SortSlice}
    token name (w : world Filesystem.disk) :
  Filesystem.calm (store w) ->
  match fst (WebDAVHandler.findByFilename token name w) with
  | inr item =>
      (exists id, Filesystem.stored (store w) id item)
      /\ OwnerToken item = token
      /\ WebDAVHandler.display_name item = name
      /\ forall id other,
           Filesystem.stored (store w) id other -> OwnerToken other = token ->
           WebDAVHandler.display_name other = name ->
           (CreatedAt other <= CreatedAt item)%Z
  | inl err =>
      err = ErrNotExist
      /\ forall id other,
           Filesystem.stored (store w) id other -> OwnerToken other = token ->
           WebDAVHandler.display_name other <> name
  end.
Proof.
  intros Hc. unfold WebDAVHandler.findByFilename. simpl.
  destruct (List_calm token (store w) Hc) as (items & n & -> & Hin & Hsorted).
  destruct (WebDAVHandler.first_named name items) as [item|] eqn:Hfirst; simpl.
  - destruct (first_named_newest _ _ _ Hsorted Hfirst) as (Hi & Hname & Hnewest).
    apply Hin in Hi as (id & Hst & Ho). split_and!; eauto.
    intros id' other Hst' Ho' Hname'. apply Hnewest; [|done].
    apply Hin. eauto.
  - split; [done|]. intros id other Hst Ho.
    apply (first_named_None _ _ Hfirst). apply Hin. eauto.
Qed.

(** C5, on the failing input.  On the object store the name of the two
    uploads resolves to the older one, for [Stat] and for [OpenFile], where
    on the filesystem it resolves to the newer one. *)
Theorem S3_name_resolves_to_older :
  fst (WebDAVHandler.findByFilename (H := Scenario.s3_backend)
         "alice" "notes.txt" TwoUploads.s3_world)
  = inr (set_Size 2 TwoUploads.older)
  /\ fst (WebDAVHandler.Stat (H := Scenario.s3_backend)
            "alice" "/notes.txt" TwoUploads.s3_world)
     = inr (davFileInfo.mk "notes.txt" 2 420 (CreatedAt TwoUploads.older) false)
  /\ fst (WebDAVHandler.OpenFile (H := Scenario.s3_backend)
            (WebDAVHandler.mk 0) "alice" "/notes.txt" O_RDONLY 0 TwoUploads.s3_world)
     = inr (ReadFile (davFile.mk
              (davFileInfo.mk "notes.txt" 2 420 (CreatedAt TwoUploads.older) false)
              TwoUploads.v1 0))
  /\ (CreatedAt TwoUploads.older < CreatedAt TwoUploads.newer)%Z
  /\ fst (WebDAVHandler.findByFilename (H := Scenario.fs_backend)
            "alice" "notes.txt" TwoUploads.fs_world)
     = inr (set_Size 3 TwoUploads.newer).
Proof. split_and!; vm_compute; reflexivity. Qed.

(** ** Closing a write handle *)

Lemma Close_open {S} `{Storage S} `{MimeDB} (f : davWriteFile.t) (w : world S) :
  davWriteFile.closed f = false ->
  davWriteFile.Close f w
  = (let r := fst (Put (fst (generateID w)) (davWriteFile.buffer f) (item_of f w) (store w)) in
     (put_err r,
      davWriteFile.mk (davWriteFile.name f) (davWriteFile.token f) (unread r)
                      (davWriteFile.maxFileSize f) true,
      set_store (snd (Put (fst (generateID w)) (davWriteFile.buffer f) (item_of f w)
                        (store w)))
                (snd (generateID w)))).
Proof.
  intros Hopen. unfold davWriteFile.Close. rewrite Hopen.
  unfold item_of, generateID, rand_Read. simpl.
  by destruct (Put _ _ _ _).
Qed.

Lemma Close_closed {S} `{Storage S} `{MimeDB} (f : davWriteFile.t) (w : world S) :
  davWriteFile.closed f = true -> davWriteFile.Close f w = (None, f, w).
Proof. intros Hclosed. unfold davWriteFile.Close. by rewrite Hclosed. Qed.

(** The types of the [switch] of [detectContentType], by their keys. *)
Lemma assoc_extension_table k t :
  In (k, t)
     [ (".md", "text/markdown"); (".markdown", "text/markdown");
       (".ts", "text/typescript"); (".tsx", "text/tsx"); (".jsx", "text/jsx");
       (".yaml", "text/yaml"); (".yml", "text/yaml"); (".toml", "text/toml");
       (".go", "text/x-go"); (".rs", "text/x-rust"); (".py", "text/x-python");
       (".rb", "text/x-ruby"); (".sh", "text/x-shellscript");
       (".bash", "text/x-shellscript"); (".sql", "text/x-sql");
       (".dockerfile", "text/x-dockerfile") ] ->
  assoc k extension_table = Some t.
Proof.
  simpl. intros Hin.
  repeat (destruct Hin as [[= <- <-]|Hin]; [reflexivity|]). done.
Qed.

Lemma assoc_extension_table_None k :
  ~ In k [ ".md"; ".markdown"; ".ts"; ".tsx"; ".jsx"; ".yaml"; ".yml"; ".toml";
           ".go"; ".rs"; ".py"; ".rb"; ".sh"; ".bash"; ".sql"; ".dockerfile" ] ->
  assoc k extension_table = None.
Proof.
  intros Hk. unfold extension_table. cbn [assoc].
  repeat match goal with
         | |- context [String.eqb k ?s] =>
             destruct (String.eqb_spec k s) as [->|_];
             [exfalso; apply Hk; simpl; repeat ((left; reflexivity) || right)|]
         end.
  done.
Qed.

(** C8.  The first [Close] of a write handle calls the backend's [Put]
    once and calls nothing else.  The id is new from the random source,
    the 24 hexadecimal digits of its next twelve bytes; with it go the
    buffered bytes and an item of that id with the handle's name and token,
    render mode ["auto"], the time of the clock and the content type
    [detectContentType] gives.  That is the type of the MIME database for
    the extension of the name when it has one, else the type of the
    built-in table for the extension in lower case, and, when the name is
    empty or gives neither, the type sniffed from the bytes, or
    [text/plain] when there are none.  [Close] leaves the handle closed, and
    [Close] on a closed handle returns no error and changes nothing, so
    calls no [Put].  A handle that was never written puts the empty blob: on
    either backend, when that [Close] reports no error and nothing fails,
    [Get] of the id returns no bytes and the item, with size 0. *)
Theorem Close_commits_once {S} `{Storage S} `{MimeDB} `{JSON} `{SortSlice} :
  (forall (f : davWriteFile.t) (w : world (traced S)),
      davWriteFile.closed f = false ->
      let random := take 12 (entropy w) in
      let id := hex_EncodeToString (random ++ replicate (12 - length random) x00) in
      exists err f1 w1,
        davWriteFile.Close f w = (err, f1, w1)
        /\ davWriteFile.closed f1 = true
        /\ String.length id = 24
        /\ entropy w1 = drop 12 (entropy w)
        /\ calls (store w1)
           = calls (store w)
             ++ [CallPut id (davWriteFile.buffer f)
                   (mkItem id (davWriteFile.name f)
                      (detectContentType (davWriteFile.name f) (davWriteFile.buffer f))
                      0 "auto" (now w) (davWriteFile.token f))]
        /\ davWriteFile.Close f1 w1 = (None, f1, w1))
  /\ (forall (f : davWriteFile.t) (w : world S),
      davWriteFile.closed f = true -> davWriteFile.Close f w = (None, f, w))
  /\ (forall name buf,
      let ext := filepath_Ext name in
      let ct := detectContentType name buf in
      (name <> "" -> mime_TypeByExtension ext <> "" -> ct = mime_TypeByExtension ext)
      /\ (forall t,
          name <> "" -> mime_TypeByExtension ext = "" ->
          In (strings_ToLower ext, t)
             [ (".md", "text/markdown"); (".markdown", "text/markdown");
               (".ts", "text/typescript"); (".tsx", "text/tsx"); (".jsx", "text/jsx");
               (".yaml", "text/yaml"); (".yml", "text/yaml"); (".toml", "text/toml");
               (".go", "text/x-go"); (".rs", "text/x-rust"); (".py", "text/x-python");
               (".rb", "text/x-ruby"); (".sh", "text/x-shellscript");
               (".bash", "text/x-shellscript"); (".sql", "text/x-sql");
               (".dockerfile", "text/x-dockerfile") ] ->
          ct = t)
      /\ (name = ""
          \/ (mime_TypeByExtension ext = ""
              /\ ~ In (strings_ToLower ext)
                      [ ".md"; ".markdown"; ".ts"; ".tsx"; ".jsx"; ".yaml"; ".yml";
                        ".toml"; ".go"; ".rs"; ".py"; ".rb"; ".sh"; ".bash"; ".sql";
                        ".dockerfile" ]) ->
          ct = match buf with [] => "text/plain" | _ => http_DetectContentType buf end))
  /\ (forall h token name (w : world Filesystem.disk) f1 w1,
      davWriteFile.Close (fresh_handle h token name) w = (None, f1, w1) ->
      Filesystem.calm (store w1) ->
      let random := take 12 (entropy w) in
      let id := hex_EncodeToString (random ++ replicate (12 - length random) x00) in
      fst (Filesystem.Get id (store w1))
      = inr ([], json_item (mkItem id name (detectContentType name []) 0 "auto"
                                    (now w) token)))
  /\ (forall h token name (w : world S3Storage.store) f1 w1,
      davWriteFile.Close (fresh_handle h token name) w = (None, f1, w1) ->
      S3Storage.calm (store w1) ->
      let random := take 12 (entropy w) in
      let id := hex_EncodeToString (random ++ replicate (12 - length random) x00) in
      fst (S3Storage.Get id (store w1))
      = inr ([], json_item (mkItem id name (detectContentType name []) 0 "auto"
                                    (now w) token))).
Proof.
  split_and!.
  - intros f w Hopen random id. rewrite (Close_open f w Hopen). simpl.
    unfold log. destruct (Put _ _ _ _) as [r st] eqn:HPut. simpl.
    eexists _, _, _. split_and!; try done.
    apply (generateID_length w).
  - intros f w. apply Close_closed.
  - intros name buf ext ct. subst ext ct. unfold detectContentType, type_by_name.
    cbv zeta. split_and!.
    + intros Hname Hknown.
      destruct (String.eqb_spec name ""); [done|].
      by destruct (String.eqb_spec (mime_TypeByExtension (filepath_Ext name)) "").
    + intros t Hname Hunknown Hin.
      destruct (String.eqb_spec name ""); [done|].
      rewrite Hunknown. cbn [String.eqb negb].
      by rewrite (assoc_extension_table _ _ Hin).
    + intros [->|[Hunknown Hout]].
      * cbn [String.eqb]. by destruct buf.
      * destruct (String.eqb name "").
        { by destruct buf. }
        rewrite Hunknown. cbn [String.eqb negb].
        rewrite (assoc_extension_table_None _ Hout). by destruct buf.
  - intros h token name w f1 w1 HClose Hc random id.
    rewrite Close_open in HClose by done. simpl in HClose.
    destruct (Filesystem.Put _ _ _ _) as [r d1] eqn:HPut.
    simpl in HClose. injection HClose as Herr _ <-. simpl in Hc |- *.
    by apply (Put_Get_calm _ _ _ _ _ _ HPut Herr).
  - intros h token name w f1 w1 HClose Hc random id.
    rewrite Close_open in HClose by done. simpl in HClose.
    destruct (S3Storage.Put _ _ _ _) as [r s1] eqn:HPut.
    simpl in HClose. injection HClose as Herr _ <-. simpl in Hc |- *.
    by apply (s3_Put_Get_calm _ _ _ _ _ _ HPut Herr).
Qed.

Lemma Close_commits_once_witness :
  (exists err f1 w1,
      davWriteFile.Close (H := Scenario.traced_fs) (H0 := Reference.mimedb)
        capped_handle traced_upload_world = (err, f1, w1)
      /\ davWriteFile.closed f1 = true
      /\ String.length "ab12cd34ef560178239a45bc" = 24
      /\ entropy w1 = []
      /\ calls (store w1)
         = [CallPut "ab12cd34ef560178239a45bc" [x68; x65; x6c]
              (mkItem "ab12cd34ef560178239a45bc" "a.txt" "text/plain; charset=utf-8"
                      0 "auto" 1700000000000000000 "alice")]
      /\ davWriteFile.Close (H := Scenario.traced_fs) (H0 := Reference.mimedb) f1 w1
         = (None, f1, w1))
  /\ detectContentType (H := Reference.mimedb) "notes.MD" [x23] = "text/markdown"
  /\ fst (Filesystem.Get (H := Reference.json) "ab12cd34ef560178239a45bc"
            (store (snd (davWriteFile.Close (H := Scenario.fs_backend)
                           (H0 := Reference.mimedb) empty_txt fs_upload_world))))
     = inr ([], mkItem "ab12cd34ef560178239a45bc" "empty.txt" "text/plain; charset=utf-8"
                       0 "auto" 1700000000000000000 "alice")
  /\ fst (S3Storage.Get (H := Reference.json) "ab12cd34ef560178239a45bc"
            (store (snd (davWriteFile.Close (H := Scenario.s3_backend)
                           (H0 := Reference.mimedb) empty_txt s3_upload_world))))
     = inr ([], mkItem "ab12cd34ef560178239a45bc" "empty.txt" "text/plain; charset=utf-8"
                       0 "auto" 1700000000000000000 "alice").
Proof.
  split_and!.
  - apply (proj1 (@Close_commits_once Filesystem.disk Scenario.fs_backend
                    Reference.mimedb Reference.json Reference.sort)
             capped_handle traced_upload_world).
    reflexivity.
  - apply (proj1 (proj2 (proj1 (proj2 (proj2
             (@Close_commits_once Filesystem.disk Scenario.fs_backend
                Reference.mimedb Reference.json Reference.sort)))
             "notes.MD" [x23]))).
    + discriminate.
    + reflexivity.
    + simpl. tauto.
  - apply (proj1 (proj2 (proj2 (proj2
             (@Close_commits_once Filesystem.disk Scenario.fs_backend
                Reference.mimedb Reference.json Reference.sort))))
             (WebDAVHandler.mk 0) "alice" "empty.txt" fs_upload_world
             (snd (fst (davWriteFile.Close (H := Scenario.fs_backend)
                          (H0 := Reference.mimedb) empty_txt fs_upload_world)))).
    + vm_compute. reflexivity.
    + vm_compute. constructor.
  - apply (proj2 (proj2 (proj2 (proj2
             (@Close_commits_once Filesystem.disk Scenario.fs_backend
                Reference.mimedb Reference.json Reference.sort))))
             (WebDAVHandler.mk 0) "alice" "empty.txt" s3_upload_world
             (snd (fst (davWriteFile.Close (H := Scenario.s3_backend)
                          (H0 := Reference.mimedb) empty_txt s3_upload_world)))).
    + vm_compute. reflexivity.
    + vm_compute. constructor.
Defined.

(** ** Opening for write *)

Lemma Close_store {S} `{Storage S} `{MimeDB} (f : davWriteFile.t) (w : world S) err f1 w1 :
  davWriteFile.closed f = false ->
  davWriteFile.Close f w = (err, f1, w1) ->
  exists r,
    Put (fst (generateID w)) (davWriteFile.buffer f) (item_of f w) (store w)
    = (r, store w1)
    /\ err = put_err r.
Proof.
  intros Hopen HClose. rewrite (Close_open f w Hopen) in HClose.
  destruct (Put _ _ _ _) as [r st]. simpl in HClose.
  injection HClose as <- _ <-. by exists r.
Qed.

(** C10, as the code has it.  Opening a path other than the root with
    write-intent flags returns a write handle with an empty buffer and
    leaves the world as it was, so calls no method of the storage, whatever
    the store holds.  [Close] on an open handle stores under the id
    [generateID] returns; when nothing is stored under that id, every blob
    and metadata record of the store is afterwards as it was before, and
    when the [Close] succeeds on a medium without faults the new record is
    stored beside the old ones, under an id that differs from theirs, and
    [List] returns the new item, as [encoding/json] reads it back, together
    with the items it returned before, whatever their names. *)
Theorem write_stores_beside_existing `{MimeDB} `{JSON} `{SortSlice} :
  (forall S (HS : Storage S) h token name flag perm (w : world S),
      WebDAVHandler.is_root (WebDAVHandler.cleanPath name) = false ->
      WebDAVHandler.write_intent flag = true ->
      WebDAVHandler.OpenFile h token name flag perm w
      = (inr (WriteFile (fresh_handle h token (WebDAVHandler.cleanPath name))), w))
  /\ (forall f (w : world Filesystem.disk) err f1 w1,
      davWriteFile.closed f = false ->
      davWriteFile.Close f w = (err, f1, w1) ->
      let id := fst (generateID w) in
      let new := json_item (set_Size (len (davWriteFile.buffer f)) (item_of f w)) in
      Filesystem.files (store w) !! id = None ->
      Filesystem.meta (store w) !! (id +:+ ".json") = None ->
      Filesystem.files (store w) ⊆ Filesystem.files (store w1)
      /\ Filesystem.meta (store w) ⊆ Filesystem.meta (store w1)
      /\ (err = None -> Filesystem.calm (store w) ->
          Filesystem.stored (store w1) id new
          /\ (forall id' old,
                 Filesystem.stored (store w) id' old ->
                 id' <> id /\ Filesystem.stored (store w1) id' old)
          /\ forall owner, exists before after,
               fst (Filesystem.List owner (store w)) = inr before
               /\ fst (Filesystem.List owner (store w1)) = inr after
               /\ forall it,
                    it ∈ after
                    <-> (it = new /\ OwnerToken new = owner) \/ it ∈ before))
  /\ (forall f (w : world S3Storage.store) err f1 w1,
      davWriteFile.closed f = false ->
      davWriteFile.Close f w = (err, f1, w1) ->
      let id := fst (generateID w) in
      let new := json_item (set_Size (len (davWriteFile.buffer f)) (item_of f w)) in
      S3Storage.bucket (store w) !! S3Storage.fileKey id = None ->
      S3Storage.bucket (store w) !! S3Storage.metaKey id = None ->
      S3Storage.bucket (store w) ⊆ S3Storage.bucket (store w1)
      /\ (err = None -> S3Storage.calm (store w) ->
          S3Storage.stored (store w1) id new
          /\ (forall id' old,
                 S3Storage.stored (store w) id' old ->
                 id' <> id /\ S3Storage.stored (store w1) id' old)
          /\ forall owner, exists before after,
               fst (S3Storage.List owner (store w)) = inr before
               /\ fst (S3Storage.List owner (store w1)) = inr after
               /\ forall it,
                    it ∈ after
                    <-> (it = new /\ OwnerToken new = owner) \/ it ∈ before)).
Proof.
  split_and!.
  - intros S HS h token name flag perm w Hroot Hflag.
    unfold WebDAVHandler.OpenFile. by rewrite Hroot, Hflag.
  - intros f w err f1 w1 Hopen HClose id new Hfile Hmeta.
    destruct (Close_store f w err f1 w1 Hopen HClose) as (r & HPut & ->).
    fold id in HPut. simpl in HPut.
    destruct (Put_frame _ _ _ _ _ _ HPut) as [Hff Hfm].
    split_and!.
    + apply map_subseteq_spec. intros k bs Hk. rewrite Hff; [done | congruence].
    + apply map_subseteq_spec. intros k bs Hk. rewrite Hfm; [done | congruence].
    + intros Hok Hc.
      pose proof (stored_after_Put _ _ _ _ _ _ HPut Hok) as Hst.
      assert (Hfresh : forall id' old, Filesystem.stored (store w) id' old -> id' <> id).
      { intros id' old (bs & Hbs & _) ->. congruence. }
      split_and!.
      * apply Hst. by left.
      * intros id' old Hold. split; [by eapply Hfresh|].
        apply Hst. right. split; [by eapply Hfresh | done].
      * intros owner.
        destruct (List_calm owner (store w) Hc) as (before & n & -> & Hb & _).
        destruct (List_calm owner (store w1) (Put_calm_after _ _ _ _ _ _ HPut Hc))
          as (after & m & -> & Ha & _).
        exists before, after. split_and!; [done | done |].
        intros it. rewrite Ha, Hb. split.
        -- intros (id' & Hid' & Ho). apply Hst in Hid' as [[-> ->]|[Hne Hold]].
           ++ left. by split.
           ++ right. eauto.
        -- intros [[-> Ho]|(id' & Hold & Ho)].
           ++ exists id. split; [apply Hst; by left | done].
           ++ exists id'. split; [|done].
              apply Hst. right. split; [by eapply Hfresh | done].
  - intros f w err f1 w1 Hopen HClose id new Hfile Hmeta.
    destruct (Close_store f w err f1 w1 Hopen HClose) as (r & HPut & ->).
    fold id in HPut. simpl in HPut.
    pose proof (s3_Put_frame _ _ _ _ _ _ HPut) as Hframe.
    split.
    + apply map_subseteq_spec. intros k bs Hk. rewrite Hframe; [done | congruence..].
    + intros Hok Hc.
      pose proof (s3_stored_after_Put _ _ _ _ _ _ HPut Hok) as Hst.
      assert (Hfresh : forall id' old, S3Storage.stored (store w) id' old -> id' <> id).
      { intros id' old (bs & Hbs & _) ->. congruence. }
      assert (Hid : id <> "").
      { intros Hempty. pose proof (generateID_length w) as Hl.
        fold id in Hl. rewrite Hempty in Hl. discriminate. }
      split_and!.
      * apply Hst. by left.
      * intros id' old Hold. split; [by eapply Hfresh|].
        apply Hst. right. split; [by eapply Hfresh | done].
      * intros owner.
        destruct (s3_List_calm owner (store w) Hc) as (n & ->).
        destruct (s3_List_calm owner (store w1) (s3_Put_calm_after _ _ _ _ _ _ HPut Hc))
          as (m & ->).
        eexists _, _. split_and!; [done | done |].
        intros it. rewrite !s3_List_mem. split.
        -- intros (Ho & id' & Hne' & Hid'). apply Hst in Hid' as [[-> ->]|[Hne Hold]].
           ++ left. by split.
           ++ right. eauto.
        -- intros [[-> Ho]|(Ho & id' & Hne' & Hold)].
           ++ split; [done|]. exists id. split; [done|]. apply Hst. by left.
           ++ split; [done|]. exists id'. split; [done|].
              apply Hst. right. split; [by eapply Hfresh | done].
Qed.

Lemma write_stores_beside_existing_witness :
  WebDAVHandler.OpenFile (H := Scenario.fs_backend) (WebDAVHandler.mk 0)
    "alice" "/notes.txt" (Z.lor O_RDWR (Z.lor O_CREATE O_TRUNC)) 0 TwoUploads.fs_world
  = (inr (WriteFile (fresh_handle (WebDAVHandler.mk 0) "alice" "notes.txt")),
     TwoUploads.fs_world)
  /\ (let w1 := snd (davWriteFile.Close (H := Scenario.fs_backend)
                       (H0 := Reference.mimedb) TwoUploads.third TwoUploads.fs_world) in
      Filesystem.stored (H := Reference.json) (store w1) "ab12cd34ef560178239a45bc"
        (set_Size 2 (item_of (H := Reference.mimedb) TwoUploads.third TwoUploads.fs_world))
      /\ Filesystem.stored (H := Reference.json) (store w1)
           (ID TwoUploads.newer) (set_Size 3 TwoUploads.newer))
  /\ (let w1 := snd (davWriteFile.Close (H := Scenario.s3_backend)
                       (H0 := Reference.mimedb) TwoUploads.third TwoUploads.s3_world) in
      S3Storage.stored (H := Reference.json) (store w1) "ab12cd34ef560178239a45bc"
        (set_Size 2 (item_of (H := Reference.mimedb) TwoUploads.third TwoUploads.s3_world))
      /\ S3Storage.stored (H := Reference.json) (store w1)
           (ID TwoUploads.newer) (set_Size 3 TwoUploads.newer)).
Proof.
  pose proof (@write_stores_beside_existing Reference.mimedb Reference.json Reference.sort)
    as (Hopen & Hfs & Hs3).
  split_and!.
  - apply (Hopen Filesystem.disk Scenario.fs_backend); reflexivity.
  - destruct (Hfs TwoUploads.third TwoUploads.fs_world
                (fst (fst (davWriteFile.Close (H := Scenario.fs_backend)
                             (H0 := Reference.mimedb) TwoUploads.third TwoUploads.fs_world)))
                (snd (fst (davWriteFile.Close (H := Scenario.fs_backend)
                             (H0 := Reference.mimedb) TwoUploads.third TwoUploads.fs_world)))
                (snd (davWriteFile.Close (H := Scenario.fs_backend)
                        (H0 := Reference.mimedb) TwoUploads.third TwoUploads.fs_world))
                eq_refl)
      as (_ & _ & Hok).
    + vm_compute. reflexivity.
    + vm_compute. reflexivity.
    + vm_compute. reflexivity.
    + destruct Hok as (Hnew & Hold & _).
      * vm_compute. reflexivity.
      * vm_compute. constructor.
      * split; [exact Hnew|]. apply Hold.
        eexists. split; vm_compute; reflexivity.
  - destruct (Hs3 TwoUploads.third TwoUploads.s3_world
                (fst (fst (davWriteFile.Close (H := Scenario.s3_backend)
                             (H0 := Reference.mimedb) TwoUploads.third TwoUploads.s3_world)))
                (snd (fst (davWriteFile.Close (H := Scenario.s3_backend)
                             (H0 := Reference.mimedb) TwoUploads.third TwoUploads.s3_world)))
                (snd (davWriteFile.Close (H := Scenario.s3_backend)
                        (H0 := Reference.mimedb) TwoUploads.third TwoUploads.s3_world))
                eq_refl)
      as (_ & Hok).
    + vm_compute. reflexivity.
    + vm_compute. reflexivity.
    + vm_compute. reflexivity.
    + destruct Hok as (Hnew & Hold & _).
      * vm_compute. reflexivity.
      * vm_compute. constructor.
      * split; [exact Hnew|]. apply Hold.
        eexists. split; vm_compute; reflexivity.
Defined.

(** C10 as stated fails.  Opening the root with the flags of an upload
    lists the store, returns a directory handle and not a write handle, and
    fails when the listing does.  And a [Close] whose generated id is that of
    a stored item replaces the blob and the metadata of that item. *)
Lemma write_open_of_root_and_id_collision :
  (WebDAVHandler.OpenFile (H := Scenario.traced_fs) (WebDAVHandler.mk 0)
     "alice" "/" (Z.lor O_RDWR (Z.lor O_CREATE O_TRUNC)) 0 failing_traced_world
   = (inl (wrapError "failed to read metadata directory" IOFault),
      mkWorld (mkTraced Scenario.disk0 [CallList "alice"])
              Scenario.twelve_bytes 1700001000000000000))
  /\ (exists d,
       WebDAVHandler.OpenFile (H := Scenario.traced_fs) (WebDAVHandler.mk 0)
         "alice" "/" (Z.lor O_RDWR (Z.lor O_CREATE O_TRUNC)) 0 traced_upload_world
       = (inr (DirFile d),
          mkWorld (mkTraced Scenario.disk0 [CallList "alice"])
                  Scenario.twelve_bytes 1700000000000000000))
  /\ (fst (Filesystem.Get (H := Reference.json) Collision.id (store Collision.w))
      = inr (TwoUploads.v1, set_Size 2 Collision.bobs)
      /\ fst (generateID Collision.w) = Collision.id
      /\ fst (Filesystem.Get (H := Reference.json) Collision.id (store Collision.after))
         = inr (TwoUploads.v3,
                mkItem Collision.id "notes.txt" "text/plain; charset=utf-8" 2 "auto"
                       1700001000000000000 "alice")).
Proof.
  split_and!; try (vm_compute; reflexivity).
  eexists. vm_compute. reflexivity.
Qed.

(** * Further properties of the code *)

(** ** Paths of the adapter *)

Lemma str_drop_app (a b : string) : str_drop (String.length a) (a +:+ b) = b.
Proof. induction a as [|c a IH]; simpl; [by destruct b | exact IH]. Qed.

Lemma str_take_drop n s : str_take n s +:+ str_drop n s = s.
Proof.
  revert s. induction n as [|n IH]; intros [|c s]; simpl; try done.
  change (String c (str_take n s +:+ str_drop n s) = String c s). by rewrite IH.
Qed.

Lemma prefix_split pre s :
  Is_true (String.prefix pre s) -> s = pre +:+ str_drop (String.length pre) s.
Proof.
  revert s. induction pre as [|c pre IH]; intros [|c' s]; simpl; try done.
  destruct (ascii_dec c c') as [->|]; [|done].
  intros Hp. change (String c' s = String c' (pre +:+ str_drop (String.length pre) s)).
  by rewrite <- IH.
Qed.

Lemma prefix_app pre s : String.prefix pre (pre +:+ s) = true.
Proof.
  induction pre as [|c pre IH]; simpl; [by destruct s|].
  by destruct (ascii_dec c c).
Qed.

(** [strings.TrimPrefix] and [strings.TrimSuffix] cut the affix off, or
    leave the string alone. *)
Lemma TrimPrefix_cases s pre :
  (String.prefix pre s = true /\ s = pre +:+ strings_TrimPrefix s pre)
  \/ (String.prefix pre s = false /\ strings_TrimPrefix s pre = s).
Proof.
  unfold strings_TrimPrefix. destruct (String.prefix pre s) eqn:Hp; [left|right; done].
  split; [done|]. apply prefix_split. by rewrite Hp.
Qed.

Lemma TrimPrefix_app pre s : strings_TrimPrefix (pre +:+ s) pre = s.
Proof. unfold strings_TrimPrefix. by rewrite prefix_app, str_drop_app. Qed.

Lemma HasSuffix_split s suf :
  strings_HasSuffix s suf = true ->
  s = str_take (String.length s - String.length suf) s +:+ suf.
Proof.
  unfold strings_HasSuffix. intros [Hd _]%andb_prop.
  apply bool_decide_eq_true in Hd.
  pose proof (str_take_drop (String.length s - String.length suf) s) as Hs.
  by rewrite Hd in Hs.
Qed.

Lemma HasSuffix_app s suf : strings_HasSuffix (s +:+ suf) suf = true.
Proof.
  unfold strings_HasSuffix. rewrite str_length_app.
  replace (String.length s + String.length suf - String.length suf)
    with (String.length s) by lia.
  rewrite str_drop_app. apply andb_true_intro.
  split; apply bool_decide_eq_true; [done | lia].
Qed.

Lemma TrimSuffix_cases s suf :
  (strings_HasSuffix s suf = true /\ s = strings_TrimSuffix s suf +:+ suf)
  \/ (strings_HasSuffix s suf = false /\ strings_TrimSuffix s suf = s).
Proof.
  unfold strings_TrimSuffix. destruct (strings_HasSuffix s suf) eqn:Hs; [left|right; done].
  split; [done|]. by apply HasSuffix_split.
Qed.

Lemma TrimSuffix_app s suf : strings_TrimSuffix (s +:+ suf) suf = s.
Proof.
  unfold strings_TrimSuffix. rewrite HasSuffix_app, str_length_app.
  replace (String.length s + String.length suf - String.length suf)
    with (String.length s) by lia.
  apply str_take_app.
Qed.

Lemma is_root_spec name : WebDAVHandler.is_root name = true <-> name = "" \/ name = "/".
Proof.
  unfold WebDAVHandler.is_root. rewrite orb_true_iff.
  by rewrite !String.eqb_eq.
Qed.

(** X1.  [cleanPath] cuts one slash off each end of a path and no more.
    The paths the adapter treats as the root directory are therefore the
    empty path and the paths of one, two or three slashes; a path of the
    form [/n/] names [n], and so does [/n] when [n] does not end in a
    slash. *)
Theorem cleanPath_one_slash_each_end :
  (forall p,
      WebDAVHandler.is_root (WebDAVHandler.cleanPath p) = true
      <-> p = "" \/ p = "/" \/ p = "//" \/ p = "///")
  /\ (forall n, WebDAVHandler.cleanPath ("/" +:+ n +:+ "/") = n)
  /\ (forall n,
      strings_HasSuffix n "/" = false -> WebDAVHandler.cleanPath ("/" +:+ n) = n).
Proof.
  split_and!.
  - intros p. split.
    + rewrite is_root_spec. unfold WebDAVHandler.cleanPath.
      set (tp := strings_TrimPrefix p "/").
      set (ts := strings_TrimSuffix tp "/").
      destruct (TrimPrefix_cases p "/") as [[_ Hp]|[_ Hp]];
        destruct (TrimSuffix_cases tp "/") as [[_ Hs]|[_ Hs]].
      all: fold tp in Hp; fold ts in Hs; clearbody ts; clearbody tp.
      all: intros [Hr|Hr]; subst; auto.
    + by intros [-> | [-> | [-> | ->]]].
  - intros n. unfold WebDAVHandler.cleanPath.
    by rewrite (TrimPrefix_app "/"), TrimSuffix_app.
  - intros n Hn. unfold WebDAVHandler.cleanPath.
    rewrite (TrimPrefix_app "/"). unfold strings_TrimSuffix. by rewrite Hn.
Qed.

Lemma cleanPath_one_slash_each_end_witness :
  WebDAVHandler.cleanPath ("/" +:+ "notes.txt") = "notes.txt".
Proof.
  apply (proj2 (proj2 cleanPath_one_slash_each_end) "notes.txt").
  reflexivity.
Defined.

(** ** Write handles *)

(** X2.  What [Write] does to a handle, for buffers of a length an [int]
    holds.  It accepts the bytes exactly when the handle has no cap (a cap
    of zero or less) or the buffer with the new bytes stays within the cap;
    it then appends them and returns their count.  Otherwise it returns
    ["file too large"] and the count 0 and keeps the buffer.  Either way it
    leaves the rest of the handle and the world alone, and a buffer within
    a cap above zero stays within it. *)
Theorem Write_accepts_within_cap {S}
    (f : davWriteFile.t) (p : list byte) (w : world S) :
  (len (davWriteFile.buffer f) + len p <= max_int)%Z ->
  let fits :=
    (davWriteFile.maxFileSize f <= 0
     \/ len (davWriteFile.buffer f) + len p <= davWriteFile.maxFileSize f)%Z in
  let res := davWriteFile.Write f p w in
  let f' := snd (fst res) in
  snd res = w
  /\ davWriteFile.name f' = davWriteFile.name f
  /\ davWriteFile.token f' = davWriteFile.token f
  /\ davWriteFile.maxFileSize f' = davWriteFile.maxFileSize f
  /\ davWriteFile.closed f' = davWriteFile.closed f
  /\ (fits ->
      fst (fst res) = (len p, None)
      /\ davWriteFile.buffer f' = davWriteFile.buffer f ++ p)
  /\ (~ fits ->
      fst (fst res) = (0%Z, Some (errorString "file too large"))
      /\ davWriteFile.buffer f' = davWriteFile.buffer f)
  /\ ((0 < davWriteFile.maxFileSize f)%Z ->
      (len (davWriteFile.buffer f) <= davWriteFile.maxFileSize f)%Z ->
      (len (davWriteFile.buffer f') <= davWriteFile.maxFileSize f)%Z).
Proof.
  intros Hfit fits res f'. subst fits res f'.
  pose proof (len_nonneg (davWriteFile.buffer f)) as Hb.
  pose proof (len_nonneg p) as Hp.
  unfold davWriteFile.Write, int_add.
  rewrite wrap_id by (unfold min_int, max_int in *; lia).
  destruct (Z.ltb_spec 0 (davWriteFile.maxFileSize f)) as [Hcap|Hcap];
    [destruct (Z.ltb_spec (davWriteFile.maxFileSize f)
                 (len (davWriteFile.buffer f) + len p)) as [Hover|Hin]|];
    simpl.
  all: split_and!; try done; try lia.
  all: try (intros; unfold len; rewrite length_app; unfold len in *; lia).
Qed.

Lemma Write_accepts_within_cap_witness :
  fst (fst (davWriteFile.Write capped_handle [x6c] traced_world)) = (1%Z, None)
  /\ davWriteFile.buffer (snd (fst (davWriteFile.Write capped_handle [x6c] traced_world)))
     = [x68; x65; x6c; x6c].
Proof.
  apply (Write_accepts_within_cap capped_handle [x6c] traced_world).
  - vm_compute. discriminate.
  - right. vm_compute. discriminate.
Defined.

(** ** The backends under faults *)

Section FilesystemUnderFaults.
Context `{JSON}.
Import Filesystem.

Lemma same_files_refl d : same_files d d.
Proof. done. Qed.

Lemma same_files_trans d1 d2 d3 : same_files d1 d2 -> same_files d2 d3 -> same_files d1 d3.
Proof. intros [? ?] [? ?]. split; congruence. Qed.

Lemma same_files_stored d d' id item : same_files d d' -> stored d' id item -> stored d id item.
Proof. intros [_ Hm]. unfold stored. by rewrite Hm. Qed.

Lemma GetMeta_reads id d : same_files d (snd (GetMeta id d)).
Proof.
  destruct d as [fs ms sc]. unfold same_files, GetMeta, os_Open, json_Decode, next.
  simpl. run_medium; done.
Qed.

Lemma Get_reads id d : same_files d (snd (Get id d)).
Proof.
  destruct d as [fs ms sc]. unfold same_files, Get, GetMeta, os_Open, json_Decode, next.
  simpl. run_medium; done.
Qed.

(** Whatever the schedule, what [GetMeta] returns is what the disk holds. *)
Lemma GetMeta_ok id d item d' : GetMeta id d = (inr item, d') -> stored d id item.
Proof.
  destruct d as [fs ms sc].
  unfold GetMeta, os_Open, json_Decode, next, stored.
  simpl. run_medium; intros Heq; simplify_eq.
  all: use_lookups; simpl; eauto.
Qed.

Lemma List_loop_sound entries owner items d :
  same_files d (snd (List_loop entries owner items d))
  /\ exists more,
       fst (List_loop entries owner items d) = items ++ more
       /\ Forall (fun it => OwnerToken it = owner /\ exists id, stored d id it) more.
Proof.
  revert items d. induction entries as [|name entries IH]; intros items d; simpl.
  - split; [done|]. exists []. by rewrite app_nil_r.
  - destruct (negb (String.eqb (filepath_Ext name) ".json")); [apply IH|].
    set (id := str_take (String.length name - 5) name).
    pose proof (GetMeta_reads id d) as Hsame.
    destruct (GetMeta id d) as [[err|item] d1] eqn:HG; simpl in Hsame.
    + destruct (IH items d1) as (Hs & more & -> & Hall).
      split; [by eapply same_files_trans|]. exists more. split; [done|].
      revert Hall. apply Forall_impl. intros it [Ho (id' & Hst)].
      split; [done|]. exists id'. by eapply same_files_stored.
    + apply GetMeta_ok in HG.
      destruct (String.eqb_spec (OwnerToken item) owner) as [Ho|Ho].
      * destruct (IH (items ++ [item]) d1) as (Hs & more & -> & Hall).
        split; [by eapply same_files_trans|]. exists (item :: more).
        split; [by rewrite <- app_assoc|].
        constructor; [by eauto|].
        revert Hall. apply Forall_impl. intros it [Ho' (id' & Hst)].
        split; [done|]. exists id'. by eapply same_files_stored.
      * destruct (IH items d1) as (Hs & more & -> & Hall).
        split; [by eapply same_files_trans|]. exists more. split; [done|].
        revert Hall. apply Forall_impl. intros it [Ho' (id' & Hst)].
        split; [done|]. exists id'. by eapply same_files_stored.
Qed.

Context `{SortSlice}.

Lemma List_reads owner d : same_files d (snd (List owner d)).
Proof.
  unfold List, os_ReadDir_meta.
  destruct d as [fs ms [|[|k] sc]]; simpl; try done.
  all: match goal with
       | |- context [List_loop ?e ?o ?i ?d] =>
           pose proof (proj1 (List_loop_sound e o i d)) as Hs;
           destruct (List_loop e o i d)
       end; exact Hs.
Qed.

Lemma List_sound owner d items d' :
  List owner d = (inr items, d') ->
  (forall item, item ∈ items ->
     OwnerToken item = owner /\ exists id, stored d id item)
  /\ StronglySorted (fun a b => (CreatedAt b <= CreatedAt a)%Z) items.
Proof.
  unfold List, os_ReadDir_meta.
  destruct d as [fs ms [|[|k] sc]]; simpl; try done.
  all: match goal with
       | |- context [List_loop ?e ?o ?i ?d] =>
           destruct (List_loop_sound e o i d) as (_ & more & Hfst & Hall);
           destruct (List_loop e o i d) as [its d1]
       end; simpl in Hfst; subst its.
  all: intros [= <- <-]; split.
  all: try (eapply StronglySorted_weaken;
            [|apply sort_Slice_sorted; [apply newer_transitive | apply newer_total]];
            intros a b; by rewrite not_less_newer).
  all: intros item; rewrite sort_Slice_perm; simpl; intros Hin.
  all: rewrite list.Forall_forall in Hall; by apply Hall.
Qed.

(** [Delete] removes entries of its id and nothing else, whatever fails. *)
Lemma Delete_frame id d :
  files (snd (Delete id d)) ⊆ files d
  /\ meta (snd (Delete id d)) ⊆ meta d
  /\ (forall k, k <> id -> files (snd (Delete id d)) !! k = files d !! k)
  /\ (forall k, k <> id +:+ ".json" -> meta (snd (Delete id d)) !! k = meta d !! k).
Proof.
  destruct d as [fs ms sc]. unfold Delete, os_Remove, next.
  simpl. run_medium; simpl.
  all: split_and!; try done; try apply delete_subseteq.
  all: intros k Hk; by rewrite lookup_delete_ne.
Qed.

End FilesystemUnderFaults.

Section S3UnderFaults.
Context `{JSON}.
Import S3Storage.

Lemma s3_GetMeta_reads id s : bucket (snd (GetMeta id s)) = bucket s.
Proof.
  destruct s as [b sc]. unfold GetMeta, GetObject, next.
  simpl. run_medium; done.
Qed.

Lemma s3_Get_reads id s : bucket (snd (Get id s)) = bucket s.
Proof.
  destruct s as [b sc]. unfold Get, GetMeta, GetObject, next.
  simpl. run_medium; done.
Qed.

Lemma s3_GetMeta_ok id s item s' : GetMeta id s = (inr item, s') -> stored s id item.
Proof.
  destruct s as [b sc].
  unfold GetMeta, GetObject, next, stored.
  simpl. run_medium; intros Heq; simplify_eq.
  all: use_lookups; simpl; eauto.
Qed.

Lemma s3_stored_bucket s s' id item :
  bucket s' = bucket s -> stored s' id item -> stored s id item.
Proof. intros Hb. unfold stored. by rewrite Hb. Qed.

(** The id [List] cuts out of a key it reads is not empty. *)
Lemma listed_id_nonempty key :
  (10 < String.length key)%nat ->
  str_take (String.length key - 5 - 5) (str_drop 5 key) <> "".
Proof.
  intros Hlen Hempty. apply (f_equal String.length) in Hempty.
  rewrite length_str_take, length_str_drop in Hempty. simpl in Hempty. lia.
Qed.

Lemma List_page_sound contents owner items s :
  bucket (snd (List_page contents owner items s)) = bucket s
  /\ exists more,
       fst (List_page contents owner items s) = items ++ more
       /\ Forall (fun it => OwnerToken it = owner
                            /\ exists id, id <> "" /\ stored s id it) more.
Proof.
  revert items s. induction contents as [|key contents IH]; intros items s;
    cbn [List_page].
  - split; [done|]. exists []. by rewrite app_nil_r.
  - destruct (Nat.leb_spec (String.length key) 10) as [|Hlen]; [apply IH|].
    set (id := str_take (String.length key - 5 - 5) (str_drop 5 key)).
    assert (Hid : id <> "") by by apply listed_id_nonempty.
    pose proof (s3_GetMeta_reads id s) as Hsame.
    destruct (GetMeta id s) as [[err|item] s1] eqn:HG; simpl in Hsame.
    + destruct (IH items s1) as (Hs & more & -> & Hall).
      split; [congruence|]. exists more. split; [done|].
      revert Hall. apply Forall_impl. intros it [Ho (id' & Hne & Hst)].
      split; [done|]. exists id'. split; [done|]. by eapply s3_stored_bucket.
    + apply s3_GetMeta_ok in HG.
      destruct (String.eqb_spec (OwnerToken item) owner) as [Ho|Ho].
      * destruct (IH (items ++ [item]) s1) as (Hs & more & -> & Hall).
        split; [congruence|]. exists (item :: more).
        split; [by rewrite <- app_assoc|].
        constructor; [by eauto|].
        revert Hall. apply Forall_impl. intros it [Ho' (id' & Hne & Hst)].
        split; [done|]. exists id'. split; [done|]. by eapply s3_stored_bucket.
      * destruct (IH items s1) as (Hs & more & -> & Hall).
        split; [congruence|]. exists more. split; [done|].
        revert Hall. apply Forall_impl. intros it [Ho' (id' & Hne & Hst)].
        split; [done|]. exists id'. split; [done|]. by eapply s3_stored_bucket.
Qed.

Lemma List_pages_sound pages owner items s :
  bucket (snd (List_pages pages owner items s)) = bucket s
  /\ forall res,
       fst (List_pages pages owner items s) = inr res ->
       exists more,
         res = items ++ more
         /\ Forall (fun it => OwnerToken it = owner
                              /\ exists id, id <> "" /\ stored s id it) more.
Proof.
  revert items s. induction pages as [|page pages IH]; intros items s; simpl.
  - split; [done|]. intros res [= <-]. exists []. by rewrite app_nil_r.
  - destruct s as [b [|[|k] sc]]; unfold next; simpl; try done.
    all: match goal with
         | |- context [List_page ?c ?o ?i ?s] =>
             destruct (List_page_sound c o i s) as (Hb & more & Hfst & Hall);
             destruct (List_page c o i s) as [its s1]
         end; simpl in Hb, Hfst; subst its.
    all: destruct (IH (items ++ more) s1) as (Hb' & Hres).
    all: split; [congruence|].
    all: intros res Hr; destruct (Hres res Hr) as (more' & -> & Hall').
    all: exists (more ++ more'); split; [by rewrite app_assoc|].
    all: apply Forall_app; split; [done|].
    all: revert Hall'; apply Forall_impl; intros it [Ho (id' & Hne & Hst)].
    all: split; [done|]; exists id'; split; [done|].
    all: by apply (s3_stored_bucket _ s1).
Qed.

Lemma s3_List_reads owner s : bucket (snd (List owner s)) = bucket s.
Proof. unfold List. apply List_pages_sound. Qed.

Lemma s3_List_sound owner s items s' :
  List owner s = (inr items, s') ->
  forall item, item ∈ items ->
    OwnerToken item = owner /\ exists id, id <> "" /\ stored s id item.
Proof.
  unfold List. intros HL.
  destruct (proj2 (List_pages_sound (paginate (keys_with_prefix "meta/" s)) owner [] s)
              items) as (more & -> & Hall); [by rewrite HL|].
  simpl. intros item Hin. rewrite list.Forall_forall in Hall. by apply Hall.
Qed.

Lemma s3_Delete_frame id s :
  bucket (snd (Delete id s)) ⊆ bucket s
  /\ forall k, k <> fileKey id -> k <> metaKey id ->
       bucket (snd (Delete id s)) !! k = bucket s !! k.
Proof.
  destruct s as [b sc]. unfold Delete, DeleteObject, next.
  simpl. run_medium; simpl.
  all: split; [|intros k Hf Hm; by rewrite ?lookup_delete_ne].
  all: try done; try apply delete_subseteq.
  all: etrans; apply delete_subseteq.
Qed.

End S3UnderFaults.

(** X3.  [GetMeta], [Get] and [List] only read: whatever calls fail, on
    either backend, the files and objects are afterwards what they were. *)
Theorem reads_leave_the_store `{JSON} `{SortSlice} :
  (forall id owner d,
      same_files d (snd (Filesystem.GetMeta id d))
      /\ same_files d (snd (Filesystem.Get id d))
      /\ same_files d (snd (Filesystem.List owner d)))
  /\ (forall id owner s,
      S3Storage.bucket (snd (S3Storage.GetMeta id s)) = S3Storage.bucket s
      /\ S3Storage.bucket (snd (S3Storage.Get id s)) = S3Storage.bucket s
      /\ S3Storage.bucket (snd (S3Storage.List owner s)) = S3Storage.bucket s).
Proof.
  split.
  - intros id owner d. split_and!;
      [apply GetMeta_reads | apply Get_reads | apply List_reads].
  - intros id owner s. split_and!;
      [apply s3_GetMeta_reads | apply s3_Get_reads | apply s3_List_reads].
Qed.

(** X4.  Whatever calls fail, a [List] that returns items returns only
    records that are stored and carry the owner token asked for; on the
    filesystem it returns them newest first, and on the object store each
    of them is stored under an id that is not empty. *)
Theorem List_returns_stored_records_of_owner `{JSON} `{SortSlice} :
  (forall owner d items d',
      Filesystem.List owner d = (inr items, d') ->
      (forall item, item ∈ items ->
         OwnerToken item = owner /\ exists id, Filesystem.stored d id item)
      /\ StronglySorted (fun a b => (CreatedAt b <= CreatedAt a)%Z) items)
  /\ (forall owner s items s',
      S3Storage.List owner s = (inr items, s') ->
      forall item, item ∈ items ->
        OwnerToken item = owner
        /\ exists id, id <> "" /\ S3Storage.stored s id item).
Proof.
  split.
  - intros owner d items d'. apply List_sound.
  - intros owner s items s'. apply s3_List_sound.
Qed.

Lemma List_returns_stored_records_of_owner_witness :
  (forall item, item ∈ [set_Size 3 TwoUploads.newer] ->
     OwnerToken item = "alice"
     /\ exists id, Filesystem.stored (H := Reference.json) flaky_disk id item)
  /\ StronglySorted (fun a b => (CreatedAt b <= CreatedAt a)%Z)
       [set_Size 3 TwoUploads.newer].
Proof.
  apply (proj1 (@List_returns_stored_records_of_owner Reference.json Reference.sort)
           "alice" flaky_disk [set_Size 3 TwoUploads.newer]
           (snd (Filesystem.List (H := Reference.json) (H0 := Reference.sort)
                   "alice" flaky_disk))).
  vm_compute. reflexivity.
Defined.

(** X5.  [Delete] only removes, and for an id that names a directory
    entry (on the object store, for any id) it removes nothing but the blob
    and the record of its id, whatever calls fail.  When both of its
    removals fail it removes nothing at all, and reports no error all the
    same. *)
Theorem Delete_touches_only_its_id :
  (forall id d,
      Filesystem.files (snd (Filesystem.Delete id d)) ⊆ Filesystem.files d
      /\ Filesystem.meta (snd (Filesystem.Delete id d)) ⊆ Filesystem.meta d
      /\ (entry_name id = true ->
          (forall k, k <> id ->
              Filesystem.files (snd (Filesystem.Delete id d)) !! k
              = Filesystem.files d !! k)
          /\ (forall k, k <> id +:+ ".json" ->
                Filesystem.meta (snd (Filesystem.Delete id d)) !! k
                = Filesystem.meta d !! k)))
  /\ (forall id s,
      S3Storage.bucket (snd (S3Storage.Delete id s)) ⊆ S3Storage.bucket s
      /\ forall k, k <> S3Storage.fileKey id -> k <> S3Storage.metaKey id ->
           S3Storage.bucket (snd (S3Storage.Delete id s)) !! k
           = S3Storage.bucket s !! k)
  /\ (forall id fs ms a b rest,
      Filesystem.Delete id (Filesystem.mkDisk fs ms (Fails a :: Fails b :: rest))
      = (None, Filesystem.mkDisk fs ms rest))
  /\ (forall id bk a b rest,
      S3Storage.Delete id (S3Storage.mkStore bk (Fails a :: Fails b :: rest))
      = (None, S3Storage.mkStore bk rest)).
Proof.
  split_and!.
  - intros id d. pose proof (Delete_frame id d) as (Hf & Hm & Hff & Hfm).
    by split_and!.
  - intros id s. apply s3_Delete_frame.
  - done.
  - done.
Qed.

Lemma Delete_touches_only_its_id_witness :
  Filesystem.files (snd (Filesystem.Delete (ID TwoUploads.newer) TwoUploads.disk))
    !! ID TwoUploads.older
  = Filesystem.files TwoUploads.disk !! ID TwoUploads.older.
Proof.
  apply (proj1 (proj2 (proj2 (proj1 Delete_touches_only_its_id
                                (ID TwoUploads.newer) TwoUploads.disk))
                  eq_refl)).
  discriminate.
Defined.

(** ** Records and their ids *)

Lemma stored_functional `{JSON} d id a b :
  Filesystem.stored d id a -> Filesystem.stored d id b -> a = b.
Proof. intros (bs & Hm & Hu) (bs' & Hm' & Hu'). congruence. Qed.

Lemma s3_stored_functional `{JSON} s id a b :
  S3Storage.stored s id a -> S3Storage.stored s id b -> a = b.
Proof. intros (bs & Hm & Hu) (bs' & Hm' & Hu'). congruence. Qed.

Lemma stored_subseteq `{JSON} d d' id item :
  Filesystem.meta d' ⊆ Filesystem.meta d ->
  Filesystem.stored d' id item -> Filesystem.stored d id item.
Proof.
  intros Hsub (bs & Hm & Hu). exists bs. split; [|done].
  by eapply lookup_weaken.
Qed.

Lemma s3_stored_subseteq `{JSON} s s' id item :
  S3Storage.bucket s' ⊆ S3Storage.bucket s ->
  S3Storage.stored s' id item -> S3Storage.stored s id item.
Proof.
  intros Hsub (bs & Hm & Hu). exists bs. split; [|done].
  by eapply lookup_weaken.
Qed.

Lemma item_of_ID `{MimeDB} {S} (f : davWriteFile.t) (w : world S) :
  ID (item_of f w) = fst (generateID w).
Proof. done. Qed.

Lemma nothing_stored_on_empty `{JSON} sc id item :
  ~ Filesystem.stored (Filesystem.mkDisk ∅ ∅ sc) id item.
Proof. intros (bs & Hm & _). simpl in Hm. by rewrite lookup_empty in Hm. Qed.

Lemma fs_keyed_empty `{JSON} sc : fs_keyed_by_ID (Filesystem.mkDisk ∅ ∅ sc).
Proof. intros id item Hst. by destruct (nothing_stored_on_empty sc id item). Qed.

Lemma s3_keyed_empty `{JSON} sc : s3_keyed_by_ID (S3Storage.mkStore ∅ sc).
Proof. intros id item (bs & Hm & _). simpl in Hm. by rewrite lookup_empty in Hm. Qed.

Lemma fs_keyed_after_Put `{JSON} id content item d r d1 :
  Filesystem.Put id content item d = (r, d1) -> put_err r = None ->
  ID item = id -> json_string id = id ->
  fs_keyed_by_ID d -> fs_keyed_by_ID d1.
Proof.
  intros HPut Hok Hid Hjson Hk id' item' Hst.
  apply (stored_after_Put _ _ _ _ _ _ HPut Hok) in Hst as [[-> ->]|[_ Hst]];
    [simpl; by rewrite Hid | by apply Hk].
Qed.

Lemma s3_keyed_after_Put `{JSON} id content item s r s1 :
  S3Storage.Put id content item s = (r, s1) -> put_err r = None ->
  ID item = id -> json_string id = id ->
  s3_keyed_by_ID s -> s3_keyed_by_ID s1.
Proof.
  intros HPut Hok Hid Hjson Hk id' item' Hst.
  apply (s3_stored_after_Put _ _ _ _ _ _ HPut Hok) in Hst as [[-> ->]|[_ Hst]];
    [simpl; by rewrite Hid | by apply Hk].
Qed.

(** X6.  The stores the adapter builds keep every record under its own
    [ID]: an empty store does, a [Close] that reports no error keeps it so,
    and so do [Delete] and [RemoveAll] whatever fails; on either backend. *)
Theorem records_stay_under_their_ID `{JSON} `{SortSlice} `{MimeDB} :
  (fs_keyed_by_ID (Filesystem.mkDisk ∅ ∅ [])
   /\ (forall f (w : world Filesystem.disk) f1 w1,
         davWriteFile.closed f = false ->
         davWriteFile.Close f w = (None, f1, w1) ->
         fs_keyed_by_ID (store w) -> fs_keyed_by_ID (store w1))
   /\ (forall id d,
         fs_keyed_by_ID d -> fs_keyed_by_ID (snd (Filesystem.Delete id d)))
   /\ (forall token name (w : world Filesystem.disk),
         fs_keyed_by_ID (store w) ->
         fs_keyed_by_ID (store (snd (WebDAVHandler.RemoveAll token name w)))))
  /\ (s3_keyed_by_ID (S3Storage.mkStore ∅ [])
      /\ (forall f (w : world S3Storage.store) f1 w1,
            davWriteFile.closed f = false ->
            davWriteFile.Close f w = (None, f1, w1) ->
            s3_keyed_by_ID (store w) -> s3_keyed_by_ID (store w1))
      /\ (forall id s,
            s3_keyed_by_ID s -> s3_keyed_by_ID (snd (S3Storage.Delete id s)))
      /\ (forall token name (w : world S3Storage.store),
            s3_keyed_by_ID (store w) ->
            s3_keyed_by_ID (store (snd (WebDAVHandler.RemoveAll token name w))))).
Proof.
  split; split_and!.
  - apply fs_keyed_empty.
  - intros f w f1 w1 Hopen HClose Hk.
    destruct (Close_store f w None f1 w1 Hopen HClose) as (r & HPut & Hok).
    simpl in HPut.
    by apply (fs_keyed_after_Put _ _ _ _ _ _ HPut (eq_sym Hok) eq_refl (generateID_json w)).
  - intros id d Hk id' item Hst. apply Hk.
    eapply stored_subseteq; [|done]. apply Delete_frame.
  - intros token name w Hk id item Hst. apply Hk.
    revert Hst. unfold WebDAVHandler.RemoveAll.
    destruct (WebDAVHandler.is_root _); [done|].
    unfold WebDAVHandler.findByFilename. simpl.
    pose proof (List_reads token (store w)) as [_ Hm].
    destruct (Filesystem.List token (store w)) as [[err|items] d1]; simpl in *.
    { unfold Filesystem.stored. simpl. by rewrite Hm. }
    destruct (WebDAVHandler.first_named _ items) as [it|]; simpl.
    2:{ unfold Filesystem.stored. simpl. by rewrite Hm. }
    destruct (negb _); simpl.
    { unfold Filesystem.stored. simpl. by rewrite Hm. }
    pose proof (Delete_frame (ID it) d1) as (_ & Hsub & _).
    destruct (Filesystem.Delete (ID it) d1) as [e d2]; simpl in *.
    intros Hst. apply (stored_subseteq _ _ _ _ Hsub) in Hst.
    revert Hst. unfold Filesystem.stored. by rewrite Hm.
  - apply s3_keyed_empty.
  - intros f w f1 w1 Hopen HClose Hk.
    destruct (Close_store f w None f1 w1 Hopen HClose) as (r & HPut & Hok).
    simpl in HPut.
    by apply (s3_keyed_after_Put _ _ _ _ _ _ HPut (eq_sym Hok) eq_refl (generateID_json w)).
  - intros id s Hk id' item Hst. apply Hk.
    eapply s3_stored_subseteq; [|done]. apply s3_Delete_frame.
  - intros token name w Hk id item Hst. apply Hk.
    revert Hst. unfold WebDAVHandler.RemoveAll.
    destruct (WebDAVHandler.is_root _); [done|].
    unfold WebDAVHandler.findByFilename. simpl.
    pose proof (s3_List_reads token (store w)) as Hm.
    destruct (S3Storage.List token (store w)) as [[err|items] d1]; simpl in *.
    { unfold S3Storage.stored. simpl. by rewrite Hm. }
    destruct (WebDAVHandler.first_named _ items) as [it|]; simpl.
    2:{ unfold S3Storage.stored. simpl. by rewrite Hm. }
    destruct (negb _); simpl.
    { unfold S3Storage.stored. simpl. by rewrite Hm. }
    pose proof (s3_Delete_frame (ID it) d1) as (Hsub & _).
    destruct (S3Storage.Delete (ID it) d1) as [e d2]; simpl in *.
    intros Hst. apply (s3_stored_subseteq _ _ _ _ Hsub) in Hst.
    revert Hst. unfold S3Storage.stored. by rewrite Hm.
Qed.

Lemma records_stay_under_their_ID_witness :
  fs_keyed_by_ID (H := Reference.json)
    (store (snd (davWriteFile.Close (H := Scenario.fs_backend) (H0 := Reference.mimedb)
                   empty_txt fs_upload_world))).
Proof.
  pose proof (proj1 (@records_stay_under_their_ID
                       Reference.json Reference.sort Reference.mimedb))
    as (Hempty & HClose & _).
  apply (HClose empty_txt fs_upload_world
           (snd (fst (davWriteFile.Close (H := Scenario.fs_backend)
                        (H0 := Reference.mimedb) empty_txt fs_upload_world)))).
  - reflexivity.
  - vm_compute. reflexivity.
  - exact Hempty.
Defined.

(** The concrete stores keep their records under their ids. *)
Lemma TwoUploads_puts_succeed :
  put_err (fst (Filesystem.Put (H := Reference.json) (ID TwoUploads.older)
                  TwoUploads.v1 TwoUploads.older Scenario.disk0)) = None
  /\ put_err (fst (Filesystem.Put (H := Reference.json) (ID TwoUploads.newer)
                     TwoUploads.v2 TwoUploads.newer
                     (snd (Filesystem.Put (H := Reference.json) (ID TwoUploads.older)
                             TwoUploads.v1 TwoUploads.older Scenario.disk0)))) = None.
Proof. split; vm_compute; reflexivity. Qed.

Lemma TwoUploads_disk_stored id other :
  Filesystem.stored (H := Reference.json) TwoUploads.disk id other ->
  other = set_Size 3 TwoUploads.newer \/ other = set_Size 2 TwoUploads.older.
Proof.
  destruct TwoUploads_puts_succeed as [H1 H2]. intros Hst.
  apply (stored_after_Put (H := Reference.json) _ _ _ _ _ _ (surjective_pairing _) H2)
    in Hst as [[_ ->]|[_ Hst]]; [by left|].
  apply (stored_after_Put (H := Reference.json) _ _ _ _ _ _ (surjective_pairing _) H1)
    in Hst as [[_ ->]|[_ Hst]]; [by right|].
  by destruct (nothing_stored_on_empty (H := Reference.json) [] id other).
Qed.

Lemma TwoUploads_disk_keyed : fs_keyed_by_ID (H := Reference.json) TwoUploads.disk.
Proof.
  destruct TwoUploads_puts_succeed as [H1 H2].
  apply (fs_keyed_after_Put (H := Reference.json) _ _ _ _ _ _
           (surjective_pairing _) H2 eq_refl eq_refl).
  apply (fs_keyed_after_Put (H := Reference.json) _ _ _ _ _ _
           (surjective_pairing _) H1 eq_refl eq_refl).
  apply fs_keyed_empty.
Qed.

Lemma Collision_disk_keyed : fs_keyed_by_ID (H := Reference.json) Collision.disk.
Proof.
  assert (H1 : put_err (fst (Filesystem.Put (H := Reference.json) Collision.id
                               TwoUploads.v1 Collision.bobs Scenario.disk0)) = None)
    by (vm_compute; reflexivity).
  apply (fs_keyed_after_Put (H := Reference.json) _ _ _ _ _ _
           (surjective_pairing _) H1 eq_refl eq_refl).
  apply fs_keyed_empty.
Qed.

(** ** Name resolution on the filesystem backend *)

Section FilesystemAdapter.
Context `{JSON} `{SortSlice}.

Lemma fs_findByFilename_calm token name (w : world Filesystem.disk) :
  Filesystem.calm (store w) ->
  exists n,
    snd (WebDAVHandler.findByFilename token name w)
    = set_store (Filesystem.later n (store w)) w.
Proof.
  intros Hc. unfold WebDAVHandler.findByFilename. simpl.
  destruct (List_calm token (store w) Hc) as (items & n & -> & _).
  exists n. by destruct (WebDAVHandler.first_named name items).
Qed.

Lemma lookup_meta_stored (d : Filesystem.disk) id item :
  Filesystem.stored d id item -> Filesystem.lookup_meta d id = inr item.
Proof. intros (bs & Hm & Hu). unfold Filesystem.lookup_meta. by rewrite Hm, Hu. Qed.

(** X7.  [Stat] on the filesystem backend, when nothing fails.  A path
    that is not the root resolves to the newest stored item of the owner
    that is listed under the cleaned path, and [Stat] reports that item's
    file name, size and creation time, as a regular file of mode 0644; when
    the owner has no item of that name it fails with [ErrNotExist].  The
    root is a directory of mode 0755, for any storage, which is not
    consulted. *)
Theorem Stat_reports_newest_of_name :
  (forall token name (w : world Filesystem.disk),
      Filesystem.calm (store w) ->
      WebDAVHandler.is_root (WebDAVHandler.cleanPath name) = false ->
      match fst (WebDAVHandler.Stat token name w) with
      | inr info =>
          exists id item,
            Filesystem.stored (store w) id item
            /\ OwnerToken item = token
            /\ WebDAVHandler.display_name item = WebDAVHandler.cleanPath name
            /\ (forall id' other,
                  Filesystem.stored (store w) id' other ->
                  OwnerToken other = token ->
                  WebDAVHandler.display_name other = WebDAVHandler.cleanPath name ->
                  (CreatedAt other <= CreatedAt item)%Z)
            /\ info = davFileInfo.mk (Filename item) (Size item) 420
                                     (CreatedAt item) false
      | inl err =>
          err = ErrNotExist
          /\ forall id other,
               Filesystem.stored (store w) id other -> OwnerToken other = token ->
               WebDAVHandler.display_name other <> WebDAVHandler.cleanPath name
      end)
  /\ (forall S (HS : Storage S) token name (w : world S),
      WebDAVHandler.is_root (WebDAVHandler.cleanPath name) = true ->
      WebDAVHandler.Stat token name w
      = (inr (davFileInfo.mk "/" 0 (Z.lor ModeDir 493) (now w) true), w)).
Proof.
  split.
  - intros token name w Hc Hroot. unfold WebDAVHandler.Stat. rewrite Hroot.
    pose proof (Filesystem_findByFilename_newest token (WebDAVHandler.cleanPath name) w Hc)
      as Hfind.
    destruct (WebDAVHandler.findByFilename token _ w) as [[err|item] w1];
      simpl in *; [done|].
    destruct Hfind as ((id & Hst) & Ho & Hname & Hnewest).
    exists id, item. by split_and!.
  - intros S HS token name w Hroot. unfold WebDAVHandler.Stat. by rewrite Hroot.
Qed.

(** X8.  [OpenFile] without write intent on the filesystem backend, when
    nothing fails and every record is stored under its own [ID].  For a
    path that is not the root it resolves the name as [findByFilename] does
    and returns a read handle at offset 0 over the blob stored under the
    [ID] of that item, with the item's file name, size and creation time.
    It fails with [ErrNotExist] when the name does not resolve, and also
    when it resolves but the blob is absent. *)
Theorem OpenFile_reads_blob_of_resolved_item :
  forall h token name flag perm (w : world Filesystem.disk),
    Filesystem.calm (store w) ->
    fs_keyed_by_ID (store w) ->
    WebDAVHandler.is_root (WebDAVHandler.cleanPath name) = false ->
    WebDAVHandler.write_intent flag = false ->
    fst (WebDAVHandler.OpenFile h token name flag perm w)
    = match fst (WebDAVHandler.findByFilename token (WebDAVHandler.cleanPath name) w) with
      | inl _ => inl ErrNotExist
      | inr item =>
          match Filesystem.files (store w) !! ID item with
          | Some data =>
              inr (ReadFile (davFile.mk
                     (davFileInfo.mk (Filename item) (Size item) 420
                                     (CreatedAt item) false)
                     data 0))
          | None => inl ErrNotExist
          end
      end.
Proof.
  intros h token name flag perm w Hc Hk Hroot Hflag.
  unfold WebDAVHandler.OpenFile, WebDAVHandler.openFile. rewrite Hroot, Hflag.
  pose proof (Filesystem_findByFilename_newest token (WebDAVHandler.cleanPath name) w Hc)
    as Hfind.
  destruct (fs_findByFilename_calm token (WebDAVHandler.cleanPath name) w Hc)
    as [n Hw].
  destruct (WebDAVHandler.findByFilename token _ w) as [[err|item] w1];
    simpl in *.
  { by destruct Hfind as [-> _]. }
  subst w1. simpl.
  destruct Hfind as ((id & Hst) & _).
  pose proof (Hk id item Hst) as Hid. subst id.
  destruct (Get_calm (ID item) (Filesystem.later n (store w))
              (calm_later n _ Hc)) as [m ->].
  simpl. change (Filesystem.lookup_meta (Filesystem.later n (store w)) (ID item))
    with (Filesystem.lookup_meta (store w) (ID item)).
  rewrite (lookup_meta_stored _ _ _ Hst).
  by destruct (Filesystem.files (store w) !! ID item).
Qed.

End FilesystemAdapter.

Lemma OpenFile_reads_blob_of_resolved_item_witness :
  fst (WebDAVHandler.OpenFile (H := Scenario.fs_backend) (WebDAVHandler.mk 0)
         "alice" "/notes.txt" O_RDONLY 0 TwoUploads.fs_world)
  = inr (ReadFile (davFile.mk
           (davFileInfo.mk "notes.txt" 3 420 (CreatedAt TwoUploads.newer) false)
           TwoUploads.v2 0)).
Proof.
  etrans.
  - apply (@OpenFile_reads_blob_of_resolved_item Reference.json Reference.sort
             (WebDAVHandler.mk 0) "alice" "/notes.txt" O_RDONLY 0 TwoUploads.fs_world).
    + vm_compute. constructor.
    + exact TwoUploads_disk_keyed.
    + reflexivity.
    + reflexivity.
  - vm_compute. reflexivity.
Defined.

Lemma Stat_reports_newest_of_name_witness :
  match fst (WebDAVHandler.Stat (H := Scenario.fs_backend)
               "alice" "/notes.txt" TwoUploads.fs_world) with
  | inr info =>
      exists id item,
        Filesystem.stored (H := Reference.json) (store TwoUploads.fs_world) id item
        /\ OwnerToken item = "alice"
        /\ WebDAVHandler.display_name item = WebDAVHandler.cleanPath "/notes.txt"
        /\ (forall id' other,
              Filesystem.stored (H := Reference.json) (store TwoUploads.fs_world) id' other ->
              OwnerToken other = "alice" ->
              WebDAVHandler.display_name other = WebDAVHandler.cleanPath "/notes.txt" ->
              (CreatedAt other <= CreatedAt item)%Z)
        /\ info = davFileInfo.mk (Filename item) (Size item) 420 (CreatedAt item) false
  | inl err =>
      err = ErrNotExist
      /\ forall id other,
           Filesystem.stored (H := Reference.json) (store TwoUploads.fs_world) id other ->
           OwnerToken other = "alice" ->
           WebDAVHandler.display_name other <> WebDAVHandler.cleanPath "/notes.txt"
  end.
Proof.
  apply (proj1 (@Stat_reports_newest_of_name Reference.json Reference.sort)
           "alice" "/notes.txt" TwoUploads.fs_world).
  - vm_compute. constructor.
  - reflexivity.
Defined.

Section FilesystemSessions.
Context `{JSON} `{SortSlice} `{MimeDB}.

Lemma is_root_false_nonempty name :
  WebDAVHandler.is_root name = false -> String.eqb name "" = false.
Proof. unfold WebDAVHandler.is_root. by intros [? ?]%orb_false_elim. Qed.

(** X9.  An upload through the adapter reads back, on the filesystem
    backend when nothing fails, when the name and the token are valid
    UTF-8.  Opening a path other than the root with write intent, writing
    bytes the cap allows and closing without error stores them so that, when
    every item the owner already has under that name is older than the
    clock, opening the same path for reading returns exactly those bytes,
    and both that handle and [Stat] report the cleaned path as name, the
    number of bytes as size and the time of the [Close].  A name that is not
    valid UTF-8 is not kept: [encoding/json] stores it with U+FFFD in the
    place of every offending byte, so that after the same upload, when the
    owner had no item under the name, [Stat] and the opening for reading
    fail with [ErrNotExist]. *)
Theorem upload_then_read_roundtrip :
  forall h token name flag perm perm' (w : world Filesystem.disk) (p : list byte),
    Filesystem.calm (store w) ->
    WebDAVHandler.is_root (WebDAVHandler.cleanPath name) = false ->
    WebDAVHandler.write_intent flag = true ->
    (WebDAVHandler.maxFileSize h <= 0 \/ len p <= WebDAVHandler.maxFileSize h)%Z ->
    (len p <= max_int)%Z ->
    exists f0 f1 err f2 w2,
      WebDAVHandler.OpenFile h token name flag perm w = (inr (WriteFile f0), w)
      /\ davWriteFile.Write f0 p w = ((len p, None), f1, w)
      /\ davWriteFile.Close f1 w = (err, f2, w2)
      /\ (err = None ->
          utf8_ValidString (WebDAVHandler.cleanPath name) = true ->
          utf8_ValidString token = true ->
          (forall id other,
              Filesystem.stored (store w) id other -> OwnerToken other = token ->
              WebDAVHandler.display_name other = WebDAVHandler.cleanPath name ->
              (CreatedAt other < now w)%Z) ->
          let info := davFileInfo.mk (WebDAVHandler.cleanPath name) (len p) 420
                                     (now w) false in
          fst (WebDAVHandler.OpenFile h token name O_RDONLY perm' w2)
          = inr (ReadFile (davFile.mk info p 0))
          /\ fst (WebDAVHandler.Stat token name w2) = inr info)
      /\ (err = None ->
          json_string (WebDAVHandler.cleanPath name) <> WebDAVHandler.cleanPath name ->
          (forall id other,
              Filesystem.stored (store w) id other -> OwnerToken other = token ->
              WebDAVHandler.display_name other <> WebDAVHandler.cleanPath name) ->
          fst (WebDAVHandler.OpenFile h token name O_RDONLY perm' w2) = inl ErrNotExist
          /\ fst (WebDAVHandler.Stat token name w2) = inl ErrNotExist).
Proof.
  intros h token name flag perm perm' w p Hc Hroot Hflag Hcap Hlen.
  set (name' := WebDAVHandler.cleanPath name) in *.
  set (f1 := davWriteFile.mk name' token p (WebDAVHandler.maxFileSize h) false).
  destruct (davWriteFile.Close f1 w) as [[err f2] w2] eqn:HClose.
  exists (fresh_handle h token name'), f1, err, f2, w2. split_and!; [| |done| |].
  - unfold WebDAVHandler.OpenFile. fold name'. by rewrite Hroot, Hflag.
  - unfold davWriteFile.Write, fresh_handle, int_add. simpl.
    pose proof (len_nonneg p).
    rewrite wrap_id by (unfold len, min_int, max_int in *; simpl; lia).
    change (len []) with 0%Z. rewrite Z.add_0_l.
    destruct (Z.ltb_spec 0 (WebDAVHandler.maxFileSize h)); simpl; [|done].
    destruct (Z.ltb_spec (WebDAVHandler.maxFileSize h) (len p)); [lia|done].
  - intros -> Hvname Hvtoken Holder info.
    destruct (Close_store f1 w None f2 w2 eq_refl HClose) as (r & HPut & Hok).
    simpl in HPut. symmetry in Hok.
    set (id := fst (generateID w)) in *.
    set (new := json_item (set_Size (len p) (item_of f1 w))).
    pose proof (Put_calm_after _ _ _ _ _ _ HPut Hc) as Hc2.
    pose proof (stored_after_Put _ _ _ _ _ _ HPut Hok) as Hst.
    assert (Hnew : Filesystem.stored (store w2) id new) by (apply Hst; by left).
    assert (Hblob : Filesystem.files (store w2) !! id = Some p).
    { destruct (Put_ok _ _ _ _ _ _ HPut Hok) as (bs & _ & -> & _). simpl.
      apply lookup_insert_eq. }
    assert (Hfields : ID new = id /\ Filename new = name'
                      /\ Size new = len p /\ CreatedAt new = now w
                      /\ OwnerToken new = token).
    { unfold new. cbn [json_item set_Size item_of ID Filename Size CreatedAt OwnerToken
                         davWriteFile.name davWriteFile.token f1].
      split_and!; try done.
      - apply generateID_json.
      - by apply json_string_valid.
      - by apply json_string_valid. }
    destruct Hfields as (HID & HFilename & HSize & HCreatedAt & HOwner).
    assert (Hname : WebDAVHandler.display_name new = name').
    { unfold WebDAVHandler.display_name. rewrite HFilename.
      by rewrite (is_root_false_nonempty _ Hroot). }
    pose proof (Filesystem_findByFilename_newest token name' w2 Hc2) as Hfind.
    destruct (fs_findByFilename_calm token name' w2 Hc2) as [n Hw].
    assert (Hres : WebDAVHandler.findByFilename token name' w2
                   = (inr new, set_store (Filesystem.later n (store w2)) w2)).
    { destruct (WebDAVHandler.findByFilename token name' w2) as [[e|item] w3];
        simpl in Hw, Hfind; subst w3.
      - destruct Hfind as [_ Hnone]. by destruct (Hnone id new Hnew).
      - destruct Hfind as ((id' & Hst') & Ho & Hn & Hnewest).
        pose proof (Hnewest id new Hnew HOwner Hname) as Hle.
        apply Hst in Hst' as [[_ ->]|[_ Hold]]; [done|].
        pose proof (Holder id' item Hold Ho Hn). rewrite HCreatedAt in Hle. lia. }
    clearbody new. clearbody id. subst info. split.
    + unfold WebDAVHandler.OpenFile, WebDAVHandler.openFile. fold name'.
      rewrite Hroot. change (WebDAVHandler.write_intent O_RDONLY) with false.
      cbv iota. rewrite Hres, HID, HFilename, HSize, HCreatedAt. simpl.
      destruct (Get_calm id (Filesystem.later n (store w2)) (calm_later n _ Hc2))
        as [m ->].
      simpl. change (Filesystem.lookup_meta (Filesystem.later n (store w2)) id)
        with (Filesystem.lookup_meta (store w2) id).
      by rewrite (lookup_meta_stored _ _ _ Hnew), Hblob.
    + unfold WebDAVHandler.Stat. fold name'.
      by rewrite Hroot, Hres, HFilename, HSize, HCreatedAt.
  - intros -> Hreplaced Hnone.
    destruct (Close_store f1 w None f2 w2 eq_refl HClose) as (r & HPut & Hok).
    simpl in HPut. symmetry in Hok.
    pose proof (Put_calm_after _ _ _ _ _ _ HPut Hc) as Hc2.
    pose proof (stored_after_Put _ _ _ _ _ _ HPut Hok) as Hst.
    pose proof (Filesystem_findByFilename_newest token name' w2 Hc2) as Hfind.
    assert (Hres : fst (WebDAVHandler.findByFilename token name' w2) = inl ErrNotExist).
    { destruct (WebDAVHandler.findByFilename token name' w2) as [[e|item] w3];
        simpl in *.
      - destruct Hfind as [-> _]. done.
      - destruct Hfind as ((id' & Hst') & Ho & Hn & _).
        apply Hst in Hst' as [[_ ->]|[_ Hold]].
        + exfalso. revert Hn. unfold WebDAVHandler.display_name.
          cbn [json_item set_Size item_of Filename ID davWriteFile.name f1].
          destruct (String.eqb_spec (json_string name') "") as [Hempty|_].
          * intros _. apply Hreplaced. rewrite Hempty.
            destruct name' as [|c name'']; [done|].
            exfalso. revert Hempty. unfold json_string. cbn [json_string_from].
            by destruct (utf8_width _).
          * done.
        + by destruct (Hnone id' item Hold Ho). }
    split.
    + unfold WebDAVHandler.OpenFile, WebDAVHandler.openFile. fold name'.
      rewrite Hroot. change (WebDAVHandler.write_intent O_RDONLY) with false.
      cbv iota. destruct (WebDAVHandler.findByFilename token name' w2) as [[e|item] w3];
        simpl in *; [by injection Hres as -> | discriminate].
    + unfold WebDAVHandler.Stat. fold name'. rewrite Hroot.
      destruct (WebDAVHandler.findByFilename token name' w2) as [[e|item] w3];
        simpl in *; [by injection Hres as -> | discriminate].
Qed.

End FilesystemSessions.

Lemma upload_then_read_roundtrip_witness :
  (exists f0 f1 err f2 w2,
    WebDAVHandler.OpenFile (H := Scenario.fs_backend) (WebDAVHandler.mk 0)
      "alice" "/notes.txt" (Z.lor O_RDWR (Z.lor O_CREATE O_TRUNC)) 0 TwoUploads.fs_world
    = (inr (WriteFile f0), TwoUploads.fs_world)
    /\ davWriteFile.Write f0 TwoUploads.v3 TwoUploads.fs_world
       = ((len TwoUploads.v3, None), f1, TwoUploads.fs_world)
    /\ davWriteFile.Close (H := Scenario.fs_backend) (H0 := Reference.mimedb)
         f1 TwoUploads.fs_world = (err, f2, w2)
    /\ err = None
    /\ fst (WebDAVHandler.OpenFile (H := Scenario.fs_backend) (WebDAVHandler.mk 0)
              "alice" "/notes.txt" O_RDONLY 0 w2)
       = inr (ReadFile (davFile.mk
                (davFileInfo.mk "notes.txt" 2 420 (now TwoUploads.fs_world) false)
                TwoUploads.v3 0)))
  /\ (exists f0 f1 err f2 w2,
    WebDAVHandler.OpenFile (H := Scenario.fs_backend) (WebDAVHandler.mk 0)
      "alice" ("/" +:+ latin_name) (Z.lor O_RDWR (Z.lor O_CREATE O_TRUNC)) 0
      TwoUploads.fs_world
    = (inr (WriteFile f0), TwoUploads.fs_world)
    /\ davWriteFile.Write f0 TwoUploads.v3 TwoUploads.fs_world
       = ((len TwoUploads.v3, None), f1, TwoUploads.fs_world)
    /\ davWriteFile.Close (H := Scenario.fs_backend) (H0 := Reference.mimedb)
         f1 TwoUploads.fs_world = (err, f2, w2)
    /\ err = None
    /\ fst (WebDAVHandler.Stat (H := Scenario.fs_backend) "alice"
              ("/" +:+ latin_name) w2) = inl ErrNotExist).
Proof.
  split.
  - destruct (@upload_then_read_roundtrip Reference.json Reference.sort Reference.mimedb
           (WebDAVHandler.mk 0) "alice" "/notes.txt"
           (Z.lor O_RDWR (Z.lor O_CREATE O_TRUNC)) 0 0 TwoUploads.fs_world TwoUploads.v3)
      as (f0 & f1 & err & f2 & w2 & Hopen & Hwrite & Hclose & Hread & _).
    + vm_compute. constructor.
    + reflexivity.
    + reflexivity.
    + left. vm_compute. discriminate.
    + vm_compute. discriminate.
    + assert (Herr : err = None).
      { injection Hopen as <-. injection Hwrite as <-.
        vm_compute in Hclose. by injection Hclose as <- _ _. }
      exists f0, f1, err, f2, w2. split_and!; try done.
      apply Hread; [done | reflexivity | reflexivity |].
      intros id other Hst _ _.
      apply TwoUploads_disk_stored in Hst as [->| ->]; vm_compute; reflexivity.
  - destruct (@upload_then_read_roundtrip Reference.json Reference.sort Reference.mimedb
           (WebDAVHandler.mk 0) "alice" ("/" +:+ latin_name)
           (Z.lor O_RDWR (Z.lor O_CREATE O_TRUNC)) 0 0 TwoUploads.fs_world TwoUploads.v3)
      as (f0 & f1 & err & f2 & w2 & Hopen & Hwrite & Hclose & _ & Hlost).
    + vm_compute. constructor.
    + reflexivity.
    + reflexivity.
    + left. vm_compute. discriminate.
    + vm_compute. discriminate.
    + assert (Herr : err = None).
      { injection Hopen as <-. injection Hwrite as <-.
        vm_compute in Hclose. by injection Hclose as <- _ _. }
      exists f0, f1, err, f2, w2. split_and!; try done.
      apply Hlost; [done | vm_compute; discriminate |].
      intros id other Hst _.
      apply TwoUploads_disk_stored in Hst as [->| ->]; vm_compute; discriminate.
Defined.

Lemma first_named_elem name items item :
  WebDAVHandler.first_named name items = Some item -> item ∈ items.
Proof.
  induction items as [|a items IH]; simpl; [done|].
  destruct (String.eqb (WebDAVHandler.display_name a) name).
  - intros [= <-]. apply elem_of_cons. by left.
  - intros Hf. apply elem_of_cons. right. by apply IH.
Qed.

Section Removal.
Context `{JSON} `{SortSlice}.

(** X10.  [RemoveAll] on the filesystem backend, when nothing fails and
    every record is stored under its own [ID].  For a path that is not the
    root it resolves the name as [findByFilename] does; it then removes the
    blob and the record of that item, so that the item is no longer stored
    and all other records are, and reports no error.  When the name does
    not resolve it fails with [ErrNotExist] and removes nothing.  For the
    root it fails with [ErrPermission], whatever the storage, which it does
    not consult. *)
Theorem RemoveAll_removes_resolved_item :
  (forall token name (w : world Filesystem.disk),
      Filesystem.calm (store w) ->
      fs_keyed_by_ID (store w) ->
      WebDAVHandler.is_root (WebDAVHandler.cleanPath name) = false ->
      let w' := snd (WebDAVHandler.RemoveAll token name w) in
      match fst (WebDAVHandler.findByFilename token (WebDAVHandler.cleanPath name) w) with
      | inr item =>
          fst (WebDAVHandler.RemoveAll token name w) = None
          /\ Filesystem.files (store w') = delete (ID item) (Filesystem.files (store w))
          /\ Filesystem.meta (store w')
             = delete (ID item +:+ ".json") (Filesystem.meta (store w))
          /\ (forall id, ~ Filesystem.stored (store w') id item)
          /\ (forall id other,
                other <> item ->
                Filesystem.stored (store w') id other
                <-> Filesystem.stored (store w) id other)
      | inl _ =>
          fst (WebDAVHandler.RemoveAll token name w) = Some ErrNotExist
          /\ same_files (store w) (store w')
      end)
  /\ (forall S (HS : Storage S) token name (w : world S),
      WebDAVHandler.is_root (WebDAVHandler.cleanPath name) = true ->
      WebDAVHandler.RemoveAll token name w = (Some ErrPermission, w)).
Proof.
  split.
  - intros token name w Hc Hk Hroot w'. subst w'.
    unfold WebDAVHandler.RemoveAll. rewrite Hroot.
    pose proof (Filesystem_findByFilename_newest token (WebDAVHandler.cleanPath name) w Hc)
      as Hfind.
    destruct (fs_findByFilename_calm token (WebDAVHandler.cleanPath name) w Hc)
      as [n Hw].
    destruct (WebDAVHandler.findByFilename token _ w) as [[err|item] w1];
      simpl in *; subst w1.
    { destruct Hfind as [-> _]. by split. }
    destruct Hfind as ((id0 & Hst0) & Ho & _).
    pose proof (Hk id0 item Hst0) as Hid. subst id0.
    rewrite Ho, String.eqb_refl. simpl.
    rewrite (Delete_calm (ID item) (Filesystem.later n (store w)))
      by by apply calm_later.
    simpl. split_and!; try done.
    + intros id (bs & Hm & Hu). simpl in Hm.
      apply lookup_delete_Some in Hm as [Hne Hm].
      apply Hne. f_equal. apply Hk. by exists bs.
    + intros id other Hother. unfold Filesystem.stored. simpl.
      destruct (decide (id = ID item)) as [->|Hne].
      * rewrite lookup_delete_eq. split.
        -- by intros (bs & ? & _).
        -- intros Hst. destruct Hother. by eapply stored_functional.
      * rewrite lookup_delete_ne; [done|].
        intros Heq. by apply app_inj_l in Heq.
  - intros S HS token name w Hroot. unfold WebDAVHandler.RemoveAll. by rewrite Hroot.
Qed.

(** X11.  [RemoveAll] never removes the upload of another owner.  On
    either backend, whatever path is given and whatever calls fail, when
    every record is stored under its own [ID], a record that does not carry
    the token of the request is stored afterwards as before, and so is its
    blob. *)
Theorem RemoveAll_spares_other_owners :
  (forall token name (w : world Filesystem.disk) id item,
      fs_keyed_by_ID (store w) ->
      Filesystem.stored (store w) id item -> OwnerToken item <> token ->
      let w' := snd (WebDAVHandler.RemoveAll token name w) in
      Filesystem.stored (store w') id item
      /\ Filesystem.files (store w') !! id = Filesystem.files (store w) !! id)
  /\ (forall token name (w : world S3Storage.store) id item,
      s3_keyed_by_ID (store w) ->
      S3Storage.stored (store w) id item -> OwnerToken item <> token ->
      let w' := snd (WebDAVHandler.RemoveAll token name w) in
      S3Storage.stored (store w') id item
      /\ S3Storage.bucket (store w') !! S3Storage.fileKey id
         = S3Storage.bucket (store w) !! S3Storage.fileKey id).
Proof.
  split.
  - intros token name w id item Hk Hst Hother w'. subst w'.
    unfold WebDAVHandler.RemoveAll.
    destruct (WebDAVHandler.is_root _); [done|].
    unfold WebDAVHandler.findByFilename. simpl.
    pose proof (List_reads token (store w)) as [Hf Hm].
    destruct (Filesystem.List token (store w)) as [[err|items] d1] eqn:HL;
      simpl in *.
    { unfold Filesystem.stored. simpl. by rewrite Hm, Hf. }
    destruct (WebDAVHandler.first_named _ items) as [it|] eqn:Hfirst; simpl.
    2:{ unfold Filesystem.stored. simpl. by rewrite Hm, Hf. }
    destruct (negb _); simpl.
    { unfold Filesystem.stored. simpl. by rewrite Hm, Hf. }
    apply first_named_elem in Hfirst.
    destruct (proj1 (List_sound _ _ _ _ HL) it Hfirst) as [Ho (id0 & Hst0)].
    pose proof (Hk id0 it Hst0) as Hid.
    assert (Hne : id <> ID it).
    { intros ->. rewrite Hid in Hst. apply Hother.
      by rewrite (stored_functional _ _ _ _ Hst Hst0). }
    pose proof (Delete_frame (ID it) d1) as (_ & _ & Hff & Hfm).
    destruct (Filesystem.Delete (ID it) d1) as [e d2]; simpl in *.
    split.
    + destruct Hst as (bs & Hbs & Hu). exists bs. split; [|done]. simpl.
      rewrite Hfm, Hm; [done|]. intros Heq. by apply app_inj_l in Heq.
    + by rewrite Hff, Hf.
  - intros token name w id item Hk Hst Hother w'. subst w'.
    unfold WebDAVHandler.RemoveAll.
    destruct (WebDAVHandler.is_root _); [done|].
    unfold WebDAVHandler.findByFilename. simpl.
    pose proof (s3_List_reads token (store w)) as Hb.
    destruct (S3Storage.List token (store w)) as [[err|items] d1] eqn:HL;
      simpl in *.
    { unfold S3Storage.stored. simpl. by rewrite Hb. }
    destruct (WebDAVHandler.first_named _ items) as [it|] eqn:Hfirst; simpl.
    2:{ unfold S3Storage.stored. simpl. by rewrite Hb. }
    destruct (negb _); simpl.
    { unfold S3Storage.stored. simpl. by rewrite Hb. }
    apply first_named_elem in Hfirst.
    destruct (s3_List_sound _ _ _ _ HL it Hfirst) as [Ho (id0 & _ & Hst0)].
    pose proof (Hk id0 it Hst0) as Hid.
    assert (Hne : id <> ID it).
    { intros ->. rewrite Hid in Hst. apply Hother.
      by rewrite (s3_stored_functional _ _ _ _ Hst Hst0). }
    pose proof (s3_Delete_frame (ID it) d1) as (_ & Hframe).
    destruct (S3Storage.Delete (ID it) d1) as [e d2]; simpl in *.
    split.
    + destruct Hst as (bs & Hbs & Hu). exists bs. split; [|done]. simpl.
      rewrite Hframe, Hb; [done | apply not_eq_sym, fileKey_metaKey |].
      intros Heq. by apply metaKey_inj in Heq.
    + rewrite Hframe, Hb; [done | | apply fileKey_metaKey].
      unfold S3Storage.fileKey. intros [= Heq]. done.
Qed.

(** X12.  Opening the root on the filesystem backend, when nothing fails,
    returns a directory handle at position 0 whose children are one entry
    for each stored item of the owner and no other: the entry carries the
    item's file name (its [ID] when it has none), size and creation time, as
    a regular file of mode 0644.  The newest come first, whatever the flags
    of the call; the files are left alone. *)
Theorem root_lists_items_of_owner :
  forall h token name flag perm (w : world Filesystem.disk),
    Filesystem.calm (store w) ->
    WebDAVHandler.is_root (WebDAVHandler.cleanPath name) = true ->
    exists d w',
      WebDAVHandler.OpenFile h token name flag perm w = (inr (DirFile d), w')
      /\ same_files (store w) (store w')
      /\ davDir.pos d = 0%Z
      /\ davDir.info d = davFileInfo.mk "/" 0 (Z.lor ModeDir 493) (now w) true
      /\ (forall c, c ∈ davDir.children d <->
            exists id item,
              Filesystem.stored (store w) id item /\ OwnerToken item = token
              /\ c = davFileInfo.mk (WebDAVHandler.display_name item) (Size item)
                                    420 (CreatedAt item) false)
      /\ StronglySorted
           (fun a b => (davFileInfo.modTime b <= davFileInfo.modTime a)%Z)
           (davDir.children d).
Proof.
  intros h token name flag perm w Hc Hroot.
  unfold WebDAVHandler.OpenFile, WebDAVHandler.openRootDir. rewrite Hroot. simpl.
  destruct (List_calm token (store w) Hc) as (items & n & -> & Hin & Hsorted).
  eexists _, _. split; [done|]. simpl. split_and!; try done.
  - intros c. rewrite list_elem_of_fmap. split.
    + intros (item & -> & Hi). apply Hin in Hi as (id & Hst & Ho).
      by exists id, item.
    + intros (id & item & Hst & Ho & ->). exists item. split; [done|].
      apply Hin. by exists id.
  - clear Hin. induction Hsorted as [|a items Hs IH Ha]; simpl; constructor.
    + exact IH.
    + rewrite list.Forall_forall in Ha. apply list.Forall_forall.
      intros c (item & -> & Hi)%list_elem_of_fmap. simpl. by apply Ha.
Qed.

End Removal.

Lemma root_lists_items_of_owner_witness :
  exists d w',
    WebDAVHandler.OpenFile (H := Scenario.fs_backend) (WebDAVHandler.mk 0)
      "alice" "/" O_RDONLY 0 TwoUploads.fs_world = (inr (DirFile d), w')
    /\ same_files (store TwoUploads.fs_world) (store w')
    /\ davDir.pos d = 0%Z
    /\ davDir.info d
       = davFileInfo.mk "/" 0 (Z.lor ModeDir 493) (now TwoUploads.fs_world) true
    /\ (forall c, c ∈ davDir.children d <->
          exists id item,
            Filesystem.stored (H := Reference.json) (store TwoUploads.fs_world) id item
            /\ OwnerToken item = "alice"
            /\ c = davFileInfo.mk (WebDAVHandler.display_name item) (Size item)
                                  420 (CreatedAt item) false)
    /\ StronglySorted
         (fun a b => (davFileInfo.modTime b <= davFileInfo.modTime a)%Z)
         (davDir.children d).
Proof.
  apply (@root_lists_items_of_owner Reference.json Reference.sort
           (WebDAVHandler.mk 0) "alice" "/" O_RDONLY 0 TwoUploads.fs_world).
  - vm_compute. constructor.
  - reflexivity.
Defined.

Lemma RemoveAll_spares_other_owners_witness :
  let w' := snd (WebDAVHandler.RemoveAll (H := Scenario.fs_backend)
                   "alice" "/report.txt" Collision.w) in
  Filesystem.stored (H := Reference.json) (store w') Collision.id
    (set_Size 2 Collision.bobs)
  /\ Filesystem.files (store w') !! Collision.id
     = Filesystem.files (store Collision.w) !! Collision.id.
Proof.
  apply (proj1 (@RemoveAll_spares_other_owners Reference.json Reference.sort)
           "alice" "/report.txt" Collision.w Collision.id (set_Size 2 Collision.bobs)).
  - exact Collision_disk_keyed.
  - eexists. split; vm_compute; reflexivity.
  - discriminate.
Defined.

Lemma RemoveAll_removes_resolved_item_witness :
  let w' := snd (WebDAVHandler.RemoveAll (H := Scenario.fs_backend)
                   "alice" "/notes.txt" TwoUploads.fs_world) in
  match fst (WebDAVHandler.findByFilename (H := Scenario.fs_backend)
               "alice" (WebDAVHandler.cleanPath "/notes.txt") TwoUploads.fs_world) with
  | inr item =>
      fst (WebDAVHandler.RemoveAll (H := Scenario.fs_backend)
             "alice" "/notes.txt" TwoUploads.fs_world) = None
      /\ Filesystem.files (store w')
         = delete (ID item) (Filesystem.files (store TwoUploads.fs_world))
      /\ Filesystem.meta (store w')
         = delete (ID item +:+ ".json") (Filesystem.meta (store TwoUploads.fs_world))
      /\ (forall id, ~ Filesystem.stored (H := Reference.json) (store w') id item)
      /\ (forall id other,
            other <> item ->
            Filesystem.stored (H := Reference.json) (store w') id other
            <-> Filesystem.stored (H := Reference.json) (store TwoUploads.fs_world) id other)
  | inl _ =>
      fst (WebDAVHandler.RemoveAll (H := Scenario.fs_backend)
             "alice" "/notes.txt" TwoUploads.fs_world) = Some ErrNotExist
      /\ same_files (store TwoUploads.fs_world) (store w')
  end.
Proof.
  apply (proj1 (@RemoveAll_removes_resolved_item Reference.json Reference.sort)
           "alice" "/notes.txt" TwoUploads.fs_world).
  - vm_compute. constructor.
  - exact TwoUploads_disk_keyed.
  - reflexivity.
Defined.

(** ** Paging through a directory *)

Lemma Readdir_next (d : davDir.t) (count : Z) :
  (0 < count)%Z ->
  (0 <= davDir.pos d < len (davDir.children d))%Z ->
  (len (davDir.children d) <= max_int)%Z ->
  let m := Z.min count (len (davDir.children d) - davDir.pos d) in
  davDir.Readdir d count
  = Some ((take (Z.to_nat m) (drop (Z.to_nat (davDir.pos d)) (davDir.children d)), None),
          davDir.mk (davDir.info d) (davDir.children d) (davDir.pos d + m)).
Proof.
  intros Hcount Hpos Hlen m. subst m.
  destruct d as [info c p]; simpl in *.
  unfold davDir.Readdir; simpl.
  assert (Hsub : int_sub (len c) p = (len c - p)%Z).
  { apply wrap_id. unfold min_int, max_int in *. lia. }
  rewrite Hsub.
  destruct (Z.leb_spec (len c) p); [lia|].
  destruct (Z.leb_spec count 0); [lia|]. simpl.
  destruct (Z.ltb_spec (len c - p) count).
  - rewrite Z.min_r by lia.
    assert (Hadd : int_add p (len c - p) = (p + (len c - p))%Z).
    { apply wrap_id. unfold min_int, max_int in *. lia. }
    rewrite Hadd. by rewrite slice_take_drop by lia.
  - rewrite Z.min_l by lia.
    assert (Hadd : int_add p count = (p + count)%Z).
    { apply wrap_id. unfold min_int, max_int in *. lia. }
    rewrite Hadd. by rewrite slice_take_drop by lia.
Qed.

Lemma Readdir_until_EOF_enough fuel (d : davDir.t) (count : Z) :
  (0 < count)%Z ->
  (0 <= davDir.pos d <= len (davDir.children d))%Z ->
  (len (davDir.children d) <= max_int)%Z ->
  (len (davDir.children d) - davDir.pos d < Z.of_nat fuel)%Z ->
  Readdir_until_EOF fuel d count
  = Some (drop (Z.to_nat (davDir.pos d)) (davDir.children d),
          davDir.mk (davDir.info d) (davDir.children d) (len (davDir.children d))).
Proof.
  intros Hcount. revert d.
  induction fuel as [|fuel IH]; intros d Hpos Hlen Hfuel; [lia|].
  destruct (decide (davDir.pos d = len (davDir.children d))) as [Hend|Hmore].
  - destruct d as [info c p]; simpl in *. subst p.
    unfold davDir.Readdir; simpl.
    destruct (Z.leb_spec (len c) (len c)); [|lia].
    destruct (Z.leb_spec count 0); [lia|].
    rewrite drop_ge; [done|]. unfold len. lia.
  - simpl. rewrite Readdir_next by lia.
    set (m := Z.min count (len (davDir.children d) - davDir.pos d)).
    assert (Hm : (0 < m <= len (davDir.children d) - davDir.pos d)%Z) by lia.
    rewrite IH; simpl; [|lia..].
    f_equal. f_equal.
    replace (Z.to_nat (davDir.pos d + m))
      with (Z.to_nat (davDir.pos d) + Z.to_nat m)%nat by lia.
    rewrite <- drop_drop. apply take_drop.
Qed.

(** X13.  Paging through a directory handle with a positive count returns
    every child from the position on, each once and in order, and ends with
    [EOF] at the end of the children, without a panic; one call more than
    there are children is enough. *)
Theorem Readdir_pages_cover_the_children (d : davDir.t) (count : Z) :
  (0 < count)%Z ->
  (0 <= davDir.pos d <= len (davDir.children d))%Z ->
  (len (davDir.children d) <= max_int)%Z ->
  Readdir_until_EOF (S (length (davDir.children d))) d count
  = Some (drop (Z.to_nat (davDir.pos d)) (davDir.children d),
          davDir.mk (davDir.info d) (davDir.children d) (len (davDir.children d))).
Proof.
  intros Hcount Hpos Hlen. apply Readdir_until_EOF_enough; try done.
  unfold len in *. lia.
Qed.

Lemma Readdir_pages_cover_the_children_witness :
  Readdir_until_EOF 4 (dir_at 0) 2 = Some (three_children, dir_at 3).
Proof.
  apply (Readdir_pages_cover_the_children (dir_at 0) 2).
  - reflexivity.
  - vm_compute. split; discriminate.
  - vm_compute. discriminate.
Defined.

(** ** Tokens *)

Lemma byte_to_N_inj (a b : byte) : Byte.to_N a = Byte.to_N b -> a = b.
Proof.
  intros Heq. apply (f_equal Byte.of_N) in Heq.
  rewrite !Byte.of_to_N in Heq. by injection Heq.
Qed.

Lemma byte_below_256 (a : byte) : (0 <= Z.of_N (Byte.to_N a) < 2 ^ 8)%Z.
Proof. pose proof (Byte.to_N_bounded a). lia. Qed.

Lemma log2_below a n : (0 < n)%Z -> (0 <= a)%Z -> (a < 2 ^ n <-> Z.log2 a < n)%Z.
Proof.
  intros Hn Ha. destruct (decide (a = 0%Z)) as [->|Hne].
  - rewrite Z.log2_nonpos by lia. split; [lia|]. intros _. apply Z.pow_pos_nonneg; lia.
  - apply Z.log2_lt_pow2. lia.
Qed.

Lemma lor_below a b n :
  (0 < n)%Z -> (0 <= a < 2 ^ n)%Z -> (0 <= b < 2 ^ n)%Z -> (0 <= Z.lor a b < 2 ^ n)%Z.
Proof.
  intros Hn [Ha Ha'] [Hb Hb'].
  assert (H0 : (0 <= Z.lor a b)%Z) by (apply Z.lor_nonneg; lia).
  split; [done|]. apply log2_below; [done..|].
  rewrite Z.log2_lor by done.
  apply log2_below in Ha', Hb'; lia.
Qed.

Lemma lxor_below a b n :
  (0 < n)%Z -> (0 <= a < 2 ^ n)%Z -> (0 <= b < 2 ^ n)%Z -> (0 <= Z.lxor a b < 2 ^ n)%Z.
Proof.
  intros Hn [Ha Ha'] [Hb Hb'].
  assert (H0 : (0 <= Z.lxor a b)%Z) by (apply Z.lxor_nonneg; lia).
  split; [done|]. apply log2_below; [done..|].
  pose proof (Z.log2_lxor a b Ha Hb).
  apply log2_below in Ha', Hb'; lia.
Qed.

Lemma or_of_xors_below v x y :
  (0 <= v < 2 ^ 8)%Z -> (0 <= or_of_xors v x y < 2 ^ 8)%Z.
Proof.
  revert v y. induction x as [|a x IH]; intros v [|b y] Hv; simpl; try done.
  apply IH. apply lor_below; [lia | done |].
  apply lxor_below; [lia | apply byte_below_256..].
Qed.

Lemma or_of_xors_zero v x y :
  length x = length y -> (0 <= v)%Z ->
  or_of_xors v x y = 0%Z <-> v = 0%Z /\ x = y.
Proof.
  revert v y. induction x as [|a x IH]; intros v [|b y] Hlen Hv; simpl in *;
    try done.
  - by split; [|intros [? _]].
  - injection Hlen as Hlen.
    rewrite IH; [|done|].
    2:{ apply Z.lor_nonneg. split; [done|].
        apply Z.lxor_nonneg. pose proof (byte_below_256 a).
        pose proof (byte_below_256 b). lia. }
    rewrite Z.lor_eq_0_iff, Z.lxor_eq_0_iff. split.
    + intros [[-> Hab] ->]. split; [done|]. f_equal.
      apply byte_to_N_inj. lia.
    + intros [-> [= -> ->]]. done.
Qed.

Lemma ConstantTimeByteEq_zero v :
  (0 <= v < 2 ^ 8)%Z ->
  subtle_ConstantTimeByteEq v 0 = (if decide (v = 0%Z) then 1 else 0)%Z.
Proof.
  intros Hv. unfold subtle_ConstantTimeByteEq.
  rewrite Z.lxor_0_r, Z.shiftr_div_pow2 by lia.
  destruct (decide (v = 0%Z)) as [->|Hne]; [done|].
  rewrite Z.mod_small by lia. apply Z.div_small. lia.
Qed.

Lemma ConstantTimeCompare_spec x y :
  subtle_ConstantTimeCompare x y = (if decide (x = y) then 1 else 0)%Z.
Proof.
  unfold subtle_ConstantTimeCompare.
  destruct (Z.eqb_spec (len x) (len y)) as [Hlen|Hlen]; simpl.
  - rewrite ConstantTimeByteEq_zero by (apply or_of_xors_below; lia).
    assert (Hl : length x = length y) by (unfold len in Hlen; lia).
    pose proof (or_of_xors_zero 0 x y Hl (Z.le_refl 0)) as Hz.
    destruct (decide (or_of_xors 0 x y = 0%Z)) as [H0|H0];
      destruct (decide (x = y)) as [Hxy|Hxy]; try done.
    + by apply Hz in H0 as [_ ?].
    + destruct H0. by apply Hz.
  - destruct (decide (x = y)) as [->|]; done.
Qed.

Lemma list_byte_of_string_inj a b :
  list_byte_of_string a = list_byte_of_string b -> a = b.
Proof.
  intros Heq. apply (f_equal string_of_list_byte) in Heq.
  by rewrite !string_of_list_byte_of_string in Heq.
Qed.

Lemma token_in_spec tokens token : token_in tokens token = true <-> token ∈ tokens.
Proof.
  induction tokens as [|t tokens IH]; simpl.
  - split; [done|]. by intros ?%elem_of_nil.
  - rewrite ConstantTimeCompare_spec, elem_of_cons.
    destruct (decide (list_byte_of_string t = list_byte_of_string token)) as [Heq|Hne].
    + apply list_byte_of_string_inj in Heq. simpl. split; [by left | done].
    + simpl. rewrite IH. split; [by right|].
      intros [->|Hin]; [done | exact Hin].
Qed.

(** X14.  A token is accepted when it is one of the configured tokens,
    byte for byte, and only then: [subtle.ConstantTimeCompare] returns 1 on
    equal slices and 0 on all others.  The API handlers in addition refuse
    the empty token, also when it is configured; the WebDAV handler does
    not.  The WebDAV handler passes a request on exactly when it carries
    Basic credentials whose password is a configured token, with that
    password as the owner token, and answers 401 otherwise. *)
Theorem tokens_are_matched_exactly :
  (forall x y, subtle_ConstantTimeCompare x y = (if decide (x = y) then 1 else 0)%Z)
  /\ (forall h token,
        Handler.isValidToken h token = true
        <-> token <> "" /\ token ∈ Handler.Auth_Tokens h)
  /\ (forall tokens token,
        WebDAVAuth.isValidToken tokens token = true <-> token ∈ tokens)
  /\ (forall tokens r token,
        WebDAVAuth.ServeHTTP tokens r = WebDAVAuth.Forwarded token
        <-> (exists user, BasicAuth r = Some (user, token)) /\ token ∈ tokens)
  /\ (forall tokens r,
        WebDAVAuth.ServeHTTP tokens r
        = WebDAVAuth.Unauthorized (mkResponse 401 "Unauthorized")
        \/ exists token, WebDAVAuth.ServeHTTP tokens r = WebDAVAuth.Forwarded token).
Proof.
  split_and!.
  - apply ConstantTimeCompare_spec.
  - intros h token. unfold Handler.isValidToken.
    destruct (String.eqb_spec token "") as [->|Hne].
    + split; [done | by intros [? _]].
    + rewrite token_in_spec. split; [done | by intros [_ ?]].
  - intros tokens token. apply token_in_spec.
  - intros tokens r token. unfold WebDAVAuth.ServeHTTP, WebDAVAuth.isValidToken.
    destruct (BasicAuth r) as [[user pass]|].
    + destruct (token_in tokens pass) eqn:Hin.
      * apply token_in_spec in Hin. split.
        -- intros [= <-]. eauto.
        -- by intros [[user' [= <- <-]] _].
      * split; [done|]. intros [[user' [= <- <-]] Hin'].
        apply token_in_spec in Hin'. congruence.
    + split; [done | by intros [[? ?] _]].
  - intros tokens r. unfold WebDAVAuth.ServeHTTP.
    destruct (BasicAuth r) as [[user pass]|]; [|by left].
    destruct (WebDAVAuth.isValidToken tokens pass); [right; by exists pass | by left].
Qed.

(** ** The delete endpoint *)

Section DeleteEndpoint.
Context `{JSON} `{SortSlice}.

(** X15.  [handleDelete] never removes the upload of another owner.  On
    either backend, whatever the request and whatever calls fail, a record
    that does not carry the token of the request is stored afterwards as
    before, and so is its blob. *)
Theorem handleDelete_spares_other_owners :
  (forall h r (d : Filesystem.disk) id item,
      Filesystem.stored d id item -> OwnerToken item <> Handler.request_token r ->
      let d' := snd (Handler.handleDelete h r d) in
      Filesystem.stored d' id item
      /\ Filesystem.files d' !! id = Filesystem.files d !! id)
  /\ (forall h r (s : S3Storage.store) id item,
      S3Storage.stored s id item -> OwnerToken item <> Handler.request_token r ->
      let s' := snd (Handler.handleDelete h r s) in
      S3Storage.stored s' id item
      /\ S3Storage.bucket s' !! S3Storage.fileKey id
         = S3Storage.bucket s !! S3Storage.fileKey id).
Proof.
  split.
  - intros h r d id item Hst Hother d'. subst d'.
    unfold Handler.handleDelete.
    destruct (negb (String.eqb (Method r) "DELETE")); [done|].
    destruct (negb (Handler.isValidToken h _)); [done|].
    set (pid := strings_TrimPrefix (URL_Path r) "/api/delete/").
    destruct (String.eqb pid ""); [done|]. simpl.
    pose proof (GetMeta_reads pid d) as [Hf Hm].
    destruct (Filesystem.GetMeta pid d) as [[err|it] d1] eqn:HG; simpl in *.
    { unfold Filesystem.stored. by rewrite Hm, Hf. }
    apply GetMeta_ok in HG.
    destruct (String.eqb_spec (OwnerToken it) (Handler.request_token r)) as [Ho|Ho];
      simpl.
    2:{ unfold Filesystem.stored. by rewrite Hm, Hf. }
    assert (Hne : id <> pid).
    { intros ->. apply Hother. by rewrite (stored_functional _ _ _ _ Hst HG). }
    pose proof (Delete_frame pid d1) as (_ & _ & Hff & Hfm).
    pose proof (Delete_nil pid d1) as Hnil.
    destruct (Filesystem.Delete pid d1) as [e d2]; simpl in *. subst e. simpl.
    split.
    + destruct Hst as (bs & Hbs & Hu). exists bs. split; [|done].
      rewrite Hfm, Hm; [done|]. intros Heq. by apply app_inj_l in Heq.
    + by rewrite Hff, Hf.
  - intros h r s id item Hst Hother s'. subst s'.
    unfold Handler.handleDelete.
    destruct (negb (String.eqb (Method r) "DELETE")); [done|].
    destruct (negb (Handler.isValidToken h _)); [done|].
    set (pid := strings_TrimPrefix (URL_Path r) "/api/delete/").
    destruct (String.eqb pid ""); [done|]. simpl.
    pose proof (s3_GetMeta_reads pid s) as Hb.
    destruct (S3Storage.GetMeta pid s) as [[err|it] s1] eqn:HG; simpl in *.
    { unfold S3Storage.stored. by rewrite Hb. }
    apply s3_GetMeta_ok in HG.
    destruct (String.eqb_spec (OwnerToken it) (Handler.request_token r)) as [Ho|Ho];
      simpl.
    2:{ unfold S3Storage.stored. by rewrite Hb. }
    assert (Hne : id <> pid).
    { intros ->. apply Hother. by rewrite (s3_stored_functional _ _ _ _ Hst HG). }
    pose proof (s3_Delete_frame pid s1) as (_ & Hframe).
    pose proof (s3_Delete_nil pid s1) as Hnil.
    destruct (S3Storage.Delete pid s1) as [e s2]; simpl in *. subst e. simpl.
    split.
    + destruct Hst as (bs & Hbs & Hu). exists bs. split; [|done].
      rewrite Hframe, Hb; [done | apply not_eq_sym, fileKey_metaKey |].
      intros Heq. by apply metaKey_inj in Heq.
    + rewrite Hframe, Hb; [done | | apply fileKey_metaKey].
      unfold S3Storage.fileKey. intros [= Heq]. done.
Qed.

(** X16.  The answers of [handleDelete].  Whatever the storage, a method
    other than DELETE is answered with 405, a token that is not valid with
    401 and an empty id with 400, and the storage is not called.  On the
    filesystem backend, when nothing fails, a request that passes these
    checks and whose id names a directory entry is answered with 404 when
    the id has no metadata, with 403 when its record carries another token,
    and in both cases nothing is removed; when the record carries the token
    of the request it is answered with 204, and the blob and the record of
    the id are removed.  The object store answers alike, for every id that
    is not empty.  On neither backend is the answer ever 500, whatever
    fails. *)
Theorem handleDelete_answers :
  (forall S (HS : Storage S) h r (st : S),
      (Method r <> "DELETE" ->
       Handler.handleDelete h r st = (mkResponse 405 "Method not allowed", st))
      /\ (Method r = "DELETE" ->
          Handler.isValidToken h (Handler.request_token r) = false ->
          Handler.handleDelete h r st = (mkResponse 401 "Unauthorized", st))
      /\ (Method r = "DELETE" ->
          Handler.isValidToken h (Handler.request_token r) = true ->
          strings_TrimPrefix (URL_Path r) "/api/delete/" = "" ->
          Handler.handleDelete h r st = (mkResponse 400 "No ID provided", st)))
  /\ (forall h r (d : Filesystem.disk),
      Filesystem.calm d ->
      Method r = "DELETE" ->
      Handler.isValidToken h (Handler.request_token r) = true ->
      let id := strings_TrimPrefix (URL_Path r) "/api/delete/" in
      let d' := snd (Handler.handleDelete h r d) in
      entry_name id = true ->
      (Filesystem.meta d !! (id +:+ ".json") = None ->
       fst (Handler.handleDelete h r d) = mkResponse 404 "404 page not found"
       /\ same_files d d')
      /\ (forall item,
            Filesystem.stored d id item ->
            OwnerToken item <> Handler.request_token r ->
            fst (Handler.handleDelete h r d) = mkResponse 403 "Forbidden"
            /\ same_files d d')
      /\ (forall item,
            Filesystem.stored d id item ->
            OwnerToken item = Handler.request_token r ->
            fst (Handler.handleDelete h r d) = mkResponse 204 ""
            /\ Filesystem.files d' = delete id (Filesystem.files d)
            /\ Filesystem.meta d' = delete (id +:+ ".json") (Filesystem.meta d)))
  /\ (forall h r (s : S3Storage.store),
      S3Storage.calm s ->
      Method r = "DELETE" ->
      Handler.isValidToken h (Handler.request_token r) = true ->
      let id := strings_TrimPrefix (URL_Path r) "/api/delete/" in
      let s' := snd (Handler.handleDelete h r s) in
      id <> "" ->
      (S3Storage.bucket s !! S3Storage.metaKey id = None ->
       fst (Handler.handleDelete h r s) = mkResponse 404 "404 page not found"
       /\ S3Storage.bucket s' = S3Storage.bucket s)
      /\ (forall item,
            S3Storage.stored s id item ->
            OwnerToken item <> Handler.request_token r ->
            fst (Handler.handleDelete h r s) = mkResponse 403 "Forbidden"
            /\ S3Storage.bucket s' = S3Storage.bucket s)
      /\ (forall item,
            S3Storage.stored s id item ->
            OwnerToken item = Handler.request_token r ->
            fst (Handler.handleDelete h r s) = mkResponse 204 ""
            /\ S3Storage.bucket s'
               = delete (S3Storage.metaKey id)
                   (delete (S3Storage.fileKey id) (S3Storage.bucket s))))
  /\ (forall h r (d : Filesystem.disk),
      status (fst (Handler.handleDelete h r d)) <> 500%Z)
  /\ (forall h r (s : S3Storage.store),
      status (fst (Handler.handleDelete h r s)) <> 500%Z).
Proof.
  split_and!.
  - intros S HS h r st. unfold Handler.handleDelete. split_and!.
    + intros Hm. by destruct (String.eqb_spec (Method r) "DELETE").
    + intros -> ->. done.
    + intros -> -> ->. done.
  - intros h r d Hc Hmeth Hvalid id d' Hid. subst d'.
    unfold Handler.handleDelete. rewrite Hmeth, Hvalid. fold id. simpl.
    destruct (String.eqb_spec id "") as [Hempty|_]; [by rewrite Hempty in Hid|].
    destruct (GetMeta_calm id d Hc) as [n ->].
    split_and!.
    + intros Hnone. unfold Filesystem.lookup_meta. by rewrite Hnone.
    + intros item Hst Ho. rewrite (lookup_meta_stored _ _ _ Hst).
      by destruct (String.eqb_spec (OwnerToken item) (Handler.request_token r)).
    + intros item Hst Ho. rewrite (lookup_meta_stored _ _ _ Hst).
      rewrite Ho, String.eqb_refl. simpl.
      by rewrite (Delete_calm id (Filesystem.later n d)) by by apply calm_later.
  - intros h r s Hc Hmeth Hvalid id s' Hid. subst s'.
    unfold Handler.handleDelete. rewrite Hmeth, Hvalid. fold id. simpl.
    destruct (String.eqb_spec id "") as [|_]; [done|].
    rewrite (s3_GetMeta_calm id s Hc).
    split_and!.
    + intros Hnone. unfold S3Storage.lookup_meta. by rewrite Hnone.
    + intros item (bs & Hm & Hu) Ho. unfold S3Storage.lookup_meta. rewrite Hm, Hu.
      by destruct (String.eqb_spec (OwnerToken item) (Handler.request_token r)).
    + intros item (bs & Hm & Hu) Ho. unfold S3Storage.lookup_meta. rewrite Hm, Hu.
      rewrite Ho, String.eqb_refl. simpl.
      by rewrite (s3_Delete_calm id (S3Storage.later 1 s)) by by apply s3_calm_later.
  - intros h r d. unfold Handler.handleDelete.
    repeat (case_match; simpl; try done).
    match goal with
    | Hd : Filesystem.Delete ?i ?x = (Some _, _) |- _ =>
        pose proof (Delete_nil i x) as Hnil; by rewrite Hd in Hnil
    end.
  - intros h r s. unfold Handler.handleDelete.
    repeat (case_match; simpl; try done).
    match goal with
    | Hd : S3Storage.Delete ?i ?x = (Some _, _) |- _ =>
        pose proof (s3_Delete_nil i x) as Hnil; by rewrite Hd in Hnil
    end.
Qed.

End DeleteEndpoint.

Lemma handleDelete_answers_witness :
  fst (Handler.handleDelete (H := Scenario.fs_backend) api_handler
         (alice_deletes (ID TwoUploads.older)) TwoUploads.disk)
  = mkResponse 204 ""
  /\ Filesystem.files
       (snd (Handler.handleDelete (H := Scenario.fs_backend) api_handler
               (alice_deletes (ID TwoUploads.older)) TwoUploads.disk))
     = delete (ID TwoUploads.older) (Filesystem.files TwoUploads.disk)
  /\ Filesystem.meta
       (snd (Handler.handleDelete (H := Scenario.fs_backend) api_handler
               (alice_deletes (ID TwoUploads.older)) TwoUploads.disk))
     = delete (ID TwoUploads.older +:+ ".json") (Filesystem.meta TwoUploads.disk).
Proof.
  apply (proj2 (proj2
           (proj1 (proj2 (@handleDelete_answers Reference.json Reference.sort))
              api_handler (alice_deletes (ID TwoUploads.older)) TwoUploads.disk
              ltac:(vm_compute; constructor) eq_refl eq_refl eq_refl))
           (set_Size 2 TwoUploads.older)).
  - eexists. split; vm_compute; reflexivity.
  - reflexivity.
Defined.

Lemma handleDelete_spares_other_owners_witness :
  let d' := snd (Handler.handleDelete (H := Scenario.fs_backend) api_handler
                   (alice_deletes Collision.id) Collision.disk) in
  Filesystem.stored (H := Reference.json) d' Collision.id (set_Size 2 Collision.bobs)
  /\ Filesystem.files d' !! Collision.id = Filesystem.files Collision.disk !! Collision.id.
Proof.
  apply (proj1 (@handleDelete_spares_other_owners Reference.json Reference.sort)
           api_handler (alice_deletes Collision.id) Collision.disk Collision.id
           (set_Size 2 Collision.bobs)).
  - eexists. split; vm_compute; reflexivity.
  - vm_compute. discriminate.
Defined.

(** ** Identifiers and content types *)

Lemma hex_digit_lower n : is_lower_hex (hex_digit n) = true.
Proof. do 16 (destruct n as [|n]; [done|]). done. Qed.

Lemma hex_digit_inj a b : a < 16 -> b < 16 -> hex_digit a = hex_digit b -> a = b.
Proof.
  intros Ha Hb.
  do 16 (destruct a as [|a]; [do 16 (destruct b as [|b]; [done|]); lia|]).
  lia.
Qed.

Lemma byte_to_nat_inj (a b : byte) : Byte.to_nat a = Byte.to_nat b -> a = b.
Proof.
  intros Heq. apply (f_equal Byte.of_nat) in Heq.
  rewrite !Byte.of_to_nat in Heq. by injection Heq.
Qed.

Lemma byte_to_nat_below (a : byte) : Byte.to_nat a < 256.
Proof. pose proof (Byte.to_nat_bounded a). lia. Qed.

Lemma hex_EncodeToString_cons b r :
  hex_EncodeToString (b :: r)
  = String (hex_digit (Byte.to_nat b / 16))
      (String (hex_digit (Byte.to_nat b mod 16)) (hex_EncodeToString r)).
Proof. done. Qed.

Lemma String_inj c s c' s' : String c s = String c' s' -> c = c' /\ s = s'.
Proof. by intros [= -> ->]. Qed.

Lemma hex_EncodeToString_inj x y :
  hex_EncodeToString x = hex_EncodeToString y -> x = y.
Proof.
  revert y. induction x as [|a x IH]; intros [|b y] Heq;
    rewrite ?hex_EncodeToString_cons in Heq; try done.
  apply String_inj in Heq as [Hhi [Hlo Hrest]%String_inj].
  f_equal; [|by apply IH].
  pose proof (byte_to_nat_below a). pose proof (byte_to_nat_below b).
  apply hex_digit_inj in Hhi; [|apply Nat.Div0.div_lt_upper_bound; lia..].
  apply hex_digit_inj in Hlo; [|apply Nat.mod_upper_bound; lia..].
  apply byte_to_nat_inj.
  rewrite (Nat.div_mod_eq (Byte.to_nat a) 16), (Nat.div_mod_eq (Byte.to_nat b) 16).
  by rewrite Hhi, Hlo.
Qed.

Lemma hex_EncodeToString_lower bs :
  Forall (fun c => is_lower_hex c = true) (chars (hex_EncodeToString bs)).
Proof.
  induction bs as [|b bs IH]; simpl; [constructor|].
  repeat constructor; [apply hex_digit_lower.. | exact IH].
Qed.

(** X17.  [generateID] yields 24 digits of lower-case hexadecimal, so no
    path separator and no dot, and takes twelve bytes from the random
    source, leaving the store and the clock alone.  Different bytes give
    different ids.  Since the error of [rand.Read] is ignored, a source
    that delivers nothing gives the id of 24 zeros. *)
Theorem generateID_is_hex_of_random_bytes {S} :
  (forall w : world S,
      String.length (fst (generateID w)) = 24
      /\ Forall (fun c => is_lower_hex c = true) (chars (fst (generateID w)))
      /\ store (snd (generateID w)) = store w
      /\ now (snd (generateID w)) = now w
      /\ entropy (snd (generateID w)) = drop 12 (entropy w))
  /\ (forall w1 w2 : world S,
      12 <= length (entropy w1) -> 12 <= length (entropy w2) ->
      fst (generateID w1) = fst (generateID w2) ->
      take 12 (entropy w1) = take 12 (entropy w2))
  /\ (forall w : world S,
      entropy w = [] -> fst (generateID w) = "000000000000000000000000").
Proof.
  split_and!.
  - intros w. split_and!; try done.
    + apply generateID_length.
    + apply hex_EncodeToString_lower.
  - intros w1 w2 H1 H2 Heq. unfold generateID, rand_Read in Heq. simpl in Heq.
    apply hex_EncodeToString_inj in Heq.
    rewrite !length_take in Heq.
    replace (12 - 12 `min` length (entropy w1)) with 0 in Heq by lia.
    replace (12 - 12 `min` length (entropy w2)) with 0 in Heq by lia.
    simpl in Heq. by rewrite !app_nil_r in Heq.
  - intros w Hw. unfold generateID, rand_Read. by rewrite Hw.
Qed.

Lemma generateID_is_hex_of_random_bytes_witness :
  take 12 (entropy fs_upload_world) = take 12 (entropy TwoUploads.fs_world).
Proof.
  apply (proj1 (proj2 generateID_is_hex_of_random_bytes)
           fs_upload_world TwoUploads.fs_world).
  - vm_compute. lia.
  - vm_compute. lia.
  - reflexivity.
Defined.

(** [filepath.Ext] of a name that ends in a dot and characters that are
    neither dots nor separators. *)
Lemma ext_scan_plain e :
  Forall (fun c => c <> "."%char /\ c <> "/"%char) (chars e) -> ext_scan e = None.
Proof.
  induction e as [|c e IH]; simpl; [done|].
  intros [[Hd Hs] Hall]%list.Forall_cons. rewrite (IH Hall).
  destruct (Ascii.eqb_spec c "/"); [done|].
  by destruct (Ascii.eqb_spec c ".").
Qed.

Lemma Ext_of_dotted stem e :
  Forall (fun c => c <> "."%char /\ c <> "/"%char) (chars e) ->
  filepath_Ext (stem +:+ String "." e) = String "." e.
Proof.
  intros He. unfold filepath_Ext.
  assert (ext_scan (stem +:+ String "." e) = Some (String "." e)) as ->; [|done].
  induction stem as [|c stem IH]; simpl.
  - by rewrite (ext_scan_plain e He).
  - change (ext_scan (stem +:+ String "." e)) with (ext_scan (stem +:+ String "." e)).
    by rewrite IH.
Qed.

Lemma assoc_extension_table_nonempty k t :
  assoc k extension_table = Some t -> t <> "".
Proof.
  unfold extension_table. simpl.
  repeat (case_match; [by intros [= <-]|]). done.
Qed.

(** X18.  [detectContentType] by file name.  For a name that ends in a dot
    and an extension, the type of the MIME database wins when it has one
    for the extension; when it has none, the built-in table decides, on the
    extension in lower case, so whatever its case.  Neither looks at the
    content.  With no content to sniff the result is never empty: it is
    one of these types, or [text/plain]. *)
Theorem detectContentType_by_extension `{MimeDB} :
  (forall stem e content,
      Forall (fun c => c <> "."%char /\ c <> "/"%char) (chars e) ->
      mime_TypeByExtension (String "." e) <> "" ->
      detectContentType (stem +:+ String "." e) content
      = mime_TypeByExtension (String "." e))
  /\ (forall stem e content t,
      Forall (fun c => c <> "."%char /\ c <> "/"%char) (chars e) ->
      mime_TypeByExtension (String "." e) = "" ->
      assoc (strings_ToLower (String "." e)) extension_table = Some t ->
      detectContentType (stem +:+ String "." e) content = t)
  /\ (forall name, detectContentType name [] <> "").
Proof.
  split_and!.
  - intros stem e content He Hknown. unfold detectContentType, type_by_name.
    cbv zeta. rewrite (Ext_of_dotted stem e He).
    destruct (String.eqb_spec (stem +:+ String "." e) "") as [Hempty|_].
    { by destruct stem. }
    by destruct (String.eqb_spec (mime_TypeByExtension (String "." e)) "").
  - intros stem e content t He Hunknown Ht. unfold detectContentType, type_by_name.
    cbv zeta. rewrite (Ext_of_dotted stem e He), Hunknown.
    destruct (String.eqb_spec (stem +:+ String "." e) "") as [Hempty|_].
    { by destruct stem. }
    change (negb ("" =? "")%string) with false. cbv iota.
    by rewrite Ht.
  - intros name. unfold detectContentType.
    destruct (type_by_name name) as [t|] eqn:Ht; [|done].
    unfold type_by_name in Ht. destruct (String.eqb name ""); [done|].
    cbv zeta in Ht.
    destruct (String.eqb_spec (mime_TypeByExtension (filepath_Ext name)) "")
      as [Hu|Hk]; cbn [negb] in Ht.
    + by apply assoc_extension_table_nonempty in Ht.
    + by injection Ht as <-.
Qed.

Lemma detectContentType_by_extension_witness :
  detectContentType (H := Reference.mimedb) ("README" +:+ String "." "MD") [x23]
  = "text/markdown"
  /\ detectContentType (H := Reference.mimedb) ("a" +:+ String "." "txt") [x23]
     = "text/plain; charset=utf-8".
Proof.
  split.
  - apply (proj1 (proj2 (detectContentType_by_extension (H := Reference.mimedb)))
             "README" "MD" [x23] "text/markdown").
    + repeat constructor; discriminate.
    + reflexivity.
    + reflexivity.
  - apply (proj1 (detectContentType_by_extension (H := Reference.mimedb))
             "a" "txt" [x23]).
    + repeat constructor; discriminate.
    + discriminate.
Defined.

(** ** Records that do not decode *)

Section Unreadable.
Context `{JSON} `{SortSlice}.

(** X19.  A record whose bytes do not decode, when nothing fails.
    [GetMeta] and [Get] fail on it with an error of their own, which is not
    [NotFound]; [List] leaves it out and succeeds all the same; and
    [handleDelete] answers a valid request for its id with 404 and removes
    nothing, so the API cannot delete it. *)
Theorem unreadable_record_is_skipped_not_deleted :
  (forall id (d : Filesystem.disk) bs,
      Filesystem.calm d ->
      Filesystem.meta d !! (id +:+ ".json") = Some bs -> json_Unmarshal bs = None ->
      fst (Filesystem.GetMeta id d)
      = inl (wrapError "failed to read metadata" ErrMarshal)
      /\ fst (Filesystem.Get id d)
         = inl (wrapError "failed to read metadata" ErrMarshal)
      /\ (forall owner, exists items,
             fst (Filesystem.List owner d) = inr items
             /\ forall item, item ∈ items -> ~ Filesystem.stored d id item)
      /\ (forall h r,
             Method r = "DELETE" ->
             Handler.isValidToken h (Handler.request_token r) = true ->
             strings_TrimPrefix (URL_Path r) "/api/delete/" = id -> id <> "" ->
             fst (Handler.handleDelete h r d) = mkResponse 404 "404 page not found"
             /\ same_files d (snd (Handler.handleDelete h r d))))
  /\ (forall id (s : S3Storage.store) bs,
      S3Storage.calm s ->
      S3Storage.bucket s !! S3Storage.metaKey id = Some bs -> json_Unmarshal bs = None ->
      fst (S3Storage.GetMeta id s)
      = inl (wrapError "failed to decode metadata" ErrMarshal)
      /\ fst (S3Storage.Get id s)
         = inl (wrapError "failed to decode metadata" ErrMarshal)
      /\ (forall owner, exists items,
             fst (S3Storage.List owner s) = inr items
             /\ forall item, item ∈ items -> ~ S3Storage.stored s id item)
      /\ (forall h r,
             Method r = "DELETE" ->
             Handler.isValidToken h (Handler.request_token r) = true ->
             strings_TrimPrefix (URL_Path r) "/api/delete/" = id -> id <> "" ->
             fst (Handler.handleDelete h r s) = mkResponse 404 "404 page not found"
             /\ S3Storage.bucket (snd (Handler.handleDelete h r s)) = S3Storage.bucket s)).
Proof.
  split.
  - intros id d bs Hc Hm Hu.
    assert (Hl : Filesystem.lookup_meta d id
                 = inl (wrapError "failed to read metadata" ErrMarshal)).
    { unfold Filesystem.lookup_meta. by rewrite Hm, Hu. }
    assert (Hno : forall item, ~ Filesystem.stored d id item).
    { intros item (bs' & Hm' & Hu'). congruence. }
    split_and!.
    + destruct (GetMeta_calm id d Hc) as [n ->]. by rewrite Hl.
    + destruct (Get_calm id d Hc) as [n ->]. by rewrite Hl.
    + intros owner. destruct (List_calm owner d Hc) as (items & n & -> & _).
      exists items. split; [done|]. intros item _. apply Hno.
    + intros h r Hmeth Hvalid Hid Hne. unfold Handler.handleDelete.
      rewrite Hmeth, Hvalid, Hid. simpl.
      destruct (String.eqb_spec id "") as [|_]; [done|].
      destruct (GetMeta_calm id d Hc) as [n ->]. by rewrite Hl.
  - intros id s bs Hc Hm Hu.
    assert (Hl : S3Storage.lookup_meta s id
                 = inl (wrapError "failed to decode metadata" ErrMarshal)).
    { unfold S3Storage.lookup_meta. by rewrite Hm, Hu. }
    assert (Hno : forall item, ~ S3Storage.stored s id item).
    { intros item (bs' & Hm' & Hu'). congruence. }
    split_and!.
    + rewrite (s3_GetMeta_calm id s Hc). by rewrite Hl.
    + destruct (s3_Get_calm id s Hc) as [n ->]. by rewrite Hl.
    + intros owner. destruct (s3_List_calm owner s Hc) as (n & ->).
      eexists. split; [done|]. intros item _. apply Hno.
    + intros h r Hmeth Hvalid Hid Hne. unfold Handler.handleDelete.
      rewrite Hmeth, Hvalid, Hid. simpl.
      destruct (String.eqb_spec id "") as [|_]; [done|].
      rewrite (s3_GetMeta_calm id s Hc). by rewrite Hl.
Qed.

End Unreadable.

Lemma unreadable_record_is_skipped_not_deleted_witness :
  fst (Filesystem.GetMeta (H := Reference.json) "zz" garbled_disk)
  = inl (wrapError "failed to read metadata" ErrMarshal)
  /\ fst (S3Storage.GetMeta (H := Reference.json) "zz" garbled_bucket)
     = inl (wrapError "failed to decode metadata" ErrMarshal).
Proof.
  split.
  - apply (proj1 (@unreadable_record_is_skipped_not_deleted Reference.json Reference.sort)
             "zz" garbled_disk [x7b]).
    + vm_compute. constructor.
    + vm_compute. reflexivity.
    + vm_compute. reflexivity.
  - apply (proj2 (@unreadable_record_is_skipped_not_deleted Reference.json Reference.sort)
             "zz" garbled_bucket [x7b]).
    + vm_compute. constructor.
    + vm_compute. reflexivity.
    + vm_compute. reflexivity.
Defined.

(** ** The two backends side by side *)

Section SideBySide.
Context `{JSON} `{SortSlice}.

Lemma fileKey_inj id id' : S3Storage.fileKey id = S3Storage.fileKey id' -> id = id'.
Proof. unfold S3Storage.fileKey. by intros [= ?]. Qed.

(** Keys of different ids differ, and blob keys differ from record keys. *)
Ltac keys_differ Hne :=
  let Heq := fresh "Heq" in
  intros Heq;
  first [ by destruct (fileKey_metaKey _ _ Heq)
        | by destruct (fileKey_metaKey _ _ (eq_sym Heq))
        | apply Hne; symmetry;
          first [ exact Heq | by apply fileKey_inj | by apply metaKey_inj
                | by apply (app_inj_l _ _ ".json") ] ].

Lemma same_content_stored d s id item :
  same_content d s -> Filesystem.stored d id item <-> S3Storage.stored s id item.
Proof.
  intros Hs. unfold Filesystem.stored, S3Storage.stored.
  by rewrite (proj2 (Hs id)).
Qed.

(** X20.  The backends are interchangeable for blobs and records, for
    the ids that name a directory entry.  On a disk and a bucket that hold
    the same blobs and records, when nothing fails and for such an id:
    [GetMeta] and [Get] succeed on the one exactly when they succeed on the
    other, with the same result, and report [NotFound] alike; a [Put] of an
    item the codec accepts returns the same on both and leaves them holding
    the same; so does [Delete].  And [List] returns the same items on both,
    up to their order, when no record is stored under the empty id. *)
Theorem backends_agree_when_calm :
  forall d s,
    same_content d s -> Filesystem.calm d -> S3Storage.calm s ->
    (forall id item,
        entry_name id = true ->
        fst (Filesystem.GetMeta id d) = inr item
        <-> fst (S3Storage.GetMeta id s) = inr item)
    /\ (forall id,
        entry_name id = true ->
        fst (Filesystem.GetMeta id d) = inl NotFound
        <-> fst (S3Storage.GetMeta id s) = inl NotFound)
    /\ (forall id res,
        entry_name id = true ->
        fst (Filesystem.Get id d) = inr res <-> fst (S3Storage.Get id s) = inr res)
    /\ (forall id content item bs,
        entry_name id = true ->
        json_Marshal (set_Size (len content) item) = Some bs ->
        fst (Filesystem.Put id content item d) = fst (S3Storage.Put id content item s)
        /\ same_content (snd (Filesystem.Put id content item d))
                        (snd (S3Storage.Put id content item s)))
    /\ (forall id,
        entry_name id = true ->
        same_content (snd (Filesystem.Delete id d)) (snd (S3Storage.Delete id s)))
    /\ (forall owner, exists on_disk in_bucket,
        fst (Filesystem.List owner d) = inr on_disk
        /\ fst (S3Storage.List owner s) = inr in_bucket
        /\ (forall item, item ∈ in_bucket -> item ∈ on_disk)
        /\ ((forall item, ~ Filesystem.stored d "" item) ->
            forall item, item ∈ on_disk -> item ∈ in_bucket)).
Proof.
  intros d s Hs Hcd Hcs.
  assert (Hl : forall id,
             match Filesystem.lookup_meta d id, S3Storage.lookup_meta s id with
             | inr a, inr b => a = b
             | inl e, inl e' => e = NotFound <-> e' = NotFound
             | _, _ => False
             end).
  { intros id. unfold Filesystem.lookup_meta, S3Storage.lookup_meta.
    rewrite (proj2 (Hs id)).
    destruct (S3Storage.bucket s !! S3Storage.metaKey id) as [bs|]; [|done].
    by destruct (json_Unmarshal bs). }
  split_and!.
  - intros id item _. destruct (GetMeta_calm id d Hcd) as [n ->].
    rewrite (s3_GetMeta_calm id s Hcs). simpl. specialize (Hl id).
    destruct (Filesystem.lookup_meta d id), (S3Storage.lookup_meta s id);
      try done; by subst.
  - intros id _. destruct (GetMeta_calm id d Hcd) as [n ->].
    rewrite (s3_GetMeta_calm id s Hcs). simpl. specialize (Hl id).
    destruct (Filesystem.lookup_meta d id), (S3Storage.lookup_meta s id);
      try done.
    split; intros [= ?]; f_equal; by apply Hl.
  - intros id res _. destruct (Get_calm id d Hcd) as [n ->].
    destruct (s3_Get_calm id s Hcs) as [m ->]. simpl. specialize (Hl id).
    rewrite (proj1 (Hs id)).
    destruct (Filesystem.lookup_meta d id), (S3Storage.lookup_meta s id);
      try done; subst.
    by destruct (S3Storage.bucket s !! S3Storage.fileKey id).
  - intros id content item bs _ Hbs.
    rewrite (Put_calm id content item d bs Hcd Hbs).
    rewrite (s3_Put_calm id content item s bs Hcs Hbs). simpl.
    split; [done|]. intros id'. simpl.
    destruct (decide (id' = id)) as [->|Hne].
    + rewrite !lookup_insert_eq.
      rewrite lookup_insert_ne by (symmetry; apply fileKey_metaKey).
      by rewrite lookup_insert_eq.
    + rewrite !lookup_insert_ne by keys_differ Hne. apply Hs.
  - intros id _. rewrite (Delete_calm id d Hcd), (s3_Delete_calm id s Hcs).
    intros id'. simpl.
    destruct (decide (id' = id)) as [->|Hne].
    + rewrite !lookup_delete_eq.
      rewrite lookup_delete_ne by (symmetry; apply fileKey_metaKey).
      by rewrite lookup_delete_eq.
    + rewrite !lookup_delete_ne by keys_differ Hne. apply Hs.
  - intros owner.
    destruct (List_calm owner d Hcd) as (on_disk & n & -> & Hin & _).
    destruct (s3_List_calm owner s Hcs) as (m & ->).
    eexists _, _. split_and!; [done | done | |].
    + intros item (Ho & id & _ & Hst)%s3_List_mem. apply Hin.
      exists id. split; [|done]. by apply (same_content_stored d s).
    + intros Hnonempty item (id & Hst & Ho)%Hin. apply s3_List_mem.
      split; [done|]. exists id. split.
      * intros ->. by apply (Hnonempty item).
      * by apply (same_content_stored d s).
Qed.

End SideBySide.

Lemma backends_agree_when_calm_witness :
  fst (Filesystem.Put (H := Reference.json) "ab12" Scenario.hello Scenario.a_txt
         Scenario.disk0)
  = fst (S3Storage.Put (H := Reference.json) "ab12" Scenario.hello Scenario.a_txt
           Scenario.bucket0)
  /\ same_content Scenario.disk1 Scenario.bucket1.
Proof.
  apply (proj1 (proj2 (proj2 (proj2
           (@backends_agree_when_calm Reference.json Reference.sort
              Scenario.disk0 Scenario.bucket0
              ltac:(intros id; split; reflexivity)
              ltac:(vm_compute; constructor) ltac:(vm_compute; constructor)))))
           "ab12" Scenario.hello Scenario.a_txt
           (default [] (Reference.marshal (set_Size 5 Scenario.a_txt))) eq_refl).
  vm_compute. reflexivity.
Defined.

(** ** After a Close *)

Section AfterClose.
Context `{JSON} `{SortSlice} `{MimeDB}.

(** X21.  [Put] reads the buffer of the handle itself, so a [Close] that
    reports no error leaves the handle closed with an empty buffer, on
    either backend: [Stat] on the handle then reports the size 0, though
    the item stored, which is the item of the [Close] as [encoding/json]
    reads it back, has the size of what was written.  Bytes written to a
    closed handle are buffered, within the cap, and never stored: the next
    [Close] changes nothing. *)
Theorem Close_leaves_an_empty_closed_handle :
  (forall f (w : world Filesystem.disk) f1 w1,
      davWriteFile.closed f = false ->
      davWriteFile.Close f w = (None, f1, w1) ->
      f1 = davWriteFile.mk (davWriteFile.name f) (davWriteFile.token f) []
                           (davWriteFile.maxFileSize f) true
      /\ davFileInfo.size (davWriteFile.Stat f1 w1) = 0%Z
      /\ exists item,
           Filesystem.stored (store w1) (fst (generateID w)) item
           /\ item = json_item (set_Size (len (davWriteFile.buffer f)) (item_of f w))
           /\ Size item = len (davWriteFile.buffer f))
  /\ (forall f (w : world S3Storage.store) f1 w1,
      davWriteFile.closed f = false ->
      davWriteFile.Close f w = (None, f1, w1) ->
      f1 = davWriteFile.mk (davWriteFile.name f) (davWriteFile.token f) []
                           (davWriteFile.maxFileSize f) true
      /\ davFileInfo.size (davWriteFile.Stat f1 w1) = 0%Z
      /\ exists item,
           S3Storage.stored (store w1) (fst (generateID w)) item
           /\ item = json_item (set_Size (len (davWriteFile.buffer f)) (item_of f w))
           /\ Size item = len (davWriteFile.buffer f))
  /\ (forall S (HS : Storage S) f p (w : world S),
      davWriteFile.closed f = true ->
      let f' := snd (fst (davWriteFile.Write f p w)) in
      davWriteFile.Close f' w = (None, f', w)).
Proof.
  split_and!.
  - intros f w f1 w1 Hopen HClose.
    rewrite Close_open in HClose by done. simpl in HClose.
    destruct (Filesystem.Put _ _ _ _) as [r st] eqn:HPut.
    simpl in HClose. injection HClose as Hok <- <-.
    destruct (Put_ok _ _ _ _ _ _ HPut Hok) as (bs & Hbs & -> & ->).
    split_and!; [done | done |].
    eexists. split_and!; [|reflexivity|done].
    exists bs. simpl. split; [apply lookup_insert_eq | by apply json_roundtrip].
  - intros f w f1 w1 Hopen HClose.
    rewrite Close_open in HClose by done. simpl in HClose.
    destruct (S3Storage.Put _ _ _ _) as [r st] eqn:HPut.
    simpl in HClose. injection HClose as Hok <- <-.
    destruct (s3_Put_ok _ _ _ _ _ _ HPut Hok) as (bs & Hbs & -> & ->).
    split_and!; [done | done |].
    eexists. split_and!; [|reflexivity|done].
    exists bs. simpl. split; [apply lookup_insert_eq | by apply json_roundtrip].
  - intros S HS f p w Hclosed f'. subst f'.
    apply Close_closed. unfold davWriteFile.Write.
    by destruct (_ && _).
Qed.

End AfterClose.

Lemma Close_leaves_an_empty_closed_handle_witness :
  snd (fst (davWriteFile.Close (H := Scenario.fs_backend) (H0 := Reference.mimedb)
              TwoUploads.third TwoUploads.fs_world))
  = davWriteFile.mk "notes.txt" "alice" [] 0 true
  /\ davFileInfo.size
       (davWriteFile.Stat
          (snd (fst (davWriteFile.Close (H := Scenario.fs_backend) (H0 := Reference.mimedb)
                       TwoUploads.third TwoUploads.fs_world)))
          (snd (davWriteFile.Close (H := Scenario.fs_backend) (H0 := Reference.mimedb)
                  TwoUploads.third TwoUploads.fs_world))) = 0%Z
  /\ exists item,
       Filesystem.stored (H := Reference.json)
         (store (snd (davWriteFile.Close (H := Scenario.fs_backend) (H0 := Reference.mimedb)
                        TwoUploads.third TwoUploads.fs_world)))
         (fst (generateID TwoUploads.fs_world)) item
       /\ item = json_item (set_Size (len TwoUploads.v3)
                   (item_of (H := Reference.mimedb) TwoUploads.third TwoUploads.fs_world))
       /\ Size item = len TwoUploads.v3.
Proof.
  apply (proj1 (@Close_leaves_an_empty_closed_handle
                  Reference.json Reference.sort Reference.mimedb)
           TwoUploads.third TwoUploads.fs_world).
  - reflexivity.
  - vm_compute. reflexivity.
Defined.

(** ** What List returns when nothing fails *)

(** X22.  When nothing fails, [List] succeeds and returns exactly the
    stored records that carry the owner token: on the filesystem all of
    them, newest first; on the object store those stored under an id that
    is not empty, so that a record stored under the empty id only is not
    listed there. *)
Theorem List_is_exact_when_calm `{JSON} `{SortSlice} :
  (forall owner d,
      Filesystem.calm d ->
      exists items,
        fst (Filesystem.List owner d) = inr items
        /\ (forall item, item ∈ items <->
              OwnerToken item = owner /\ exists id, Filesystem.stored d id item)
        /\ StronglySorted (fun a b => (CreatedAt b <= CreatedAt a)%Z) items)
  /\ (forall owner s,
      S3Storage.calm s ->
      exists items,
        fst (S3Storage.List owner s) = inr items
        /\ forall item, item ∈ items <->
             OwnerToken item = owner
             /\ exists id, id <> "" /\ S3Storage.stored s id item).
Proof.
  split.
  - intros owner d Hc.
    destruct (List_calm owner d Hc) as (items & n & -> & Hin & Hsorted).
    exists items. split_and!; [done | | done].
    intros item. rewrite Hin. split.
    + intros (id & Hst & Ho). eauto.
    + intros (Ho & id & Hst). eauto.
  - intros owner s Hc. destruct (s3_List_calm owner s Hc) as (n & ->).
    eexists. split; [done|]. intros item. apply s3_List_mem.
Qed.

Lemma List_is_exact_when_calm_witness :
  exists items,
    fst (Filesystem.List (H := Reference.json) (H0 := Reference.sort)
           "alice" TwoUploads.disk) = inr items
    /\ (forall item, item ∈ items <->
          OwnerToken item = "alice"
          /\ exists id, Filesystem.stored (H := Reference.json) TwoUploads.disk id item)
    /\ StronglySorted (fun a b => (CreatedAt b <= CreatedAt a)%Z) items.
Proof.
  apply (proj1 (@List_is_exact_when_calm Reference.json Reference.sort)
           "alice" TwoUploads.disk).
  vm_compute. constructor.
Defined.

(** ** Escaping for a template literal *)

Lemma prefix_nil s : String.prefix "" s = true.
Proof. by destruct s. Qed.

Lemma replace_char c r o new :
  replace_skipping 0 (String c r) (String o "") new
  = (if Ascii.eqb c o then new else String c "")
    +:+ replace_skipping 0 r (String o "") new.
Proof.
  cbn [replace_skipping String.prefix String.length Nat.sub].
  destruct (Ascii.eqb_spec c o) as [->|Hne].
  - destruct (ascii_dec o o) as [_|]; [|done]. by rewrite prefix_nil.
  - destruct (ascii_dec o c) as [->|]; done.
Qed.

(** The third replacement, at a character that is not a dollar and at one
    that is. *)
Lemma replace_dollar_brace_other c x :
  c <> "$"%char ->
  strings_ReplaceAll (String c x) "${" "\${"
  = String c (strings_ReplaceAll x "${" "\${").
Proof.
  intros Hc. unfold strings_ReplaceAll.
  cbn [replace_skipping String.prefix].
  by destruct (ascii_dec "$" c) as [<-|].
Qed.

Lemma replace_dollar_brace_dollar x :
  strings_ReplaceAll (String "$" x) "${" "\${"
  = match x with
    | String e x' =>
        if Ascii.eqb e "{"
        then String "\" (String "$" (String "{" (strings_ReplaceAll x' "${" "\${")))
        else String "$" (strings_ReplaceAll x "${" "\${")
    | "" => String "$" ""
    end.
Proof.
  unfold strings_ReplaceAll.
  cbn [replace_skipping String.prefix String.length Nat.sub].
  destruct (ascii_dec "$" "$") as [_|]; [|done].
  destruct x as [|e x']; [done|].
  cbn [replace_skipping String.prefix].
  destruct (Ascii.eqb_spec e "{") as [->|Hne].
  - destruct (ascii_dec "{" "{") as [_|]; [|done]. by rewrite prefix_nil.
  - by destruct (ascii_dec "{" e) as [<-|].
Qed.

(** The first two replacements, character by character. *)
Lemma first_two_replacements c r :
  strings_ReplaceAll (strings_ReplaceAll (String c r) "\" "\\") "`" "\`"
  = (if Ascii.eqb c "\" then "\\" else if Ascii.eqb c "`" then "\`" else String c "")
    +:+ strings_ReplaceAll (strings_ReplaceAll r "\" "\\") "`" "\`".
Proof.
  unfold strings_ReplaceAll. rewrite replace_char.
  destruct (Ascii.eqb_spec c "\") as [->|Hb].
  - change ("\\" +:+ ?x) with (String "\" (String "\" x)).
    by rewrite !replace_char.
  - change (String c "" +:+ ?x) with (String c x). rewrite replace_char.
    by destruct (Ascii.eqb_spec c "`").
Qed.

Lemma escape_is_one_pass s :
  escapeForJSTemplateLiteral s = escape_in_one_pass s.
Proof.
  unfold escapeForJSTemplateLiteral. cbv zeta.
  induction s as [|c r IH]; [done|].
  rewrite first_two_replacements. cbn [escape_in_one_pass].
  destruct (Ascii.eqb_spec c "\") as [->|Hb].
  { change ("\\" +:+ ?x) with (String "\" (String "\" x)).
    rewrite !replace_dollar_brace_other by done. by rewrite IH. }
  destruct (Ascii.eqb_spec c "`") as [->|Ht].
  { change ("\`" +:+ ?x) with (String "\" (String "`" x)).
    rewrite !replace_dollar_brace_other by done. by rewrite IH. }
  change (String c "" +:+ ?x) with (String c x).
  destruct (Ascii.eqb_spec c "$") as [->|Hd].
  2:{ rewrite replace_dollar_brace_other by done. by rewrite IH. }
  rewrite replace_dollar_brace_dollar.
  destruct r as [|e r']; [done|].
  rewrite first_two_replacements in IH |- *.
  destruct (Ascii.eqb_spec e "\") as [->|Hb'].
  { cbn [Ascii.eqb Bool.eqb andb String.append]. f_equal. exact IH. }
  destruct (Ascii.eqb_spec e "`") as [->|Ht'].
  { cbn [Ascii.eqb Bool.eqb andb String.append]. f_equal. exact IH. }
  change (String e "" +:+ ?x) with (String e x) in *.
  destruct (Ascii.eqb_spec e "{") as [->|Hbr].
  - rewrite replace_dollar_brace_other in IH by done.
    do 2 f_equal. exact IH.
  - cbn [escape_in_one_pass].
    destruct (Ascii.eqb_spec e "{"); [done|]. f_equal. exact IH.
Qed.

(** The escaping changes no first character into a brace or a line feed. *)
Lemma escape_in_one_pass_head e r :
  exists h t,
    escape_in_one_pass (String e r) = String h t /\ (h = e \/ h = "\"%char).
Proof.
  cbn [escape_in_one_pass].
  destruct (Ascii.eqb e "\"); [eauto|].
  destruct (Ascii.eqb e "`"); [eauto|].
  destruct (Ascii.eqb_spec e "$") as [->|_]; [|eauto].
  destruct r as [|e' r']; [eauto|]. destruct (Ascii.eqb e' "{"); eauto.
Qed.

Lemma template_text_dollar h t :
  template_text (String "$" (String h t))
  = if Ascii.eqb h "{" then None else String "$" <$> template_text (String h t).
Proof. reflexivity. Qed.

Lemma template_text_CR h t :
  template_text (String "013" (String h t))
  = if Ascii.eqb h "010" then String "010" <$> template_text t
    else String "010" <$> template_text (String h t).
Proof. reflexivity. Qed.

Lemma template_text_of_one_pass s :
  template_text (escape_in_one_pass s) = Some (line_ends_as_LF s).
Proof.
  remember (String.length s) as n eqn:Hn. revert s Hn.
  induction (lt_wf n) as [n _ IH]. intros [|c r] Hn; [done|].
  assert (IHr : template_text (escape_in_one_pass r) = Some (line_ends_as_LF r)).
  { apply (IH (String.length r)); [subst n; simpl; lia | done]. }
  cbn [escape_in_one_pass line_ends_as_LF].
  destruct (Ascii.eqb_spec c "\") as [->|Hb].
  { cbn [template_text Ascii.eqb Bool.eqb andb orb]. by rewrite IHr. }
  destruct (Ascii.eqb_spec c "`") as [->|Ht].
  { cbn [template_text Ascii.eqb Bool.eqb andb orb]. by rewrite IHr. }
  destruct (Ascii.eqb_spec c "$") as [->|Hd].
  { cbn [Ascii.eqb Bool.eqb andb].
    destruct r as [|e r']; [done|].
    destruct (Ascii.eqb_spec e "{") as [->|Hbr].
    { cbn [template_text Ascii.eqb Bool.eqb andb orb]. by rewrite IHr. }
    destruct (escape_in_one_pass_head e r') as (h & t & Hesc & Hh).
    rewrite Hesc in IHr |- *. rewrite template_text_dollar.
    assert (Ascii.eqb h "{" = false) as ->.
    { destruct Hh as [->| ->]; [by apply Ascii.eqb_neq | done]. }
    by rewrite IHr. }
  destruct (Ascii.eqb_spec c "013") as [->|Hcr].
  2:{ cbn [template_text].
      destruct (Ascii.eqb_spec c "\"); [done|].
      destruct (Ascii.eqb_spec c "`"); [done|].
      destruct (Ascii.eqb_spec c "$"); [done|].
      destruct (Ascii.eqb_spec c "013"); [done|].
      by rewrite IHr. }
  destruct r as [|e r']; [done|].
  destruct (Ascii.eqb_spec e "010") as [->|Hlf].
  - cbn [escape_in_one_pass template_text Ascii.eqb Bool.eqb andb orb].
    rewrite (IH (String.length r')); [done | subst n; simpl; lia | done].
  - destruct (escape_in_one_pass_head e r') as (h & t & Hesc & Hh).
    rewrite Hesc in IHr |- *. rewrite template_text_CR.
    assert (Ascii.eqb h "010" = false) as ->.
    { destruct Hh as [->| ->]; [by apply Ascii.eqb_neq | done]. }
    by rewrite IHr.
Qed.

Lemma line_ends_as_LF_without_CR s :
  Forall (fun c => c <> "013"%char) (chars s) -> line_ends_as_LF s = s.
Proof.
  induction s as [|c r IH]; [done|].
  cbn [chars line_ends_as_LF]. intros [Hc Hr]%list.Forall_cons.
  destruct (Ascii.eqb_spec c "013"); [done|]. by rewrite IH.
Qed.

(** X23.  What [escapeForJSTemplateLiteral] returns can be put between the
    backticks of a JavaScript template literal: no backtick in it ends the
    literal, no [${] in it begins a substitution, and the text JavaScript
    reads is the string that was escaped, with its line ends as JavaScript
    reads them in a template literal, CR LF and CR as LF.  A text without
    a carriage return is therefore read back as it is.  The three
    replacements amount to one pass that puts a backslash before every
    backslash, every backtick and every dollar that a brace follows. *)
Theorem escaped_text_reads_back :
  (forall s,
      template_text (escapeForJSTemplateLiteral s) = Some (line_ends_as_LF s)
      /\ escapeForJSTemplateLiteral s = escape_in_one_pass s)
  /\ (forall s,
      Forall (fun c => c <> "013"%char) (chars s) ->
      template_text (escapeForJSTemplateLiteral s) = Some s).
Proof.
  split.
  - intros s. split; [|apply escape_is_one_pass].
    rewrite escape_is_one_pass. apply template_text_of_one_pass.
  - intros s Hs. rewrite escape_is_one_pass, template_text_of_one_pass.
    by rewrite line_ends_as_LF_without_CR.
Qed.

Lemma escaped_text_reads_back_witness :
  template_text (escapeForJSTemplateLiteral "a\b`c${d}") = Some "a\b`c${d}".
Proof.
  apply (proj2 escaped_text_reads_back "a\b`c${d}").
  repeat constructor; discriminate.
Defined.

(** ** Records and their blobs *)

Section BlobsPresent.
Context `{JSON} `{SortSlice} `{MimeDB}.

Lemma fs_blobs_after_Put id content item d r d1 :
  Filesystem.Put id content item d = (r, d1) -> put_err r = None ->
  fs_blobs_present d -> fs_blobs_present d1.
Proof.
  intros HPut Hok Hb k it Hst.
  pose proof (stored_after_Put _ _ _ _ _ _ HPut Hok k it) as Hiff.
  destruct (Put_ok _ _ _ _ _ _ HPut Hok) as (bs & _ & -> & _). simpl.
  apply Hiff in Hst as [[-> _]|[Hne Hold]].
  - rewrite lookup_insert_eq. by eexists.
  - rewrite lookup_insert_ne by done. by eapply Hb.
Qed.

Lemma s3_blobs_after_Put id content item s r s1 :
  S3Storage.Put id content item s = (r, s1) -> put_err r = None ->
  s3_blobs_present s -> s3_blobs_present s1.
Proof.
  intros HPut Hok Hb k it Hst.
  pose proof (s3_stored_after_Put _ _ _ _ _ _ HPut Hok k it) as Hiff.
  destruct (s3_Put_ok _ _ _ _ _ _ HPut Hok) as (bs & _ & -> & _). simpl.
  rewrite lookup_insert_ne by apply not_eq_sym, fileKey_metaKey.
  apply Hiff in Hst as [[-> _]|[Hne Hold]].
  - rewrite lookup_insert_eq. by eexists.
  - rewrite lookup_insert_ne by (intros Heq; by apply fileKey_inj in Heq).
    by eapply Hb.
Qed.

Lemma fs_blobs_after_Delete id d :
  Filesystem.calm d -> fs_blobs_present d ->
  fs_blobs_present (snd (Filesystem.Delete id d)).
Proof.
  intros Hc Hb k it (bs & Hm & Hu). rewrite (Delete_calm id d Hc) in Hm |- *.
  simpl in *. apply lookup_delete_Some in Hm as [Hne Hm].
  rewrite lookup_delete_ne by (intros ->; done).
  apply (Hb k it). by exists bs.
Qed.

Lemma s3_blobs_after_Delete id s :
  S3Storage.calm s -> s3_blobs_present s ->
  s3_blobs_present (snd (S3Storage.Delete id s)).
Proof.
  intros Hc Hb k it (bs & Hm & Hu). rewrite (s3_Delete_calm id s Hc) in Hm |- *.
  simpl in *. apply lookup_delete_Some in Hm as [Hne Hm].
  rewrite lookup_delete_ne in Hm by apply fileKey_metaKey.
  rewrite lookup_delete_ne by apply not_eq_sym, fileKey_metaKey.
  rewrite lookup_delete_ne by (intros Heq; apply fileKey_inj in Heq; by subst).
  apply (Hb k it). by exists bs.
Qed.

(** X24.  Every record keeps its blob, on either backend: an empty store
    has the property, a [Close] that reports no error keeps it, and so do
    [Delete] and [RemoveAll] when nothing fails.  In such a store, when
    nothing fails, [Get] of an id that has a record returns the record with
    a blob, and so never reports a missing file. *)
Theorem records_keep_their_blobs :
  (fs_blobs_present (Filesystem.mkDisk ∅ ∅ [])
   /\ (forall f (w : world Filesystem.disk) f1 w1,
         davWriteFile.closed f = false ->
         davWriteFile.Close f w = (None, f1, w1) ->
         fs_blobs_present (store w) -> fs_blobs_present (store w1))
   /\ (forall id d,
         Filesystem.calm d -> fs_blobs_present d ->
         fs_blobs_present (snd (Filesystem.Delete id d)))
   /\ (forall token name (w : world Filesystem.disk),
         Filesystem.calm (store w) -> fs_blobs_present (store w) ->
         fs_blobs_present (store (snd (WebDAVHandler.RemoveAll token name w))))
   /\ (forall id d item,
         Filesystem.calm d -> fs_blobs_present d -> Filesystem.stored d id item ->
         exists content, fst (Filesystem.Get id d) = inr (content, item)))
  /\ (s3_blobs_present (S3Storage.mkStore ∅ [])
      /\ (forall f (w : world S3Storage.store) f1 w1,
            davWriteFile.closed f = false ->
            davWriteFile.Close f w = (None, f1, w1) ->
            s3_blobs_present (store w) -> s3_blobs_present (store w1))
      /\ (forall id s,
            S3Storage.calm s -> s3_blobs_present s ->
            s3_blobs_present (snd (S3Storage.Delete id s)))
      /\ (forall token name (w : world S3Storage.store),
            S3Storage.calm (store w) -> s3_blobs_present (store w) ->
            s3_blobs_present (store (snd (WebDAVHandler.RemoveAll token name w))))
      /\ (forall id s item,
            S3Storage.calm s -> s3_blobs_present s -> S3Storage.stored s id item ->
            exists content, fst (S3Storage.Get id s) = inr (content, item))).
Proof.
  split; split_and!.
  - intros id item Hst. by destruct (nothing_stored_on_empty [] id item).
  - intros f w f1 w1 Hopen HClose Hb.
    destruct (Close_store f w None f1 w1 Hopen HClose) as (r & HPut & Hok).
    simpl in HPut. by apply (fs_blobs_after_Put _ _ _ _ _ _ HPut).
  - intros id d. apply fs_blobs_after_Delete.
  - intros token name w Hc Hb. unfold WebDAVHandler.RemoveAll.
    destruct (WebDAVHandler.is_root _); [done|].
    unfold WebDAVHandler.findByFilename. simpl.
    destruct (List_calm token (store w) Hc) as (items & n & -> & _).
    assert (Hb' : fs_blobs_present (Filesystem.later n (store w))) by done.
    destruct (WebDAVHandler.first_named _ items) as [it|]; simpl; [|done].
    destruct (negb _); simpl; [done|].
    pose proof (fs_blobs_after_Delete (ID it) _ (calm_later n _ Hc) Hb') as Hd.
    by destruct (Filesystem.Delete (ID it) _).
  - intros id d item Hc Hb Hst. destruct (Get_calm id d Hc) as [n ->]. simpl.
    rewrite (lookup_meta_stored _ _ _ Hst).
    destruct (Hb id item Hst) as [content ->]. by exists content.
  - intros id item (bs & Hm & _). simpl in Hm. by rewrite lookup_empty in Hm.
  - intros f w f1 w1 Hopen HClose Hb.
    destruct (Close_store f w None f1 w1 Hopen HClose) as (r & HPut & Hok).
    simpl in HPut. by apply (s3_blobs_after_Put _ _ _ _ _ _ HPut).
  - intros id s. apply s3_blobs_after_Delete.
  - intros token name w Hc Hb. unfold WebDAVHandler.RemoveAll.
    destruct (WebDAVHandler.is_root _); [done|].
    unfold WebDAVHandler.findByFilename. simpl.
    destruct (s3_List_calm token (store w) Hc) as (n & ->).
    assert (Hb' : s3_blobs_present (S3Storage.later n (store w))) by done.
    destruct (WebDAVHandler.first_named _ _) as [it|]; simpl; [|done].
    destruct (negb _); simpl; [done|].
    pose proof (s3_blobs_after_Delete (ID it) _ (s3_calm_later n _ Hc) Hb') as Hd.
    by destruct (S3Storage.Delete (ID it) _).
  - intros id s item Hc Hb Hst. destruct (s3_Get_calm id s Hc) as [n ->]. simpl.
    destruct Hst as (bs & Hm & Hu).
    unfold S3Storage.lookup_meta. rewrite Hm, Hu.
    destruct (Hb id item) as [content ->]; [by exists bs|]. by exists content.
Qed.

End BlobsPresent.

Lemma records_keep_their_blobs_witness :
  exists content,
    fst (Filesystem.Get (H := Reference.json) (fst (generateID fs_upload_world))
           (store (snd (davWriteFile.Close (H := Scenario.fs_backend)
                          (H0 := Reference.mimedb) empty_txt fs_upload_world))))
    = inr (content,
           set_Size 0 (item_of (H := Reference.mimedb) empty_txt fs_upload_world)).
Proof.
  pose proof (proj1 (@records_keep_their_blobs
                       Reference.json Reference.sort Reference.mimedb))
    as (Hempty & HClose & _ & _ & HGet).
  apply HGet.
  - vm_compute. constructor.
  - apply (HClose empty_txt fs_upload_world
             (snd (fst (davWriteFile.Close (H := Scenario.fs_backend)
                          (H0 := Reference.mimedb) empty_txt fs_upload_world)))).
    + reflexivity.
    + vm_compute. reflexivity.
    + exact Hempty.
  - eexists. split; vm_compute; reflexivity.
Defined.

(** ** From the listing to the files *)

Section ListedNames.
Context `{JSON} `{SortSlice}.

Lemma cleanPath_of_slash_name n :
  n <> "" -> strings_HasSuffix n "/" = false ->
  WebDAVHandler.cleanPath ("/" +:+ n) = n
  /\ WebDAVHandler.is_root n = false.
Proof.
  intros Hne Hs. split.
  - unfold WebDAVHandler.cleanPath. rewrite (TrimPrefix_app "/").
    unfold strings_TrimSuffix. by rewrite Hs.
  - destruct (WebDAVHandler.is_root n) eqn:Hr; [|done].
    apply is_root_spec in Hr as [->| ->]; done.
Qed.

(** X25.  What the root directory lists can be reached, on the filesystem
    backend when nothing fails.  For every child of the handle that opening
    the root returns, whose name is not empty and does not end in a slash,
    [Stat] of that name succeeds in the world the listing left and reports
    a regular file of the owner that is at least as new as the child; and
    when moreover every record is stored under its own [ID] and has its
    blob, opening the name for reading returns a read handle. *)
Theorem listed_names_resolve :
  forall h token flag perm (w : world Filesystem.disk) d w' c,
    Filesystem.calm (store w) ->
    WebDAVHandler.OpenFile h token "/" flag perm w = (inr (DirFile d), w') ->
    c ∈ davDir.children d ->
    davFileInfo.name c <> "" ->
    strings_HasSuffix (davFileInfo.name c) "/" = false ->
    (exists item,
        fst (WebDAVHandler.Stat token ("/" +:+ davFileInfo.name c) w')
        = inr (davFileInfo.mk (Filename item) (Size item) 420 (CreatedAt item) false)
        /\ OwnerToken item = token
        /\ WebDAVHandler.display_name item = davFileInfo.name c
        /\ (davFileInfo.modTime c <= CreatedAt item)%Z)
    /\ (fs_keyed_by_ID (store w) -> fs_blobs_present (store w) ->
        exists f,
          fst (WebDAVHandler.OpenFile h token ("/" +:+ davFileInfo.name c)
                 O_RDONLY perm w')
          = inr (ReadFile f)).
Proof.
  intros h token flag perm w d w' c Hc Hopen Hin Hname Hslash.
  destruct (cleanPath_of_slash_name _ Hname Hslash) as [Hclean Hroot].
  revert Hopen. unfold WebDAVHandler.OpenFile at 1, WebDAVHandler.openRootDir.
  change (WebDAVHandler.is_root (WebDAVHandler.cleanPath "/")) with true.
  cbv iota. simpl.
  destruct (List_calm token (store w) Hc) as (items & n & -> & Hmem & _).
  intros [= <- <-]. simpl in Hin.
  apply list_elem_of_fmap in Hin as (item & -> & Hitem).
  apply Hmem in Hitem as (id & Hst & Ho). simpl in *.
  set (w' := set_store (Filesystem.later n (store w)) w).
  assert (Hc' : Filesystem.calm (store w')) by by apply calm_later.
  pose proof (Filesystem_findByFilename_newest token
                (WebDAVHandler.display_name item) w' Hc') as Hfind.
  destruct (fs_findByFilename_calm token (WebDAVHandler.display_name item) w' Hc')
    as [m Hw].
  destruct (WebDAVHandler.findByFilename token (WebDAVHandler.display_name item) w')
    as [[err|item'] w''] eqn:Hres; simpl in *.
  { destruct Hfind as [_ Hnone]. by destruct (Hnone id item Hst Ho). }
  destruct Hfind as ((id' & Hst') & Ho' & Hn' & Hnewest).
  split.
  - exists item'. unfold WebDAVHandler.Stat. rewrite Hclean, Hroot, Hres.
    split_and!; try done. by apply (Hnewest id item).
  - intros Hk Hb. unfold WebDAVHandler.OpenFile, WebDAVHandler.openFile.
    rewrite Hclean, Hroot. change (WebDAVHandler.write_intent O_RDONLY) with false.
    cbv iota. rewrite Hres. subst w''. simpl.
    pose proof (Hk id' item' Hst') as Hid. subst id'.
    destruct (Get_calm (ID item')
                (Filesystem.later m (Filesystem.later n (store w))))
      as [k ->]; [by apply calm_later, calm_later|].
    simpl.
    change (Filesystem.lookup_meta (Filesystem.later m (Filesystem.later n (store w)))
              (ID item'))
      with (Filesystem.lookup_meta (store w) (ID item')).
    assert (Hst0 : Filesystem.stored (store w) (ID item') item') by exact Hst'.
    rewrite (lookup_meta_stored _ _ _ Hst0).
    destruct (Hb (ID item') item' Hst0) as [content ->]. by eexists.
Qed.

End ListedNames.

Lemma TwoUploads_disk_blobs : fs_blobs_present (H := Reference.json) TwoUploads.disk.
Proof.
  destruct TwoUploads_puts_succeed as [H1 H2].
  apply (fs_blobs_after_Put (H := Reference.json) _ _ _ _ _ _ (surjective_pairing _) H2).
  apply (fs_blobs_after_Put (H := Reference.json) _ _ _ _ _ _ (surjective_pairing _) H1).
  intros id item Hst. by destruct (nothing_stored_on_empty (H := Reference.json) [] id item).
Qed.

Lemma listed_names_resolve_witness :
  (exists item,
      fst (WebDAVHandler.Stat (H := Scenario.fs_backend) "alice" ("/" +:+ "notes.txt")
             (snd (WebDAVHandler.OpenFile (H := Scenario.fs_backend) (WebDAVHandler.mk 0)
                     "alice" "/" O_RDONLY 0 TwoUploads.fs_world)))
      = inr (davFileInfo.mk (Filename item) (Size item) 420 (CreatedAt item) false)
      /\ OwnerToken item = "alice"
      /\ WebDAVHandler.display_name item = "notes.txt"
      /\ (CreatedAt TwoUploads.older <= CreatedAt item)%Z)
  /\ (exists f,
        fst (WebDAVHandler.OpenFile (H := Scenario.fs_backend) (WebDAVHandler.mk 0)
               "alice" ("/" +:+ "notes.txt") O_RDONLY 0
               (snd (WebDAVHandler.OpenFile (H := Scenario.fs_backend)
                       (WebDAVHandler.mk 0) "alice" "/" O_RDONLY 0 TwoUploads.fs_world)))
        = inr (ReadFile f)).
Proof.
  destruct (@listed_names_resolve Reference.json Reference.sort
              (WebDAVHandler.mk 0) "alice" O_RDONLY 0 TwoUploads.fs_world
              (davDir.mk
                 (davFileInfo.mk "/" 0 (Z.lor ModeDir 493) (now TwoUploads.fs_world) true)
                 [davFileInfo.mk "notes.txt" 3 420 (CreatedAt TwoUploads.newer) false;
                  davFileInfo.mk "notes.txt" 2 420 (CreatedAt TwoUploads.older) false]
                 0)
              (snd (WebDAVHandler.OpenFile (H := Scenario.fs_backend) (WebDAVHandler.mk 0)
                      "alice" "/" O_RDONLY 0 TwoUploads.fs_world))
              (davFileInfo.mk "notes.txt" 2 420 (CreatedAt TwoUploads.older) false))
    as [HStat HOpen].
  - vm_compute. constructor.
  - vm_compute. reflexivity.
  - apply elem_of_cons. right. apply elem_of_cons. by left.
  - discriminate.
  - reflexivity.
  - split; [exact HStat|].
    apply HOpen; [exact TwoUploads_disk_keyed | exact TwoUploads_disk_blobs].
Defined.

(** ** An upload on the object store *)

Lemma first_named_only name items new :
  new ∈ items -> WebDAVHandler.display_name new = name ->
  (forall it, it ∈ items -> WebDAVHandler.display_name it = name -> it = new) ->
  WebDAVHandler.first_named name items = Some new.
Proof.
  induction items as [|a items IH]; intros Hin Hname Honly.
  - by apply elem_of_nil in Hin.
  - simpl. destruct (String.eqb_spec (WebDAVHandler.display_name a) name) as [Ha|Ha].
    + f_equal. apply Honly; [apply elem_of_cons; by left | done].
    + apply IH; [|done|].
      * apply elem_of_cons in Hin as [->|Hin]; done.
      * intros it Hit. apply Honly. apply elem_of_cons. by right.
Qed.

Section ObjectStoreSessions.
Context `{JSON} `{MimeDB}.

Lemma s3_lookup_meta_stored (s : S3Storage.store) id item :
  S3Storage.stored s id item -> S3Storage.lookup_meta s id = inr item.
Proof. intros (bs & Hm & Hu). unfold S3Storage.lookup_meta. by rewrite Hm, Hu. Qed.

(** X26.  An upload through the adapter reads back on the object store
    too, when nothing fails, the name and the token are valid UTF-8 and the
    owner has no item under that name yet: opening a path other than the
    root with write intent, writing bytes the cap allows and closing
    without error stores them so that opening the same path for reading
    returns exactly those bytes, and both that handle and [Stat] report the
    cleaned path as name, the number of bytes as size and the time of the
    [Close]. *)
Theorem upload_then_read_roundtrip_on_object_store :
  forall h token name flag perm perm' (w : world S3Storage.store) (p : list byte),
    S3Storage.calm (store w) ->
    WebDAVHandler.is_root (WebDAVHandler.cleanPath name) = false ->
    WebDAVHandler.write_intent flag = true ->
    (WebDAVHandler.maxFileSize h <= 0 \/ len p <= WebDAVHandler.maxFileSize h)%Z ->
    (len p <= max_int)%Z ->
    utf8_ValidString (WebDAVHandler.cleanPath name) = true ->
    utf8_ValidString token = true ->
    (forall id other,
        S3Storage.stored (store w) id other -> OwnerToken other = token ->
        WebDAVHandler.display_name other <> WebDAVHandler.cleanPath name) ->
    exists f0 f1 err f2 w2,
      WebDAVHandler.OpenFile h token name flag perm w = (inr (WriteFile f0), w)
      /\ davWriteFile.Write f0 p w = ((len p, None), f1, w)
      /\ davWriteFile.Close f1 w = (err, f2, w2)
      /\ (err = None ->
          let info := davFileInfo.mk (WebDAVHandler.cleanPath name) (len p) 420
                                     (now w) false in
          fst (WebDAVHandler.OpenFile h token name O_RDONLY perm' w2)
          = inr (ReadFile (davFile.mk info p 0))
          /\ fst (WebDAVHandler.Stat token name w2) = inr info).
Proof.
  intros h token name flag perm perm' w p Hc Hroot Hflag Hcap Hlen Hvname Hvtoken Hnone.
  set (name' := WebDAVHandler.cleanPath name) in *.
  set (f1 := davWriteFile.mk name' token p (WebDAVHandler.maxFileSize h) false).
  destruct (davWriteFile.Close f1 w) as [[err f2] w2] eqn:HClose.
  exists (fresh_handle h token name'), f1, err, f2, w2. split_and!; [| |done|].
  - unfold WebDAVHandler.OpenFile. fold name'. by rewrite Hroot, Hflag.
  - unfold davWriteFile.Write, fresh_handle, int_add. simpl.
    pose proof (len_nonneg p).
    rewrite wrap_id by (unfold len, min_int, max_int in *; simpl; lia).
    change (len []) with 0%Z. rewrite Z.add_0_l.
    destruct (Z.ltb_spec 0 (WebDAVHandler.maxFileSize h)); simpl; [|done].
    destruct (Z.ltb_spec (WebDAVHandler.maxFileSize h) (len p)); [lia|done].
  - intros -> info.
    destruct (Close_store f1 w None f2 w2 eq_refl HClose) as (r & HPut & Hok).
    simpl in HPut. symmetry in Hok.
    pose proof (generateID_length w) as Hidlen.
    set (id := fst (generateID w)) in *.
    set (new := json_item (set_Size (len p) (item_of f1 w))).
    pose proof (s3_Put_calm_after _ _ _ _ _ _ HPut Hc) as Hc2.
    pose proof (s3_stored_after_Put _ _ _ _ _ _ HPut Hok) as Hst.
    assert (Hnew : S3Storage.stored (store w2) id new) by (apply Hst; by left).
    assert (Hblob : S3Storage.bucket (store w2) !! S3Storage.fileKey id = Some p).
    { destruct (s3_Put_ok _ _ _ _ _ _ HPut Hok) as (bs & _ & -> & _). simpl.
      rewrite lookup_insert_ne by apply not_eq_sym, fileKey_metaKey.
      apply lookup_insert_eq. }
    assert (Hfields : ID new = id /\ Filename new = name'
                      /\ Size new = len p /\ CreatedAt new = now w
                      /\ OwnerToken new = token).
    { unfold new. cbn [json_item set_Size item_of ID Filename Size CreatedAt OwnerToken
                         davWriteFile.name davWriteFile.token f1].
      split_and!; try done.
      - apply generateID_json.
      - by apply json_string_valid.
      - by apply json_string_valid. }
    destruct Hfields as (HID & HFilename & HSize & HCreatedAt & HOwner).
    assert (Hname : WebDAVHandler.display_name new = name').
    { unfold WebDAVHandler.display_name. rewrite HFilename.
      by rewrite (is_root_false_nonempty _ Hroot). }
    assert (Hid : id <> "").
    { intros Hempty. rewrite Hempty in Hidlen. discriminate. }
    assert (Hres : exists n,
               WebDAVHandler.findByFilename token name' w2
               = (inr new, set_store (S3Storage.later n (store w2)) w2)).
    { unfold WebDAVHandler.findByFilename. simpl.
      destruct (s3_List_calm token (store w2) Hc2) as (n & ->). exists n.
      rewrite (first_named_only name' _ new); [done | | done |].
      - apply s3_List_mem. split; [done|]. by exists id.
      - intros it (Ho & id' & _ & Hst')%s3_List_mem Hn.
        apply Hst in Hst' as [[_ ->]|[_ Hold]]; [done|].
        by destruct (Hnone id' it Hold Ho). }
    destruct Hres as [n Hres].
    clearbody new. clearbody id. subst info. split.
    + unfold WebDAVHandler.OpenFile, WebDAVHandler.openFile. fold name'.
      rewrite Hroot. change (WebDAVHandler.write_intent O_RDONLY) with false.
      cbv iota. rewrite Hres, HID, HFilename, HSize, HCreatedAt. simpl.
      destruct (s3_Get_calm id (S3Storage.later n (store w2)) (s3_calm_later n _ Hc2))
        as [m ->].
      simpl. change (S3Storage.lookup_meta (S3Storage.later n (store w2)) id)
        with (S3Storage.lookup_meta (store w2) id).
      by rewrite (s3_lookup_meta_stored _ _ _ Hnew), Hblob.
    + unfold WebDAVHandler.Stat. fold name'.
      by rewrite Hroot, Hres, HFilename, HSize, HCreatedAt.
Qed.

End ObjectStoreSessions.

Lemma TwoUploads_bucket_stored id other :
  S3Storage.stored (H := Reference.json) TwoUploads.bucket id other ->
  other = set_Size 3 TwoUploads.newer \/ other = set_Size 2 TwoUploads.older.
Proof.
  assert (H1 : put_err (fst (S3Storage.Put (H := Reference.json) (ID TwoUploads.older)
                               TwoUploads.v1 TwoUploads.older Scenario.bucket0)) = None)
    by (vm_compute; reflexivity).
  assert (H2 : put_err (fst (S3Storage.Put (H := Reference.json) (ID TwoUploads.newer)
                               TwoUploads.v2 TwoUploads.newer
                               (snd (S3Storage.Put (H := Reference.json)
                                       (ID TwoUploads.older) TwoUploads.v1
                                       TwoUploads.older Scenario.bucket0)))) = None)
    by (vm_compute; reflexivity).
  intros Hst.
  apply (s3_stored_after_Put (H := Reference.json) _ _ _ _ _ _ (surjective_pairing _) H2)
    in Hst as [[_ ->]|[_ Hst]]; [by left|].
  apply (s3_stored_after_Put (H := Reference.json) _ _ _ _ _ _ (surjective_pairing _) H1)
    in Hst as [[_ ->]|[_ Hst]]; [by right|].
  destruct Hst as (bs & Hm & _). simpl in Hm. by rewrite lookup_empty in Hm.
Qed.

Lemma upload_then_read_roundtrip_on_object_store_witness :
  exists f0 f1 err f2 w2,
    WebDAVHandler.OpenFile (H := Scenario.s3_backend) (WebDAVHandler.mk 0)
      "alice" "/todo.txt" (Z.lor O_RDWR (Z.lor O_CREATE O_TRUNC)) 0 TwoUploads.s3_world
    = (inr (WriteFile f0), TwoUploads.s3_world)
    /\ davWriteFile.Write f0 TwoUploads.v3 TwoUploads.s3_world
       = ((len TwoUploads.v3, None), f1, TwoUploads.s3_world)
    /\ davWriteFile.Close (H := Scenario.s3_backend) (H0 := Reference.mimedb)
         f1 TwoUploads.s3_world = (err, f2, w2)
    /\ (err = None ->
        let info := davFileInfo.mk (WebDAVHandler.cleanPath "/todo.txt")
                      (len TwoUploads.v3) 420 (now TwoUploads.s3_world) false in
        fst (WebDAVHandler.OpenFile (H := Scenario.s3_backend) (WebDAVHandler.mk 0)
               "alice" "/todo.txt" O_RDONLY 0 w2)
        = inr (ReadFile (davFile.mk info TwoUploads.v3 0))
        /\ fst (WebDAVHandler.Stat (H := Scenario.s3_backend) "alice" "/todo.txt" w2)
           = inr info).
Proof.
  apply (@upload_then_read_roundtrip_on_object_store Reference.json Reference.mimedb
           (WebDAVHandler.mk 0) "alice" "/todo.txt"
           (Z.lor O_RDWR (Z.lor O_CREATE O_TRUNC)) 0 0 TwoUploads.s3_world TwoUploads.v3).
  - vm_compute. constructor.
  - reflexivity.
  - reflexivity.
  - left. vm_compute. discriminate.
  - vm_compute. discriminate.
  - reflexivity.
  - reflexivity.
  - intros id other Hst _.
    apply TwoUploads_bucket_stored in Hst as [->| ->]; discriminate.
Defined.

(** ** A body written in chunks *)

Lemma Write_step {S} (f : davWriteFile.t) (p : list byte) (w : world S) :
  (len (davWriteFile.buffer f) + len p <= max_int)%Z ->
  davWriteFile.Write f p w
  = if decide (davWriteFile.maxFileSize f <= 0
               \/ len (davWriteFile.buffer f) + len p <= davWriteFile.maxFileSize f)%Z
    then ((len p, None),
          davWriteFile.mk (davWriteFile.name f) (davWriteFile.token f)
            (davWriteFile.buffer f ++ p) (davWriteFile.maxFileSize f)
            (davWriteFile.closed f), w)
    else ((0%Z, Some (errorString "file too large")), f, w).
Proof.
  intros Hfit. unfold davWriteFile.Write, int_add.
  pose proof (len_nonneg (davWriteFile.buffer f)). pose proof (len_nonneg p).
  rewrite wrap_id by (unfold min_int, max_int in *; lia).
  destruct (Z.ltb_spec 0 (davWriteFile.maxFileSize f));
    [destruct (Z.ltb_spec (davWriteFile.maxFileSize f)
                 (len (davWriteFile.buffer f) + len p))|];
    simpl; case_decide; try done; lia.
Qed.

Lemma len_app {A} (a b : list A) : len (a ++ b) = (len a + len b)%Z.
Proof. unfold len. rewrite length_app. lia. Qed.

(** X27.  A body written in chunks, for lengths an [int] holds.  When the
    handle has no cap, or the buffer with the whole body stays within the
    cap, every chunk is accepted, the count is the length of the body and
    the buffer is extended by the body, however it was cut.  In any case
    the handle stays as open or closed as it was and the buffer holds what
    it held followed by some of the leading chunks, whole, and the count is
    their length; the storage is not touched. *)
Theorem chunks_fill_the_buffer {T} :
  forall (chunks : list (list byte)) (f : davWriteFile.t) (w : world T),
    (len (davWriteFile.buffer f) + len (concat chunks) <= max_int)%Z ->
    let res := io_Copy_to_handle f chunks w in
    let f' := snd (fst res) in
    snd res = w
    /\ davWriteFile.closed f' = davWriteFile.closed f
    /\ davWriteFile.name f' = davWriteFile.name f
    /\ davWriteFile.token f' = davWriteFile.token f
    /\ davWriteFile.maxFileSize f' = davWriteFile.maxFileSize f
    /\ (exists k,
          davWriteFile.buffer f' = davWriteFile.buffer f ++ concat (take k chunks)
          /\ fst (fst (fst res)) = len (concat (take k chunks))
          /\ (snd (fst (fst res)) = None -> k = length chunks))
    /\ ((davWriteFile.maxFileSize f <= 0
         \/ len (davWriteFile.buffer f) + len (concat chunks)
            <= davWriteFile.maxFileSize f)%Z ->
        fst (fst res) = (len (concat chunks), None)
        /\ davWriteFile.buffer f' = davWriteFile.buffer f ++ concat chunks).
Proof.
  induction chunks as [|p chunks IH]; intros f w Hfit res f'; subst res f'.
  - simpl. rewrite app_nil_r. split_and!; try done.
    exists 0. by rewrite app_nil_r.
  - cbn [io_Copy_to_handle]. simpl in Hfit. rewrite len_app in Hfit.
    pose proof (len_nonneg (davWriteFile.buffer f)).
    pose proof (len_nonneg p). pose proof (len_nonneg (concat chunks)).
    rewrite Write_step by lia.
    case_decide as Hfits.
    + set (f1 := davWriteFile.mk _ _ _ _ _).
      specialize (IH f1 w). simpl in IH. rewrite len_app in IH.
      destruct (IH ltac:(lia)) as (Hw & Hcl & Hn & Ht & Hm & (k & Hbuf & Hcount & Hall) & Hwhole).
      destruct (io_Copy_to_handle f1 chunks w) as [[[m err] f2] w2].
      simpl in *. split_and!; try done.
      * exists (S k). simpl. rewrite Hbuf, <- app_assoc. split_and!; [done | |].
        -- rewrite len_app. by rewrite Hcount.
        -- intros He. by rewrite (Hall He).
      * intros Hcap. rewrite len_app in Hcap.
        destruct Hwhole as [Hres Hbuf']; [lia|].
        injection Hres as -> ->. rewrite Hbuf', <- app_assoc, len_app. done.
    + simpl. split_and!; try done.
      * exists 0. simpl. by rewrite app_nil_r.
      * intros Hcap. rewrite len_app in Hcap. lia.
Qed.

Lemma chunks_fill_the_buffer_witness :
  fst (fst (io_Copy_to_handle capped_handle [[x6c]; [x6f]] traced_world))
  = (1%Z, Some (errorString "file too large"))
  /\ fst (fst (io_Copy_to_handle
                 (davWriteFile.mk "a.txt" "alice" [x68; x65; x6c] 5 false)
                 [[x6c]; [x6f]] traced_world))
     = (len (concat [[x6c]; [x6f]]), None).
Proof.
  split.
  - vm_compute. reflexivity.
  - apply (chunks_fill_the_buffer [[x6c]; [x6f]]
             (davWriteFile.mk "a.txt" "alice" [x68; x65; x6c] 5 false) traced_world).
    + vm_compute. discriminate.
    + right. vm_compute. discriminate.
Defined.

(** ** Name resolution on the object store *)

Lemma first_named_Some name items item :
  WebDAVHandler.first_named name items = Some item ->
  item ∈ items /\ WebDAVHandler.display_name item = name.
Proof.
  induction items as [|a items IH]; simpl; [done|].
  destruct (String.eqb_spec (WebDAVHandler.display_name a) name) as [Ha|Ha].
  - intros [= <-]. split; [apply elem_of_cons; by left | done].
  - intros Hf. destruct (IH Hf) as [Hin Hn]. split; [|done].
    apply elem_of_cons. by right.
Qed.

(** X28.  [Stat] on the object store, when nothing fails.  A path that is
    not the root resolves to a stored item of the owner that is listed
    under the cleaned path, and [Stat] reports that item's file name, size
    and creation time, as a regular file of mode 0644; when the owner has
    no item of that name under an id that is not empty it fails with
    [ErrNotExist].  Nothing is said of which item it is when there are
    several: the listing of the object store is not sorted. *)
Theorem Stat_resolves_on_object_store `{JSON} :
  forall token name (w : world S3Storage.store),
    S3Storage.calm (store w) ->
    WebDAVHandler.is_root (WebDAVHandler.cleanPath name) = false ->
    match fst (WebDAVHandler.Stat token name w) with
    | inr info =>
        exists id item,
          id <> ""
          /\ S3Storage.stored (store w) id item
          /\ OwnerToken item = token
          /\ WebDAVHandler.display_name item = WebDAVHandler.cleanPath name
          /\ info = davFileInfo.mk (Filename item) (Size item) 420
                                   (CreatedAt item) false
    | inl err =>
        err = ErrNotExist
        /\ forall id other,
             id <> "" -> S3Storage.stored (store w) id other ->
             OwnerToken other = token ->
             WebDAVHandler.display_name other <> WebDAVHandler.cleanPath name
    end.
Proof.
  intros token name w Hc Hroot. unfold WebDAVHandler.Stat. rewrite Hroot.
  unfold WebDAVHandler.findByFilename. simpl.
  destruct (s3_List_calm token (store w) Hc) as (n & ->).
  destruct (WebDAVHandler.first_named _ _) as [item|] eqn:Hfirst; simpl.
  - apply first_named_Some in Hfirst as [Hin Hname].
    apply s3_List_mem in Hin as (Ho & id & Hid & Hst).
    exists id, item. by split_and!.
  - split; [done|]. intros id other Hid Hst Ho.
    apply (first_named_None _ _ Hfirst). apply s3_List_mem.
    split; [done|]. by exists id.
Qed.

Lemma Stat_resolves_on_object_store_witness :
  match fst (WebDAVHandler.Stat (H := Scenario.s3_backend)
               "alice" "/notes.txt" TwoUploads.s3_world) with
  | inr info =>
      exists id item,
        id <> ""
        /\ S3Storage.stored (H := Reference.json) (store TwoUploads.s3_world) id item
        /\ OwnerToken item = "alice"
        /\ WebDAVHandler.display_name item = WebDAVHandler.cleanPath "/notes.txt"
        /\ info = davFileInfo.mk (Filename item) (Size item) 420 (CreatedAt item) false
  | inl err =>
      err = ErrNotExist
      /\ forall id other,
           id <> "" ->
           S3Storage.stored (H := Reference.json) (store TwoUploads.s3_world) id other ->
           OwnerToken other = "alice" ->
           WebDAVHandler.display_name other <> WebDAVHandler.cleanPath "/notes.txt"
  end.
Proof.
  apply (@Stat_resolves_on_object_store Reference.json
           "alice" "/notes.txt" TwoUploads.s3_world).
  - vm_compute. constructor.
  - reflexivity.
Defined.

(** ** A Put that fails *)

Section FailedPut.
Context `{JSON}.

Ltac calm_tail :=
  repeat match goal with
    | Hf : Forall _ (_ :: _) |- _ => apply list.Forall_cons in Hf as [? Hf]
    end; simplify_eq.

(** X29.  A [Put] under an id that is new to the store, with one failing
    call among its four (on the object store, three) and none after it,
    returns an error and leaves the store holding what it held: what it had
    written it has removed.  The same holds on the filesystem when no call
    fails but the codec refuses the item; the object store, in that case,
    keeps the blob it has just uploaded. *)
Theorem failed_Put_of_new_id_leaves_nothing :
  (forall id content item (d : Filesystem.disk) i k tail bs,
      Filesystem.files d !! id = None ->
      Filesystem.meta d !! (id +:+ ".json") = None ->
      Filesystem.sched d = replicate i Succeeds ++ Fails k :: tail ->
      Forall (fun o => o = Succeeds) tail ->
      i < 4 ->
      json_Marshal (set_Size (len content) item) = Some bs ->
      put_err (fst (Filesystem.Put id content item d)) <> None
      /\ same_files d (snd (Filesystem.Put id content item d)))
  /\ (forall id content item (d : Filesystem.disk),
      Filesystem.files d !! id = None ->
      Filesystem.meta d !! (id +:+ ".json") = None ->
      Filesystem.calm d ->
      json_Marshal (set_Size (len content) item) = None ->
      put_err (fst (Filesystem.Put id content item d))
      = Some (wrapError "failed to write metadata" ErrMarshal)
      /\ same_files d (snd (Filesystem.Put id content item d)))
  /\ (forall id content item (s : S3Storage.store) i k tail bs,
      S3Storage.bucket s !! S3Storage.fileKey id = None ->
      S3Storage.sched s = replicate i Succeeds ++ Fails k :: tail ->
      Forall (fun o => o = Succeeds) tail ->
      i < 3 ->
      json_Marshal (set_Size (len content) item) = Some bs ->
      put_err (fst (S3Storage.Put id content item s)) <> None
      /\ S3Storage.bucket (snd (S3Storage.Put id content item s)) = S3Storage.bucket s)
  /\ (forall id content item (s : S3Storage.store),
      S3Storage.calm s ->
      json_Marshal (set_Size (len content) item) = None ->
      put_err (fst (S3Storage.Put id content item s))
      = Some (wrapError "failed to marshal metadata" ErrMarshal)
      /\ S3Storage.bucket (snd (S3Storage.Put id content item s))
         = <[S3Storage.fileKey id := content]> (S3Storage.bucket s)).
Proof.
  split_and!.
  - intros id content item [fs ms sc] i k tail bs Hf Hm Hsc Hcalm Hi Hbs.
    simpl in *. subst sc. unfold same_files.
    unfold Filesystem.Put, Filesystem.os_Create, Filesystem.io_Copy,
      Filesystem.json_Encode, Filesystem.os_Remove, Filesystem.append_at,
      Filesystem.next.
    destruct i as [|[|[|[|i]]]]; [| | | |lia]; simpl; rewrite ?Hbs; simpl.
    all: rewrite ?lookup_insert_eq; simpl.
    all: run_medium; calm_tail; simpl.
    all: rewrite ?lookup_insert_eq in *; simpl; simplify_eq.
    all: split; [done|].
    all: rewrite ?insert_insert_eq, ?delete_insert_eq; simpl.
    all: rewrite ?delete_id by done; done.
  - intros id content item [fs ms sc] Hf Hm Hc Hbs.
    unfold Filesystem.calm in Hc. simpl in *. unfold same_files.
    unfold Filesystem.Put, Filesystem.os_Create, Filesystem.io_Copy,
      Filesystem.json_Encode, Filesystem.os_Remove, Filesystem.append_at,
      Filesystem.next.
    simpl. run_medium; calm_tail; simpl.
    all: rewrite ?lookup_insert_eq in *; simpl; simplify_eq.
    all: rewrite ?Hbs; simpl; rewrite ?lookup_insert_eq; simpl.
    all: rewrite ?insert_insert_eq, ?delete_insert_eq; simpl.
    all: rewrite ?delete_id by done; done.
  - intros id content item [b sc] i k tail bs Hf Hsc Hcalm Hi Hbs.
    simpl in *. subst sc.
    unfold S3Storage.Put, S3Storage.io_Copy, S3Storage.PutObject,
      S3Storage.DeleteObject, S3Storage.next.
    destruct i as [|[|[|i]]]; [| | |lia]; simpl; rewrite ?Hbs; simpl.
    all: run_medium; calm_tail; simpl.
    all: split; [done|].
    all: rewrite ?delete_insert_eq; rewrite ?delete_id by done; done.
  - intros id content item [b sc] Hc Hbs.
    unfold S3Storage.calm in Hc. simpl in *.
    unfold S3Storage.Put, S3Storage.io_Copy, S3Storage.PutObject,
      S3Storage.DeleteObject, S3Storage.next.
    simpl. run_medium; calm_tail; simpl.
    all: rewrite ?Hbs; simpl; done.
Qed.

End FailedPut.

Lemma failed_Put_of_new_id_leaves_nothing_witness :
  put_err (fst (Filesystem.Put (H := Reference.json) "ab12" Scenario.hello Scenario.a_txt
                  (Filesystem.mkDisk ∅ ∅ [Succeeds; Succeeds; Succeeds; Fails 2])))
  <> None
  /\ same_files (Filesystem.mkDisk ∅ ∅ [Succeeds; Succeeds; Succeeds; Fails 2])
       (snd (Filesystem.Put (H := Reference.json) "ab12" Scenario.hello Scenario.a_txt
               (Filesystem.mkDisk ∅ ∅ [Succeeds; Succeeds; Succeeds; Fails 2]))).
Proof.
  apply (proj1 (@failed_Put_of_new_id_leaves_nothing Reference.json)
           "ab12" Scenario.hello Scenario.a_txt
           (Filesystem.mkDisk ∅ ∅ [Succeeds; Succeeds; Succeeds; Fails 2])
           3 2 [] (default [] (Reference.marshal (set_Size 5 Scenario.a_txt)))).
  - reflexivity.
  - reflexivity.
  - reflexivity.
  - constructor.
  - lia.
  - vm_compute. reflexivity.
Defined.

(** ** The configuration that is loaded *)

(** X30.  Every configuration [Load] returns is complete: its listen
    address, storage type and size limit are not empty, and a filesystem
    storage has a path; applying the defaults again changes nothing.  On
    such a configuration [storage.New] calls [NewFilesystem], with the
    configured path or [./data], exactly when the file gave the type
    [filesystem] or none, calls [NewS3] exactly when it gave [s3], and
    fails on any other type. *)
Theorem loaded_config_is_complete `{config.YAML} :
  (forall file cfg,
      config.Load file = inr cfg ->
      config.ListenAddr cfg <> ""
      /\ config.Type_ (config.Storage cfg) <> ""
      /\ config.MaxFileSize (config.Limits cfg) <> ""
      /\ (config.Type_ (config.Storage cfg) = "filesystem" ->
          config.Path (config.Storage cfg) <> "")
      /\ config.applyDefaults cfg = cfg)
  /\ (forall c,
      let s := config.Storage c in
      let s' := config.Storage (config.applyDefaults c) in
      ((config.Type_ s = "" \/ config.Type_ s = "filesystem") ->
       storage_New s'
       = inr (CallNewFilesystem
                (if String.eqb (config.Path s) "" then "./data" else config.Path s)))
      /\ (config.Type_ s = "s3" -> storage_New s' = inr (CallNewS3 s))
      /\ (config.Type_ s <> "" -> config.Type_ s <> "filesystem" ->
          config.Type_ s <> "s3" ->
          storage_New s'
          = inl (errorString ("unknown storage type: " +:+ config.Type_ s)))).
Proof.
  assert (Hcomplete : forall c,
             config.ListenAddr (config.applyDefaults c) <> ""
             /\ config.Type_ (config.Storage (config.applyDefaults c)) <> ""
             /\ config.MaxFileSize (config.Limits (config.applyDefaults c)) <> ""
             /\ (config.Type_ (config.Storage (config.applyDefaults c)) = "filesystem" ->
                 config.Path (config.Storage (config.applyDefaults c)) <> "")
             /\ config.applyDefaults (config.applyDefaults c) = config.applyDefaults c).
  { intros [dom url addr [ty ep bk rg ak sk path] [mx rl sq] auth].
    unfold config.applyDefaults. simpl.
    destruct (String.eqb_spec addr ""), (String.eqb_spec ty ""),
      (String.eqb_spec mx ""), (String.eqb_spec path ""); subst; simpl.
    all: try destruct (String.eqb_spec ty "filesystem"); subst; simpl.
    all: split_and!; try done.
    all: repeat match goal with
           | |- context [String.eqb ?a ?b] =>
               destruct (String.eqb_spec a b); simpl; try done
           end. }
  split.
  - intros [data|] cfg; simpl.
    + destruct (config.yaml_Unmarshal data) as [c|]; [|done].
      intros [= <-]. apply Hcomplete.
    + intros [= <-]. by split_and!.
  - intros [dom url addr [ty ep bk rg ak sk path] [mx rl sq] auth]. simpl.
    unfold storage_New, config.applyDefaults. simpl. split_and!.
    + intros [->| ->]; simpl; by destruct (String.eqb path "").
    + intros ->. done.
    + intros H1 H2 H3.
      destruct (String.eqb_spec ty ""); [done|]. simpl.
      destruct (String.eqb_spec ty "filesystem"); [done|]. simpl.
      destruct (String.eqb_spec ty ""); [done|]. simpl.
      by destruct (String.eqb_spec ty "s3").
Qed.

Lemma loaded_config_is_complete_witness :
  config.ListenAddr (config.applyDefaults zero_config) <> ""
  /\ config.Type_ (config.Storage (config.applyDefaults zero_config)) <> ""
  /\ config.MaxFileSize (config.Limits (config.applyDefaults zero_config)) <> ""
  /\ (config.Type_ (config.Storage (config.applyDefaults zero_config)) = "filesystem" ->
      config.Path (config.Storage (config.applyDefaults zero_config)) <> "")
  /\ config.applyDefaults (config.applyDefaults zero_config)
     = config.applyDefaults zero_config.
Proof.
  apply (proj1 (@loaded_config_is_complete empty_document_yaml)
           (Some []) (config.applyDefaults zero_config)).
  reflexivity.
Defined.
